(** * India electricity dashboard: growth, rollups, KPIs and CSV ingestion

    A shallow embedding of the analytical core of
    [src/ElectricityDashboard.tsx]: the calendar helpers, [growthPct],
    [computeKPIs], [toMonthly], the chart series builder [dailyForChart]
    (daily, weekly, monthly and rolling 30 day modes), [csvParse],
    [exportCSV], the sample and the single entry [upsertOne], and of the
    daily and rolling 30 day modes and the [csvParse] of the copy
    [src/unnamed/part_000], whose chart rounds its numbers and can throw.

    Representation choices.
    - A JavaScript number is a rational [Q]; the nullable number
      [number | null] is [option Q].  Arithmetic is exact, so results are
      compared with [Qeq]; rounding of IEEE doubles is not modelled.
    - A store key is the ten character text [YYYY-MM-DD].  It is held as the
      record [iso] of its three numeric fields; [isoText] gives the text
      back.  The reading is exact for four digit years, 1000 to 9999, where
      [Number(iso.slice(0, 4))] followed by a template literal is the
      identity on the year field; the theorems below state that domain.
      [parseInputDate], [formatDDMMYYYY] and the CSV functions work on the
      texts themselves.
    - A [Date] at midnight UTC is its day number (its time value divided by
      86400000); [MakeDay], [Date.UTC], [setUTCDate] and the UTC getters
      follow ECMAScript on day numbers.
    - [Map] objects that are only read with [get] are [gmap]s; a [Set] that
      is iterated keeps its insertion order as a duplicate free list.
    - The source's [while (cur <= end)] loops over days take a fuel
      argument and return [None] when it runs out. *)

From Stdlib Require Import ZArith QArith Qpower Qabs Qround Lia Bool Ascii.
From stdpp Require Import gmap strings list sorting.

Local Open Scope Z_scope.

(** ** Growth *)

Definition safeDiv (n : Q) (d : option Q) : option Q :=
  match d with
  | None => None
  | Some d' => if Qeq_bool d' 0 then None else Some (n / d')%Q
  end.

(** [curr - prev] with a null [prev] subtracts zero. *)
Definition growthPct (curr : Q) (prev : option Q) : option Q :=
  match safeDiv (curr - default 0%Q prev)%Q prev with
  | None => None
  | Some r => Some (r * 100)%Q
  end.

(** Equality of nullable numbers: both null, or numerically equal. *)
Definition oQeq (a b : option Q) : Prop :=
  match a, b with
  | None, None => True
  | Some x, Some y => (x == y)%Q
  | _, _ => False
  end.

(** ** Calendar *)

Definition isLeap (y : Z) : bool :=
  ((y mod 4 =? 0) && negb (y mod 100 =? 0)) || (y mod 400 =? 0).

Definition daysInMonth (y m : Z) : Z :=
  if m =? 2 then (if isLeap y then 29 else 28)
  else if (m =? 4) || (m =? 6) || (m =? 9) || (m =? 11) then 30 else 31.

(** Day number of the first instant of a March based year. *)
Definition yearStartMar (y : Z) : Z :=
  let era := y / 400 in
  let yoe := y - era * 400 in
  era * 146097 + yoe * 365 + yoe / 4 - yoe / 100 - 719468.

(** Days from 1 March to the start of the March based month [mp], 0..11. *)
Definition monthStartMar (mp : Z) : Z := (153 * mp + 2) / 5.

Definition marYear (y m : Z) : Z := if m <=? 2 then y - 1 else y.
Definition marMonth (m : Z) : Z := if m <=? 2 then m + 9 else m - 3.

(** Day number (days since 1970-01-01) of the civil date [y]-[m]-[d]. *)
Definition daysFromCivil (y m d : Z) : Z :=
  yearStartMar (marYear y m) + monthStartMar (marMonth m) + d - 1.

(** The civil month of the March based month [mp]. *)
Definition civilMonth (mp : Z) : Z := if mp <? 10 then mp + 3 else mp - 9.

(** Civil date of a day number. *)
Definition civilFromDays (n : Z) : Z * Z * Z :=
  let z := n + 719468 in
  let era := z / 146097 in
  let doe := z - era * 146097 in
  let yoe := (doe - doe / 1460 + doe / 36524 - doe / 146096) / 365 in
  let y := yoe + era * 400 in
  let doy := doe - (365 * yoe + yoe / 4 - yoe / 100) in
  let mp := (5 * doy + 2) / 153 in
  let d := doy - monthStartMar mp + 1 in
  let m := civilMonth mp in
  (if m <=? 2 then y + 1 else y, m, d).

(** ECMAScript [MakeDay]: months are zero based and overflow into years,
    the date overflows into months. *)
Definition MakeDay (year month dt : Z) : Z :=
  daysFromCivil (year + month / 12) (month mod 12 + 1) 1 + dt - 1.

(** [Date.UTC(y, month, dt)]: a year from 0 to 99 means 1900 + y. *)
Definition DateUTC (y month dt : Z) : Z :=
  MakeDay (if (0 <=? y) && (y <=? 99) then 1900 + y else y) month dt.

Definition getUTCFullYear (t : Z) : Z := (civilFromDays t).1.1.
Definition getUTCMonth (t : Z) : Z := (civilFromDays t).1.2 - 1.
Definition getUTCDate (t : Z) : Z := (civilFromDays t).2.
(** 1970-01-01 was a Thursday; 0 is Sunday. *)
Definition getUTCDay (t : Z) : Z := (t + 4) mod 7.

Definition setUTCDate (t dt : Z) : Z :=
  MakeDay (getUTCFullYear t) (getUTCMonth t) dt.

(** A store key [YYYY-MM-DD]. *)
Record iso := Iso { yr : Z; mo : Z; dy : Z }.

#[global] Instance iso_eq_dec : EqDecision iso.
Proof. solve_decision. Defined.

#[global] Instance iso_countable : Countable iso.
Proof.
  refine (inj_countable' (fun k => (yr k, mo k, dy k))
                         (fun t => Iso t.1.1 t.1.2 t.2) _).
  by intros [].
Defined.

(** [new Date(iso + "T00:00:00Z")]. *)
Definition DateOfISO (k : iso) : Z := MakeDay (yr k) (mo k - 1) (dy k).

(** [d.toISOString().slice(0, 10)]. *)
Definition toISODate (t : Z) : iso :=
  Iso (getUTCFullYear t) (getUTCMonth t + 1) (getUTCDate t).

(** [a <= b] on key texts: zero padded fields compare field by field. *)
Definition iso_leb (a b : iso) : bool :=
  (yr a <? yr b) ||
  ((yr a =? yr b) && ((mo a <? mo b) || ((mo a =? mo b) && (dy a <=? dy b)))).

(** [a > b] on key texts. *)
Definition iso_gtb (a b : iso) : bool := negb (iso_leb a b).

Definition isoMinusDays (k : iso) (days : Z) : iso :=
  let d := DateOfISO k in
  toISODate (setUTCDate d (getUTCDate d - days)).

Definition isoPlusDays (k : iso) (days : Z) : iso :=
  let d := DateOfISO k in
  toISODate (setUTCDate d (getUTCDate d + days)).

Definition startOfWeekISO (k : iso) : iso :=
  let d := DateOfISO k in
  let dow := getUTCDay d in
  let diffToMon := if dow =? 0 then -6 else 1 - dow in
  toISODate (setUTCDate d (getUTCDate d + diffToMon)).

(** A month key [YYYY-MM]. *)
Definition ym : Type := Z * Z.

Definition monthKey (isoDate : iso) : ym := (yr isoDate, mo isoDate).
Definition getYear (m : ym) : Z := m.1.
Definition getMonth (m : ym) : Z := m.2.

Definition addMonths (m : ym) (delta : Z) : ym :=
  let d := DateUTC (getYear m) (getMonth m - 1 + delta) 1 in
  (getUTCFullYear d, getUTCMonth d + 1).

(** [a < b ? -1 : a > b ? 1 : 0] on month keys, as the order it sorts by. *)
Definition ym_leb (a b : ym) : bool :=
  (a.1 <? b.1) || ((a.1 =? b.1) && (a.2 <=? b.2)).

(** The loop [let cur = a; while (cur <= b) { body; cur = isoPlusDays(cur, 1) }]. *)
Fixpoint forDays {S : Type} (fuel : nat) (body : iso -> S -> option S)
    (cur endIso : iso) (s : S) : option S :=
  match fuel with
  | O => None
  | Datatypes.S fuel' =>
      if iso_leb cur endIso
      then match body cur s with
           | Some s' => forDays fuel' body (isoPlusDays cur 1) endIso s'
           | None => None
           end
      else Some s
  end.

(** ** Text

    JavaScript strings are byte strings here; the texts the dashboard
    handles are ASCII. *)

Definition isWhite (c : ascii) : bool :=
  let n := nat_of_ascii c in
  ((9 <=? n) && (n <=? 13))%nat || (n =? 32)%nat.

Definition isDigit (c : ascii) : bool :=
  let n := nat_of_ascii c in (48 <=? n)%nat && (n <=? 57)%nat.

Definition digitVal (c : ascii) : Z := Z.of_nat (nat_of_ascii c) - 48.
Definition digitChar (d : Z) : ascii := ascii_of_nat (Z.to_nat (48 + d)).

Fixpoint trimStart (s : string) : string :=
  match s with
  | String c s' => if isWhite c then trimStart s' else s
  | EmptyString => EmptyString
  end.

Fixpoint trimEnd (s : string) : string :=
  match s with
  | String c s' =>
      match trimEnd s' with
      | EmptyString => if isWhite c then EmptyString else String c EmptyString
      | r => String c r
      end
  | EmptyString => EmptyString
  end.

Definition trim (s : string) : string := trimEnd (trimStart s).

(** [s.split(sep)] for a one character separator. *)
Fixpoint splitChar (sep : ascii) (s : string) : list string :=
  match s with
  | EmptyString => [EmptyString]
  | String c s' =>
      if Ascii.eqb c sep then EmptyString :: splitChar sep s'
      else match splitChar sep s' with
           | l :: ls => String c l :: ls
           | [] => [String c EmptyString]
           end
  end.

Definition LF : ascii := ascii_of_nat 10.
Definition CR : ascii := ascii_of_nat 13.

(** [s.split(/\r?\n/)]. *)
Fixpoint splitLines (s : string) : list string :=
  match s with
  | EmptyString => [EmptyString]
  | String c s' =>
      if Ascii.eqb c LF then EmptyString :: splitLines s'
      else
        let glue :=
          match splitLines s' with
          | l :: ls => String c l :: ls
          | [] => [String c EmptyString]
          end in
        match s' with
        | String c' s'' =>
            if Ascii.eqb c CR && Ascii.eqb c' LF
            then EmptyString :: splitLines s''
            else glue
        | EmptyString => glue
        end
  end.

(** [lines.join(sep)]. *)
Fixpoint joinWith (sep : string) (l : list string) : string :=
  match l with
  | [] => EmptyString
  | [x] => x
  | x :: rest => x +:+ sep +:+ joinWith sep rest
  end.

Definition lowerChar (c : ascii) : ascii :=
  let n := nat_of_ascii c in
  if ((65 <=? n) && (n <=? 90))%nat then ascii_of_nat (n + 32) else c.

Fixpoint toLowerCase (s : string) : string :=
  match s with
  | String c s' => String (lowerChar c) (toLowerCase s')
  | EmptyString => EmptyString
  end.

(** [s.includes(sub)]. *)
Fixpoint includes (sub s : string) : bool :=
  String.prefix sub s ||
  match s with
  | String _ s' => includes sub s'
  | EmptyString => false
  end.

(** [s.replace(/,/g, "")]. *)
Fixpoint removeCommas (s : string) : string :=
  match s with
  | String c s' =>
      if Ascii.eqb c "," then removeCommas s' else String c (removeCommas s')
  | EmptyString => EmptyString
  end.

Fixpoint allDigits (s : string) : bool :=
  match s with
  | String c s' => isDigit c && allDigits s'
  | EmptyString => true
  end.

(** Value of a list of decimal digits, most significant first. *)
Definition valOf (ds : list Z) : Z := foldl (fun acc d => acc * 10 + d) 0 ds.

Fixpoint digitsOfString (s : string) : list Z :=
  match s with
  | String c s' => digitVal c :: digitsOfString s'
  | EmptyString => []
  end.

Fixpoint stringOfDigits (ds : list Z) : string :=
  match ds with
  | d :: ds' => String (digitChar d) (stringOfDigits ds')
  | [] => EmptyString
  end.

(** [Number(s)] for a text of decimal digits only. *)
Definition numberOfDigits (s : string) : Z := valOf (digitsOfString s).

Fixpoint digitsAux (fuel : nat) (n : Z) (acc : list Z) : list Z :=
  match fuel with
  | O => n :: acc
  | Datatypes.S fuel' =>
      if n <? 10 then n :: acc else digitsAux fuel' (n / 10) (n mod 10 :: acc)
  end.

(** Decimal digits of a non negative integer, without leading zeros. *)
Definition digitsOf (n : Z) : list Z := digitsAux (Z.to_nat (Z.log2 n)) n [].

(** [String(n)] for an integer. *)
Definition showZ (n : Z) : string :=
  if n <? 0 then String "-" (stringOfDigits (digitsOf (- n)))
  else stringOfDigits (digitsOf n).

Fixpoint zeros (n : nat) : string :=
  match n with
  | O => EmptyString
  | Datatypes.S n' => String "0" (zeros n')
  end.

(** [s.padStart(width, "0")]. *)
Definition padStart0 (width : nat) (s : string) : string :=
  zeros (width - String.length s) +:+ s.

(** The text of a key: the year as [toISOString] and the validated inputs
    write it, month and day padded to two digits. *)
Definition isoText (k : iso) : string :=
  padStart0 4 (showZ (yr k)) +:+ "-" +:+ padStart0 2 (showZ (mo k)) +:+ "-" +:+
  padStart0 2 (showZ (dy k)).

(** The text of a month key. *)
Definition ymText (m : ym) : string :=
  padStart0 4 (showZ m.1) +:+ "-" +:+ padStart0 2 (showZ m.2).

(** [/^\d{4}-\d{2}-\d{2}$/.test(s)]. *)
Definition testISOShape (s : string) : bool :=
  (String.length s =? 10)%nat &&
  allDigits (String.substring 0 4 s) && String.eqb (String.substring 4 1 s) "-" &&
  allDigits (String.substring 5 2 s) && String.eqb (String.substring 7 1 s) "-" &&
  allDigits (String.substring 8 2 s).

(** [/^\d{2}-\d{2}-\d{4}$/.test(s)]. *)
Definition testDMYShape (s : string) : bool :=
  (String.length s =? 10)%nat &&
  allDigits (String.substring 0 2 s) && String.eqb (String.substring 2 1 s) "-" &&
  allDigits (String.substring 3 2 s) && String.eqb (String.substring 5 1 s) "-" &&
  allDigits (String.substring 6 4 s).

(** The em dash the source shows for a text that is no key. *)
Definition noDateText : string := "—".

(** [formatDDMMYYYY] on the key text: the three fields of a text of the
    shape [YYYY-MM-DD], in the order day, month, year. *)
Definition formatDDMMYYYY_text (s : string) : string :=
  if testISOShape s
  then String.substring 8 2 s +:+ "-" +:+ String.substring 5 2 s +:+ "-" +:+ String.substring 0 4 s
  else noDateText.

Definition formatDDMMYYYY (k : iso) : string := formatDDMMYYYY_text (isoText k).

(** ** KPIs *)

Record DailyPoint := { date : iso; value : Q }.

(** [new Map(sortedDaily.map((d) => [d.date, d.value]))]: later entries win. *)
Definition dailyLookupOf (sortedDaily : list DailyPoint) : gmap iso Q :=
  foldl (fun m d => <[date d := value d]> m) ∅ sortedDaily.

Definition isoAddYears (k : iso) (deltaYears : Z) : iso :=
  let y := yr k in
  let m := mo k in
  let d := dy k in
  let tryDt := DateUTC (y + deltaYears) (m - 1) d in
  if (getUTCFullYear tryDt =? y + deltaYears) &&
     (getUTCMonth tryDt =? m - 1) && (getUTCDate tryDt =? d)
  then toISODate tryDt
  else toISODate (DateUTC (y + deltaYears) m 0).

Definition sumCountStep (dailyLookup : gmap iso Q) (cur : iso) (s : Q * Z)
    : option (Q * Z) :=
  match dailyLookup !! cur with
  | Some v => Some ((s.1 + v)%Q, s.2 + 1)
  | None => Some s
  end.

Definition sumAndCountInclusive (fuel : nat) (dailyLookup : gmap iso Q)
    (startIso endIso : iso) : option (option Q * Z) :=
  if iso_gtb startIso endIso then Some (None, 0)
  else match forDays fuel (sumCountStep dailyLookup) startIso endIso (0%Q, 0) with
       | Some (sum, count) => Some (if count =? 0 then None else Some sum, count)
       | None => None
       end.

(** [sum != null && count ? sum / count : null]. *)
Definition avgOf (sc : option Q * Z) : option Q :=
  match sc.1 with
  | Some sum => if sc.2 =? 0 then None else Some (sum / inject_Z sc.2)%Q
  | None => None
  end.

(** [a != null && b != null ? growthPct(a, b) : null]. *)
Definition growthOfBoth (a b : option Q) : option Q :=
  match a, b with
  | Some x, Some y => growthPct x (Some y)
  | _, _ => None
  end.

Record KPIs := {
  latest : option DailyPoint;
  latestYoY : option Q;
  avg7 : option Q;
  avg7YoY : option Q;
  avg30 : option Q;
  avg30YoY : option Q;
  ytdTotal : option Q;
  ytdYoY : option Q;
  mtdAvg : option Q;
  mtdYoY : option Q
}.

Definition noKPIs : KPIs :=
  {| latest := None; latestYoY := None; avg7 := None; avg7YoY := None;
     avg30 := None; avg30YoY := None; ytdTotal := None; ytdYoY := None;
     mtdAvg := None; mtdYoY := None |}.

Definition fyStartYearOf (latestDate : iso) : Z :=
  if 4 <=? mo latestDate then yr latestDate else yr latestDate - 1.

Definition computeKPIs (fuel : nat) (sortedDaily : list DailyPoint) : option KPIs :=
  match last sortedDaily with
  | None => Some noKPIs
  | Some latest =>
      let dailyLookup := dailyLookupOf sortedDaily in
      let sumAndCount := sumAndCountInclusive fuel dailyLookup in
      let prevYearDate := isoAddYears (date latest) (-1) in
      let prevYearVal := dailyLookup !! prevYearDate in
      let latestYoY :=
        match prevYearVal with
        | Some v => growthPct (value latest) (Some v)
        | None => None
        end in
      let start7 := isoMinusDays (date latest) (7 - 1) in
      last7 ← sumAndCount start7 (date latest);
      py7 ← sumAndCount (isoAddYears start7 (-1)) (isoAddYears (date latest) (-1));
      let avg7 := avgOf last7 in
      let avg7YoY := growthOfBoth avg7 (avgOf py7) in
      let start30 := isoMinusDays (date latest) (30 - 1) in
      last30 ← sumAndCount start30 (date latest);
      py30 ← sumAndCount (isoAddYears start30 (-1)) (isoAddYears (date latest) (-1));
      let avg30 := avgOf last30 in
      let avg30YoY := growthOfBoth avg30 (avgOf py30) in
      let fyStartYear := fyStartYearOf (date latest) in
      let ytdStart := Iso fyStartYear 4 1 in
      ytd ← sumAndCount ytdStart (date latest);
      let ytdTotal := ytd.1 in
      let ytdPYStart := Iso (fyStartYear - 1) 4 1 in
      let ytdPYEnd := isoAddYears (date latest) (-1) in
      ytdPY ← sumAndCount ytdPYStart ytdPYEnd;
      let ytdYoY := growthOfBoth ytdTotal ytdPY.1 in
      let thisMonthStart := Iso (yr (date latest)) (mo (date latest)) 1 in
      mtd ← sumAndCount thisMonthStart (date latest);
      let mtdAvg := avgOf mtd in
      mtdPY ← sumAndCount (isoAddYears thisMonthStart (-1))
                          (isoAddYears (date latest) (-1));
      let mtdYoY := growthOfBoth mtdAvg (avgOf mtdPY) in
      Some {| latest := Some latest; latestYoY := latestYoY;
              avg7 := avg7; avg7YoY := avg7YoY;
              avg30 := avg30; avg30YoY := avg30YoY;
              ytdTotal := ytdTotal; ytdYoY := ytdYoY;
              mtdAvg := mtdAvg; mtdYoY := mtdYoY |}
  end.

(** ** Monthly table *)

Record MonthRec := { total : Q; maxDay : Z; byDay : gmap Z Q }.

Definition emptyMonthRec : MonthRec := {| total := 0; maxDay := 0; byDay := ∅ |}.

Definition monthDayStep (map : gmap ym MonthRec) (d : DailyPoint) : gmap ym MonthRec :=
  let m := monthKey (date d) in
  let day := dy (date d) in
  let rec := default emptyMonthRec (map !! m) in
  <[m := {| total := (total rec + value d)%Q;
            maxDay := Z.max (maxDay rec) day;
            byDay := <[day := (default 0%Q (byDay rec !! day) + value d)%Q]> (byDay rec) |}]> map.

Definition buildMonthDayMap (sortedDaily : list DailyPoint) : gmap ym MonthRec :=
  foldl monthDayStep ∅ sortedDaily.

(** One round of [for (let day = 1; day <= dayLimit; day++)]. *)
Definition sumDayStep (byDay : gmap Z Q) (acc : Q * bool) (day : Z) : Q * bool :=
  match byDay !! day with
  | Some v => ((acc.1 + v)%Q, true)
  | None => acc
  end.

Definition sumMonthUpToDay (monthRec : option MonthRec) (dayLimit : Z) : option Q :=
  match monthRec with
  | None => None
  | Some rec =>
      let r := foldl (sumDayStep (byDay rec)) (0%Q, false) (seqZ 1 dayLimit) in
      if r.2 then Some r.1 else None
  end.

(** [x != null ? growthPct(c, x) : null]. *)
Definition growthOver (c : Q) (x : option Q) : option Q :=
  match x with
  | Some p => growthPct c (Some p)
  | None => None
  end.

Module MonthlyRow.
Record t := {
  month : ym;
  total_gwh : Q;
  max_day : Z;
  yoy_pct : option Q;
  mom_pct : option Q
}.
End MonthlyRow.

Definition ym_le (a b : ym) : Prop := Is_true (ym_leb a b).

(** [`${getYear(m) - 1}-${String(getMonth(m)).padStart(2, "0")}`]. *)
Definition prevYearMonthOf (m : ym) : ym := (getYear m - 1, getMonth m).

Definition sortedMonths {V : Type} (map : gmap ym V) : list ym :=
  merge_sort ym_le (map_to_list map).*1.

Definition toMonthly (sortedDaily : list DailyPoint) : list MonthlyRow.t :=
  let monthMap := buildMonthDayMap sortedDaily in
  let months := sortedMonths monthMap in
  (fun m =>
     let rec := default emptyMonthRec (monthMap !! m) in
     let prevComparableMoM := sumMonthUpToDay (monthMap !! addMonths m (-1)) (maxDay rec) in
     let prevComparableYoY := sumMonthUpToDay (monthMap !! prevYearMonthOf m) (maxDay rec) in
     {| MonthlyRow.month := m;
        MonthlyRow.total_gwh := total rec;
        MonthlyRow.max_day := maxDay rec;
        MonthlyRow.yoy_pct := growthOver (total rec) prevComparableYoY;
        MonthlyRow.mom_pct := growthOver (total rec) prevComparableMoM |}) <$> months.

(** ** Chart series *)

Inductive AggFreq := daily | weekly | monthly | rolling30.

Record DailyChartPoint := {
  label : string;
  units : Q;
  prev_year_units : option Q;
  yoy_pct : option Q;
  mom_pct : option Q
}.

Definition clamp (n lo hi : Z) : Z := Z.min hi (Z.max lo n).

Definition sumRangeStep (dailyLookup : gmap iso Q) (cur : iso) (acc : Q * bool)
    : option (Q * bool) :=
  match dailyLookup !! cur with
  | Some v => Some ((acc.1 + v)%Q, true)
  | None => Some acc
  end.

Definition sumRangeInclusive (fuel : nat) (dailyLookup : gmap iso Q)
    (startIso endIso : iso) : option (option Q) :=
  if iso_gtb startIso endIso then Some None
  else match forDays fuel (sumRangeStep dailyLookup) startIso endIso (0%Q, false) with
       | Some (s, hasAny) => Some (if hasAny then Some s else None)
       | None => None
       end.

(** [`${Number(iso.slice(0, 4)) - 1}${iso.slice(4)}`]. *)
Definition sameDayPrevYear (k : iso) : iso := Iso (yr k - 1) (mo k) (dy k).

Definition sameDayPrevMonth (k : iso) : option iso :=
  let dt := DateUTC (yr k) (mo k - 2) (dy k) in
  let iso2 := toISODate dt in
  if dy iso2 =? dy k then Some iso2 else None.

Definition dailyPointOf (dailyLookup : gmap iso Q) (d : DailyPoint) : DailyChartPoint :=
  let py := dailyLookup !! sameDayPrevYear (date d) in
  let pm := match sameDayPrevMonth (date d) with
            | Some pmDate => dailyLookup !! pmDate
            | None => None
            end in
  {| label := formatDDMMYYYY (date d);
     units := value d;
     prev_year_units := py;
     yoy_pct := growthOver (value d) py;
     mom_pct := growthOver (value d) pm |}.

Definition rollingStep (fuel : nat) (dailyLookup : gmap iso Q) (cur : iso)
    (points : list DailyChartPoint) : option (list DailyChartPoint) :=
  let start := isoMinusDays cur 29 in
  currSum ← sumRangeInclusive fuel dailyLookup start cur;
  let curPrevYear := isoMinusDays cur 365 in
  let startPrevYear := isoMinusDays curPrevYear 29 in
  prevSum ← sumRangeInclusive fuel dailyLookup startPrevYear curPrevYear;
  Some (points ++ [ {| label := formatDDMMYYYY cur;
                       units := default 0%Q currSum;
                       prev_year_units := prevSum;
                       yoy_pct := growthOfBoth currSum prevSum;
                       mom_pct := None |} ]).

(** [set.add(x)] on a set kept in insertion order. *)
Definition setAdd (x : Z) (s : list Z) : list Z :=
  if decide (x ∈ s) then s else s ++ [x].

Definition weekStep (acc : gmap iso Q * gmap iso (list Z)) (d : DailyPoint)
    : gmap iso Q * gmap iso (list Z) :=
  let wk := startOfWeekISO (date d) in
  let off := DateOfISO (date d) - DateOfISO wk in
  (<[wk := (default 0%Q (acc.1 !! wk) + value d)%Q]> acc.1,
   <[wk := setAdd off (default [] (acc.2 !! wk))]> acc.2).

(** One round of the [for (const x of set)] loops that add up the values
    found under the keys [keyOf x]. *)
Definition sumKeyStep {X : Type} (dailyLookup : gmap iso Q) (keyOf : X -> iso)
    (acc : Q * bool) (x : X) : Q * bool :=
  match dailyLookup !! keyOf x with
  | Some v => ((acc.1 + v)%Q, true)
  | None => acc
  end.

Definition sumWeekByOffsets (dailyLookup : gmap iso Q) (weekStartIso : iso)
    (offsetsSet : list Z) : option Q :=
  let r := foldl (sumKeyStep dailyLookup (isoPlusDays weekStartIso)) (0%Q, false) offsetsSet in
  if r.2 then Some r.1 else None.

Definition iso_le (a b : iso) : Prop := Is_true (iso_leb a b).

Definition sortedKeys {V : Type} (map : gmap iso V) : list iso :=
  merge_sort iso_le (map_to_list map).*1.

Definition weekPointOf (dailyLookup : gmap iso Q)
    (weekMap : gmap iso Q) (weekOffsets : gmap iso (list Z)) (wk : iso)
    : DailyChartPoint :=
  let curr := default 0%Q (weekMap !! wk) in
  let offs := default [] (weekOffsets !! wk) in
  let prevYoY := sumWeekByOffsets dailyLookup (isoMinusDays wk 364) offs in
  let prevWoW := sumWeekByOffsets dailyLookup (isoMinusDays wk 7) offs in
  {| label := "Wk of " +:+ formatDDMMYYYY wk;
     units := curr;
     prev_year_units := prevYoY;
     yoy_pct := growthOver curr prevYoY;
     mom_pct := growthOver curr prevWoW |}.

Definition monthStep (acc : gmap ym Q * gmap ym (list Z)) (d : DailyPoint)
    : gmap ym Q * gmap ym (list Z) :=
  let mk := monthKey (date d) in
  let day := dy (date d) in
  (<[mk := (default 0%Q (acc.1 !! mk) + value d)%Q]> acc.1,
   <[mk := setAdd day (default [] (acc.2 !! mk))]> acc.2).

(** The key [`${y}-${m}-${String(day).padStart(2, "0")}`]. *)
Definition sumMonthByDaySet (dailyLookup : gmap iso Q) (m : ym) (daySet : list Z)
    : option Q :=
  let r := foldl (sumKeyStep dailyLookup (fun day => Iso m.1 m.2 day)) (0%Q, false) daySet in
  if r.2 then Some r.1 else None.

Definition monthPointOf (dailyLookup : gmap iso Q)
    (mMap : gmap ym Q) (monthDays : gmap ym (list Z)) (m : ym) : DailyChartPoint :=
  let curr := default 0%Q (mMap !! m) in
  let days := default [] (monthDays !! m) in
  let prevYoY := sumMonthByDaySet dailyLookup (prevYearMonthOf m) days in
  let prevMoM := sumMonthByDaySet dailyLookup (addMonths m (-1)) days in
  {| label := ymText m;
     units := curr;
     prev_year_units := prevYoY;
     yoy_pct := growthOver curr prevYoY;
     mom_pct := growthOver curr prevMoM |}.

(** The range [f], [t] of the chart.  The empty text of a range input is
    [None]. *)
Definition chartRange (lastIso : iso) (fromIso toIso : option iso) (rangeDays : Z)
    : iso * iso :=
  let effectiveTo := default lastIso toIso in
  let effectiveFrom :=
    default (isoMinusDays lastIso (clamp rangeDays 7 3650)) fromIso in
  let f := if iso_leb effectiveFrom effectiveTo then effectiveFrom else effectiveTo in
  let t := if iso_leb effectiveFrom effectiveTo then effectiveTo else effectiveFrom in
  (f, t).

(** [sortedDaily.filter((d) => d.date >= f && d.date <= t)]. *)
Definition inRange (f t : iso) (sortedDaily : list DailyPoint) : list DailyPoint :=
  List.filter (fun d => iso_leb f (date d) && iso_leb (date d) t) sortedDaily.

Definition dailyForChart (fuel : nat) (sortedDaily : list DailyPoint)
    (fromIso toIso : option iso) (rangeDays : Z) (aggFreq : AggFreq)
    : option (list DailyChartPoint) :=
  match last sortedDaily with
  | None => Some []
  | Some lastPoint =>
      let lastIso := date lastPoint in
      let f := (chartRange lastIso fromIso toIso rangeDays).1 in
      let t := (chartRange lastIso fromIso toIso rangeDays).2 in
      let filtered := inRange f t sortedDaily in
      let dailyLookup := dailyLookupOf sortedDaily in
      match aggFreq with
      | daily => Some (dailyPointOf dailyLookup <$> filtered)
      | rolling30 => forDays fuel (rollingStep fuel dailyLookup) f t []
      | weekly =>
          let acc := foldl weekStep (∅, ∅) filtered in
          Some (weekPointOf dailyLookup acc.1 acc.2 <$> sortedKeys acc.1)
      | monthly =>
          let acc := foldl monthStep (∅, ∅) filtered in
          Some (monthPointOf dailyLookup acc.1 acc.2 <$> sortedMonths acc.1)
      end
  end.

(** ** Numbers as text

    [Number(text)] and the text of a number in a template literal follow
    ECMAScript's [StringToNumber] and [Number::toString] on exact decimal
    fractions. *)

Inductive jsnum := JNaN | JInf (neg : bool) | JNum (q : Q).

Fixpoint spanDigits (s : string) : list Z * string :=
  match s with
  | String c s' =>
      if isDigit c
      then let '(ds, r) := spanDigits s' in (digitVal c :: ds, r)
      else ([], s)
  | EmptyString => ([], EmptyString)
  end.

(** [m * 10 ^ e]. *)
Definition scale10 (m e : Z) : Q := (inject_Z m * Qpower 10 e)%Q.

Definition radixDigit (base : Z) (c : ascii) : option Z :=
  let n := Z.of_nat (nat_of_ascii c) in
  let v := if (48 <=? n) && (n <=? 57) then n - 48
           else if (97 <=? n) && (n <=? 102) then n - 87
           else if (65 <=? n) && (n <=? 70) then n - 55
           else base in
  if v <? base then Some v else None.

Fixpoint radixVal (base : Z) (s : string) (acc : Z) : option Z :=
  match s with
  | String c s' =>
      match radixDigit base c with
      | Some v => radixVal base s' (acc * base + v)
      | None => None
      end
  | EmptyString => Some acc
  end.

(** [0x], [0o] and [0b] literals; they take no sign. *)
Definition nonDecimalLiteral (s : string) : option Z :=
  match s with
  | String z (String p (String c r)) =>
      let body := String c r in
      if negb (Ascii.eqb z "0") then None
      else if Ascii.eqb p "x" || Ascii.eqb p "X" then radixVal 16 body 0
      else if Ascii.eqb p "o" || Ascii.eqb p "O" then radixVal 8 body 0
      else if Ascii.eqb p "b" || Ascii.eqb p "B" then radixVal 2 body 0
      else None
  | _ => None
  end.

Definition exponentPart (mant : Z) (fracLen : Z) (r : string) : jsnum :=
  match r with
  | EmptyString => JNum (Qred (scale10 mant (- fracLen)))
  | String c r3 =>
      if Ascii.eqb c "e" || Ascii.eqb c "E" then
        let '(neg, r4) :=
          match r3 with
          | String "+" r' => (false, r')
          | String "-" r' => (true, r')
          | _ => (false, r3)
          end in
        let '(ed, r5) := spanDigits r4 in
        match ed, r5 with
        | _ :: _, EmptyString =>
            let e := if neg then - valOf ed else valOf ed in
            JNum (Qred (scale10 mant (e - fracLen)))
        | _, _ => JNaN
        end
      else JNaN
  end.

Definition unsignedDecimal (s : string) : jsnum :=
  if String.eqb s "Infinity" then JInf false
  else
    let '(ip, r1) := spanDigits s in
    let '(fp, r2) :=
      match r1 with
      | String "." r => spanDigits r
      | _ => ([], r1)
      end in
    match ip ++ fp with
    | [] => JNaN
    | ds => exponentPart (valOf ds) (Z.of_nat (length fp)) r2
    end.

Definition jsneg (v : jsnum) : jsnum :=
  match v with
  | JNaN => JNaN
  | JInf neg => JInf (negb neg)
  | JNum q => JNum (Qred (- q))
  end.

(** [Number(s)] for a string [s]. *)
Definition Number (s : string) : jsnum :=
  let t := trim s in
  match t with
  | EmptyString => JNum 0
  | String c r =>
      match nonDecimalLiteral t with
      | Some n => JNum (inject_Z n)
      | None =>
          if Ascii.eqb c "+" then unsignedDecimal r
          else if Ascii.eqb c "-" then jsneg (unsignedDecimal r)
          else unsignedDecimal t
      end
  end.

(** Least [k] with [n * 10 ^ k] a multiple of [d], and the quotient. *)
Fixpoint decimalScale (fuel : nat) (n d k : Z) : option (Z * Z) :=
  if n mod d =? 0 then Some (n / d, k)
  else match fuel with
       | O => None
       | Datatypes.S fuel' => decimalScale fuel' (n * 10) d (k + 1)
       end.

Fixpoint stripZeros (fuel : nat) (t z : Z) : Z * Z :=
  match fuel with
  | O => (t, z)
  | Datatypes.S fuel' =>
      if t mod 10 =? 0 then stripZeros fuel' (t / 10) (z + 1) else (t, z)
  end.

(** The text of [s * 10 ^ (n - k)] for the [k] digits [ds] of [s]. *)
Definition formatDecimal (ds : list Z) (n : Z) : string :=
  let k := Z.of_nat (length ds) in
  if (k <=? n) && (n <=? 21) then
    stringOfDigits ds +:+ zeros (Z.to_nat (n - k))
  else if (0 <? n) && (n <=? 21) then
    stringOfDigits (take (Z.to_nat n) ds) +:+ "." +:+ stringOfDigits (drop (Z.to_nat n) ds)
  else if (-6 <? n) && (n <=? 0) then
    "0." +:+ zeros (Z.to_nat (- n)) +:+ stringOfDigits ds
  else
    let e := n - 1 in
    let tail := "e" +:+ (if e <? 0 then "-" else "+") +:+ showZ (Z.abs e) in
    match ds with
    | [d] => stringOfDigits [d] +:+ tail
    | d :: rest => stringOfDigits [d] +:+ "." +:+ stringOfDigits rest +:+ tail
    | [] => tail
    end.

(** The text of the positive number [n / d].  A finite double is a decimal
    fraction; the last branch is not reached for numbers read from text. *)
Definition positiveToString (n d : Z) : string :=
  match decimalScale (Datatypes.S (Z.to_nat (Z.log2 d))) n d 0 with
  | Some (t, k) =>
      let '(s, z) := stripZeros (Z.to_nat (Z.log2 t)) t 0 in
      let ds := digitsOf s in
      formatDecimal ds (Z.of_nat (length ds) + z - k)
  | None => "NaN"
  end.

(** [`${x}`] for a finite number [x]. *)
Definition NumberToString (q : Q) : string :=
  let r := Qred q in
  let n := Qnum r in
  let d := Z.pos (Qden r) in
  if n =? 0 then "0"
  else if n <? 0 then "-" +:+ positiveToString (- n) d
  else positiveToString n d.

(** ** CSV *)

(** A text of the shape [YYYY-MM-DD] is accepted when the [Date] parser
    takes it: month 01 to 12, day 01 to 31. *)
Definition parseISOKey (s : string) : option iso :=
  if testISOShape s then
    let y := numberOfDigits (String.substring 0 4 s) in
    let m := numberOfDigits (String.substring 5 2 s) in
    let d := numberOfDigits (String.substring 8 2 s) in
    if (1 <=? m) && (m <=? 12) && (1 <=? d) && (d <=? 31) then Some (Iso y m d) else None
  else None.

Definition parseInputDate (s : string) : option iso :=
  let t := trim s in
  if testDMYShape t then
    let dd := numberOfDigits (String.substring 0 2 t) in
    let mm := numberOfDigits (String.substring 3 2 t) in
    let yyyy := numberOfDigits (String.substring 6 4 t) in
    let d := DateUTC yyyy (mm - 1) dd in
    if negb (getUTCFullYear d =? yyyy) || negb (getUTCMonth d =? mm - 1) ||
       negb (getUTCDate d =? dd)
    then None
    else Some (Iso yyyy mm dd)
  else if testISOShape t then parseISOKey t
  else None.

Record CsvResult := { parsed : list DailyPoint; errors : list string }.

Definition nonEmpty (s : string) : bool := negb (String.eqb s "").

(** [line.split(",").map((c) => c.trim())]. *)
Definition cellsOf (line : string) : list string := trim <$> splitChar "," line.

(** The rows of the lines: the trimmed non blank lines with at least two
    cells. *)
Definition rowsOfLines (lines : list string) : list (list string) :=
  List.filter (fun cols => (2 <=? length cols)%nat)
              (cellsOf <$> List.filter nonEmpty (trim <$> lines)).

Definition csvRows (text : string) : list (list string) :=
  rowsOfLines (splitLines text).

Definition cell (row : list string) (i : nat) : string := default "" (row !! i).

Definition isHeader (valueColumnKey : string) (row : list string) : bool :=
  let h0 := toLowerCase (cell row 0) in
  let h1 := toLowerCase (cell row 1) in
  let key := toLowerCase valueColumnKey in
  includes "date" h0 && (includes key h1 || includes "gwh" h1).

Definition dropHeader (valueColumnKey : string) (rows : list (list string))
    : list (list string) :=
  match rows with
  | r :: rest => if isHeader valueColumnKey r then rest else rows
  | [] => []
  end.

Definition dateError (i : Z) (dRaw : string) : string :=
  "Row " +:+ showZ (i + 1) +:+ ": invalid date '" +:+ dRaw +:+
  "' (expected DD-MM-YYYY)".

Definition valueError (i : Z) (vRaw : string) : string :=
  "Row " +:+ showZ (i + 1) +:+ ": invalid value '" +:+ vRaw +:+
  "' (expected non-negative number)".

(** One round of [for (let i = 0; i < rows.length; i++)]. *)
Definition csvRowStep (acc : Z * CsvResult) (row : list string) : Z * CsvResult :=
  let i := acc.1 in
  let dRaw := cell row 0 in
  let vRaw := cell row 1 in
  let v := Number (removeCommas vRaw) in
  match parseInputDate dRaw with
  | None =>
      (i + 1, {| parsed := parsed acc.2;
                 errors := errors acc.2 ++ [dateError i dRaw] |})
  | Some dt =>
      match v with
      | JNum q =>
          if Qle_bool 0 q
          then (i + 1, {| parsed := parsed acc.2 ++ [ {| date := dt; value := q |} ];
                          errors := errors acc.2 |})
          else (i + 1, {| parsed := parsed acc.2;
                          errors := errors acc.2 ++ [valueError i vRaw] |})
      | _ =>
          (i + 1, {| parsed := parsed acc.2;
                     errors := errors acc.2 ++ [valueError i vRaw] |})
      end
  end.

Definition csvParseRows (rows : list (list string)) : CsvResult :=
  (foldl csvRowStep (0, {| parsed := []; errors := [] |}) rows).2.

Definition csvParse (text valueColumnKey : string) : CsvResult :=
  csvParseRows (dropHeader valueColumnKey (csvRows text)).

(** ** Store *)

Definition mergeRecords (existingMap : gmap iso Q) (incoming : list DailyPoint)
    : gmap iso Q :=
  foldl (fun next r => <[date r := value r]> next) existingMap incoming.

Definition date_le (a b : DailyPoint) : Prop := iso_le (date a) (date b).

(** [Array.from(dataMap.entries()).map(...).sort(...)]. *)
Definition sortedDailyOf (dataMap : gmap iso Q) : list DailyPoint :=
  merge_sort date_le ((fun e => {| date := e.1; value := e.2 |}) <$> map_to_list dataMap).

(** The text [exportCSV] hands to the download. *)
Definition exportCSV (sortedDaily : list DailyPoint) (valueColumnKey : string) : string :=
  let header := "date," +:+ valueColumnKey in
  let lines :=
    (fun d => formatDDMMYYYY (date d) +:+ "," +:+ NumberToString (value d)) <$> sortedDaily in
  joinWith (String LF "") (header :: lines).

(** ** Sample data and single entries *)

(** [sampleCSV]: a header and three days of December 2025. *)
Definition sampleCSV (valueColumnKey : string) : string :=
  joinWith (String LF "")
    ["date," +:+ valueColumnKey; "18-12-2025,4140"; "19-12-2025,4215"; "20-12-2025,4198"].

(** The store [loadSample] sets. *)
Definition loadSample (valueColumnKey : string) (prev : gmap iso Q) : gmap iso Q :=
  mergeRecords prev (parsed (csvParse (sampleCSV valueColumnKey) valueColumnKey)).

(** The store and the messages [upsertOne] sets for the date and value
    typed in; the confirmation it shows besides is left out. *)
Definition upsertOne (date valueText seriesLabel : string) (dataMap : gmap iso Q)
    : gmap iso Q * list string :=
  match parseInputDate date with
  | None => (dataMap, ["Please enter a valid date (DD-MM-YYYY)."])
  | Some k =>
      let invalid :=
        "Please enter a valid non-negative number for " +:+ toLowerCase seriesLabel +:+ "." in
      match Number (removeCommas valueText) with
      | JNum v => if Qle_bool 0 v then (<[k := v]> dataMap, []) else (dataMap, [invalid])
      | _ => (dataMap, [invalid])
      end
  end.

Definition removeDate (isoDate : iso) (dataMap : gmap iso Q) : gmap iso Q :=
  delete isoDate dataMap.

(** ** The second source file

    [src/unnamed/part_000] is a copy of the dashboard for the generation
    series alone.  Its date helpers, [clamp], [growthPct], the range of the
    chart and [sumRangeInclusive] have the text of the functions above, with
    the field [generation_gwh] for [value].  Its chart series round every
    number with [Number(x.toFixed(2))], and they call [toFixed] on the
    result of [growthPct] under a non-null assertion, which the compiler
    erases: when [growthPct] returns null the call throws a [TypeError]. *)

Inductive exn := TypeError.

(** The result of code that may throw. *)
Inductive completion (A : Type) : Type :=
| Normal (a : A)
| Throw (e : exn).

Arguments Normal {A} a.
Arguments Throw {A} e.

(** The loop [let cur = a; while (cur <= b) { body; cur = isoPlusDays(cur, 1) }]
    with a body that may throw: the exception leaves the loop. *)
Fixpoint forDaysThrowing {S : Type} (fuel : nat)
    (body : iso -> S -> option (completion S)) (cur endIso : iso) (s : S)
    : option (completion S) :=
  match fuel with
  | O => None
  | Datatypes.S fuel' =>
      if iso_leb cur endIso
      then match body cur s with
           | Some (Normal s') => forDaysThrowing fuel' body (isoPlusDays cur 1) endIso s'
           | Some (Throw e) => Some (Throw e)
           | None => None
           end
      else Some (Normal s)
  end.


Module Part000.

(** [Number(x.toFixed(2))] on the exact value of [x]: the nearest multiple
    of 0.01, the one of greater magnitude when two are as near; from
    [10 ^ 21] on [toFixed] writes the number as [String] does. *)
Definition toFixed2 (x : Q) : Q :=
  let a := Qabs x in
  if Qle_bool (inject_Z (10 ^ 21)) a then Qred x
  else
    let r := Qred (Qfloor (a * 100 + (1 # 2)) # 100) in
    if Qle_bool 0 x then r else Qred (- r).

(** [Number(growthPct(curr, prev)!.toFixed(2))]. *)
Definition fixedGrowth (curr prev : Q) : completion Q :=
  match growthPct curr (Some prev) with
  | Some g => Normal (toFixed2 g)
  | None => Throw TypeError
  end.

(** One round of the loop of the rolling 30 day branch. *)
Definition rolling30Step (fuel : nat) (dailyLookup : gmap iso Q) (cur : iso)
    (points : list DailyChartPoint) : option (completion (list DailyChartPoint)) :=
  let start := isoMinusDays cur 29 in
  currSum ← sumRangeInclusive fuel dailyLookup start cur;
  let curPrevYear := isoMinusDays cur 365 in
  let startPrevYear := isoMinusDays curPrevYear 29 in
  prevSum ← sumRangeInclusive fuel dailyLookup startPrevYear curPrevYear;
  let units := match currSum with Some c => toFixed2 c | None => 0%Q end in
  let prev_year_units :=
    match prevSum with Some p => Some (toFixed2 p) | None => None end in
  match currSum, prevSum with
  | Some c, Some p =>
      match fixedGrowth c p with
      | Normal g =>
          Some (Normal (points ++ [ {| label := formatDDMMYYYY cur;
                                       units := units;
                                       prev_year_units := prev_year_units;
                                       yoy_pct := Some g;
                                       mom_pct := None |} ]))
      | Throw e => Some (Throw e)
      end
  | _, _ =>
      Some (Normal (points ++ [ {| label := formatDDMMYYYY cur;
                                   units := units;
                                   prev_year_units := prev_year_units;
                                   yoy_pct := None;
                                   mom_pct := None |} ]))
  end.

(** [dailyForChart] with [aggFreq === "rolling30"]. *)
Definition rolling30Series (fuel : nat) (sortedDaily : list DailyPoint)
    (fromIso toIso : option iso) (rangeDays : Z)
    : option (completion (list DailyChartPoint)) :=
  match last sortedDaily with
  | None => Some (Normal [])
  | Some lastPoint =>
      let lastIso := date lastPoint in
      let f := (chartRange lastIso fromIso toIso rangeDays).1 in
      let t := (chartRange lastIso fromIso toIso rangeDays).2 in
      let dailyLookup := dailyLookupOf sortedDaily in
      forDaysThrowing fuel (rolling30Step fuel dailyLookup) f t []
  end.

(** The point of the daily branch for the record [d]. *)
Definition dailyPointOf (dailyLookup : gmap iso Q) (d : DailyPoint)
    : completion DailyChartPoint :=
  let py := dailyLookup !! sameDayPrevYear (date d) in
  let pm := match sameDayPrevMonth (date d) with
            | Some pmDate => dailyLookup !! pmDate
            | None => None
            end in
  let units := toFixed2 (value d) in
  let prev_year_units :=
    match py with Some v => Some (toFixed2 v) | None => None end in
  match match py with
        | Some v =>
            match fixedGrowth (value d) v with
            | Normal g => Normal (Some g)
            | Throw e => Throw e
            end
        | None => Normal None
        end with
  | Throw e => Throw e
  | Normal yoy_pct =>
      match match pm with
            | Some v =>
                match fixedGrowth (value d) v with
                | Normal g => Normal (Some g)
                | Throw e => Throw e
                end
            | None => Normal None
            end with
      | Throw e => Throw e
      | Normal mom_pct =>
          Normal {| label := formatDDMMYYYY (date d);
                    units := units;
                    prev_year_units := prev_year_units;
                    yoy_pct := yoy_pct;
                    mom_pct := mom_pct |}
      end
  end.


(** [csvParse] of this file: the header is known by the words gen, gwh or
    unit in its second cell, and a refused value is called a generation. *)
Definition isHeader (row : list string) : bool :=
  let h0 := toLowerCase (cell row 0) in
  let h1 := toLowerCase (cell row 1) in
  includes "date" h0 && (includes "gen" h1 || includes "gwh" h1 || includes "unit" h1).

Definition dropHeader (rows : list (list string)) : list (list string) :=
  match rows with
  | r :: rest => if isHeader r then rest else rows
  | [] => []
  end.

Definition valueError (i : Z) (gRaw : string) : string :=
  "Row " +:+ showZ (i + 1) +:+ ": invalid generation '" +:+ gRaw +:+
  "' (expected non-negative number)".

Definition csvRowStep (acc : Z * CsvResult) (row : list string) : Z * CsvResult :=
  let i := acc.1 in
  let dRaw := cell row 0 in
  let gRaw := cell row 1 in
  let g := Number (removeCommas gRaw) in
  match parseInputDate dRaw with
  | None =>
      (i + 1, {| parsed := parsed acc.2;
                 errors := errors acc.2 ++ [dateError i dRaw] |})
  | Some dt =>
      match g with
      | JNum q =>
          if Qle_bool 0 q
          then (i + 1, {| parsed := parsed acc.2 ++ [ {| date := dt; value := q |} ];
                          errors := errors acc.2 |})
          else (i + 1, {| parsed := parsed acc.2;
                          errors := errors acc.2 ++ [valueError i gRaw] |})
      | _ =>
          (i + 1, {| parsed := parsed acc.2;
                     errors := errors acc.2 ++ [valueError i gRaw] |})
      end
  end.

Definition csvParse (text : string) : CsvResult :=
  (foldl csvRowStep (0, {| parsed := []; errors := [] |}) (dropHeader (csvRows text))).2.

End Part000.

(** ** Specification side definitions *)

(** A real calendar date. *)
Definition validYMD (y m d : Z) : Prop :=
  1 <= m <= 12 /\ 1 <= d <= daysInMonth y m.

Definition validISO (k : iso) : Prop := validYMD (yr k) (mo k) (dy k).

(** A key of the store: a real calendar date whose year has four digits.
    The margins keep the year of every key the source derives from it with
    a template literal at four digits, and the day after it within the
    short form of [toISOString]. *)
Definition keyDate (k : iso) : Prop := 1002 <= yr k <= 9998 /\ validISO k.

Definition sumQ (vs : list Q) : Q := foldl Qplus 0%Q vs.

(** The sum of the values found, null when none is found. *)
Definition sumFound (vs : list Q) : option Q :=
  match vs with
  | [] => None
  | _ => Some (sumQ vs)
  end.

(** The calendar days from [a] to [b], both included. *)
Definition daysBetween (a b : iso) : list iso :=
  toISODate <$> seqZ (DateOfISO a) (DateOfISO b - DateOfISO a + 1).

(** The stored values on the days from [a] to [b], in date order. *)
Definition rangeValues (store : gmap iso Q) (a b : iso) : list Q :=
  omap (fun k => store !! k) (daysBetween a b).

(** The date one year before [k]: the same month and day, or the last day
    of that month when the year before has no such day. *)
Definition oneYearBefore (k : iso) : iso :=
  if dy k <=? daysInMonth (yr k - 1) (mo k)
  then Iso (yr k - 1) (mo k) (dy k)
  else Iso (yr k - 1) (mo k) (daysInMonth (yr k - 1) (mo k)).

(** The mean of the values found, null when none is found. *)
Definition meanFound (vs : list Q) : option Q :=
  match vs with
  | [] => None
  | _ => Some (sumQ vs / inject_Z (Z.of_nat (length vs)))%Q
  end.

(** The date [n] days before [k]. *)
Definition daysBack (k : iso) (n : Z) : iso := toISODate (DateOfISO k - n).

(** 1 April of the fiscal year of [k]: the year of [k] from April on, the
    year before until March. *)
Definition fiscalStart (k : iso) : iso :=
  Iso (if 4 <=? mo k then yr k else yr k - 1) 4 1.

(** 1 April of the fiscal year before that of [k]. *)
Definition priorFiscalStart (k : iso) : iso :=
  Iso ((if 4 <=? mo k then yr k else yr k - 1) - 1) 4 1.

Definition monthStart (k : iso) : iso := Iso (yr k) (mo k) 1.

(** The headline numbers for a store whose last record is [p]. *)
Definition kpiSpec (store : gmap iso Q) (p : DailyPoint) : KPIs :=
  let d := date p in
  let window (n : Z) := rangeValues store (daysBack d (n - 1)) d in
  let windowPY (n : Z) :=
    rangeValues store (oneYearBefore (daysBack d (n - 1))) (oneYearBefore d) in
  let ytd := rangeValues store (fiscalStart d) d in
  let ytdPY := rangeValues store (priorFiscalStart d) (oneYearBefore d) in
  let mtd := rangeValues store (monthStart d) d in
  let mtdPY := rangeValues store (oneYearBefore (monthStart d)) (oneYearBefore d) in
  {| latest := Some p;
     latestYoY :=
       match store !! oneYearBefore d with
       | Some v => growthPct (value p) (Some v)
       | None => None
       end;
     avg7 := meanFound (window 7);
     avg7YoY := growthOfBoth (meanFound (window 7)) (meanFound (windowPY 7));
     avg30 := meanFound (window 30);
     avg30YoY := growthOfBoth (meanFound (window 30)) (meanFound (windowPY 30));
     ytdTotal := sumFound ytd;
     ytdYoY := growthOfBoth (sumFound ytd) (sumFound ytdPY);
     mtdAvg := meanFound mtd;
     mtdYoY := growthOfBoth (meanFound mtd) (meanFound mtdPY) |}.

(** The order of key texts, strict. *)
Definition lexLt (y1 m1 d1 y2 m2 d2 : Z) : Prop :=
  y1 < y2 \/ (y1 = y2 /\ (m1 < m2 \/ (m1 = m2 /\ d1 < d2))).

(** A fold whose body may fail. *)
Fixpoint foldOpt {A S : Type} (body : A -> S -> option S) (l : list A) (s : S)
    : option S :=
  match l with
  | [] => Some s
  | x :: l' =>
      match body x s with
      | Some s' => foldOpt body l' s'
      | None => None
      end
  end.

(** The point of the rolling 30 day series for the day [cur]: the sum of
    the values stored on the 30 days ending on [cur], zero when there is
    none, against the sum over the 30 days ending 365 days earlier. *)
Definition rollingPoint (store : gmap iso Q) (cur : iso) : DailyChartPoint :=
  let window := rangeValues store (daysBack cur 29) cur in
  let windowPY := rangeValues store (daysBack cur (365 + 29)) (daysBack cur 365) in
  {| label := formatDDMMYYYY cur;
     units := match window with [] => 0%Q | _ => sumQ window end;
     prev_year_units := sumFound windowPY;
     yoy_pct :=
       match window, windowPY with
       | _ :: _, _ :: _ => growthPct (sumQ window) (Some (sumQ windowPY))
       | _, _ => None
       end;
     mom_pct := None |}.

(** The calendar month before [m]. *)
Definition prevMonthOf (m : ym) : ym :=
  if m.2 =? 1 then (m.1 - 1, 12) else (m.1, m.2 - 1).

(** The point of the daily series for the record [d]: against the value
    stored under the same month and day of the year before, and against
    the value stored on the same day of the month before when that month
    has such a day. *)
Definition dailyPoint (store : gmap iso Q) (d : DailyPoint) : DailyChartPoint :=
  let k := date d in
  let pm := prevMonthOf (yr k, mo k) in
  let py := store !! Iso (yr k - 1) (mo k) (dy k) in
  let pmv := if dy k <=? daysInMonth pm.1 pm.2
             then store !! Iso pm.1 pm.2 (dy k) else None in
  {| label := formatDDMMYYYY k;
     units := value d;
     prev_year_units := py;
     yoy_pct := match py with Some v => growthPct (value d) (Some v) | None => None end;
     mom_pct := match pmv with Some v => growthPct (value d) (Some v) | None => None end |}.

(** Sample data. *)
Definition sampleDay (y m d : Z) (v : Z) : DailyPoint :=
  {| date := Iso y m d; value := inject_Z v |}.

(** Ten days of January 2024 and five days of February 2024. *)
Definition janFeb2024 : list DailyPoint :=
  ((fun d => sampleDay 2024 1 d (10 * d)) <$> seqZ 1 10) ++
  ((fun d => sampleDay 2024 2 d 7) <$> seqZ 1 5).

(** A leap day and the last day of February of the year before. *)
Definition leapDayData : list DailyPoint :=
  [sampleDay 2023 2 28 50; sampleDay 2024 2 29 100].

(** The Monday on or before [k]: the start of its week. *)
Definition weekOf (k : iso) : iso :=
  toISODate (DateOfISO k - (getUTCDay (DateOfISO k) + 6) mod 7).

(** The records of the week that starts on [wk], in the order of [l]. *)
Definition weekRecords (l : list DailyPoint) (wk : iso) : list DailyPoint :=
  List.filter (fun p => bool_decide (weekOf (date p) = wk)) l.

(** The point of the weekly series for the week that starts on [wk]: the
    total of the records of the week, against the values stored 364 days
    and 7 days before each day that has a record in the week. *)
Definition weekPoint (store : gmap iso Q) (filtered : list DailyPoint) (wk : iso)
    : DailyChartPoint :=
  let recs := weekRecords filtered wk in
  let curr := sumQ (value <$> recs) in
  let prevYoY := sumFound (omap (fun p => store !! daysBack (date p) 364) recs) in
  let prevWoW := sumFound (omap (fun p => store !! daysBack (date p) 7) recs) in
  {| label := "Wk of " +:+ formatDDMMYYYY wk;
     units := curr;
     prev_year_units := prevYoY;
     yoy_pct := match prevYoY with Some v => growthPct curr (Some v) | None => None end;
     mom_pct := match prevWoW with Some v => growthPct curr (Some v) | None => None end |}.

(** The entry of a table built from the records [l]: none when there is
    no record. *)
Definition entryOf {A B : Type} (l : list A) (v : B) : option B :=
  match l with
  | [] => None
  | _ => Some v
  end.

(** A week with records on Monday 8 and Tuesday 9 January 2024 only; the
    week 364 days earlier has records on its Monday and its Wednesday. *)
Definition monTueData : list DailyPoint :=
  [sampleDay 2023 1 9 5; sampleDay 2023 1 11 1000;
   sampleDay 2024 1 8 30; sampleDay 2024 1 9 40].

(** The records of the calendar month [m], in the order of [l]. *)
Definition monthRecords (l : list DailyPoint) (m : ym) : list DailyPoint :=
  List.filter (fun p => bool_decide (monthKey (date p) = m)) l.

(** The values stored for the date [k], in the order of [l]; a store has
    at most one. *)
Definition valuesAt (l : list DailyPoint) (k : iso) : list Q :=
  value <$> List.filter (fun p => bool_decide (date p = k)) l.

(** The sum of the values stored on the days 1 to [dayLimit] of the month
    [m], null when none of these days holds a value. *)
Definition comparableSum (l : list DailyPoint) (m : ym) (dayLimit : Z) : option Q :=
  sumFound (omap (fun day => sumFound (valuesAt l (Iso m.1 m.2 day))) (seqZ 1 dayLimit)).

(** The greatest day of the month among the records. *)
Definition maxDayOf (recs : list DailyPoint) : Z :=
  foldl Z.max 0 ((fun p => dy (date p)) <$> recs).

(** The row of the monthly table for the month [m]. *)
Definition monthlyRow (l : list DailyPoint) (m : ym) : MonthlyRow.t :=
  let recs := monthRecords l m in
  let tot := sumQ (value <$> recs) in
  let prevMoM := comparableSum l (prevMonthOf m) (maxDayOf recs) in
  let prevYoY := comparableSum l (m.1 - 1, m.2) (maxDayOf recs) in
  {| MonthlyRow.month := m;
     MonthlyRow.total_gwh := tot;
     MonthlyRow.max_day := maxDayOf recs;
     MonthlyRow.yoy_pct :=
       match prevYoY with Some v => growthPct tot (Some v) | None => None end;
     MonthlyRow.mom_pct :=
       match prevMoM with Some v => growthPct tot (Some v) | None => None end |}.

(** The record a row gives: its date parses and its value is a finite
    number that is not negative. *)
Definition rowRecord (row : list string) : option DailyPoint :=
  match parseInputDate (cell row 0), Number (removeCommas (cell row 1)) with
  | Some dt, JNum q => if Qle_bool 0 q then Some {| date := dt; value := q |} else None
  | _, _ => None
  end.

(** The message the row number [i] (from 0) gives when it gives no record. *)
Definition rowError (i : Z) (row : list string) : option string :=
  match parseInputDate (cell row 0), Number (removeCommas (cell row 1)) with
  | None, _ => Some (dateError i (cell row 0))
  | Some dt, JNum q => if Qle_bool 0 q then None else Some (valueError i (cell row 1))
  | Some dt, _ => Some (valueError i (cell row 1))
  end.

(** A header, three good rows, a row with the date 31 February and a row
    with a negative value. *)
Definition fiveRowsText : string :=
  joinWith (String LF "")
    ["date,generation_gwh"; "18-12-2025,4140"; "31-02-2025,4215";
     "19-12-2025,4215.5"; "20-12-2025,-5"; "21-12-2025,4198"].

(** A header, a row with four cells, a line without a comma, a blank line,
    a row with two cells and a row whose value is written with a thousands
    separator, which makes it a row of three cells. *)
Definition extraCellsLines : list string :=
  ["date,generation_gwh"; "18-12-2025,4140,coal,north"; "justone"; "   ";
   "19-12-2025, 7.25 "; "20-12-2025,1,234.5"].

(** What [csvParse] makes of a text that splits into the given lines. *)
Definition parseLines (valueColumnKey : string) (lines : list string) : CsvResult :=
  csvParseRows (dropHeader valueColumnKey (rowsOfLines lines)).

(** A decimal digit. *)
Definition digit (d : Z) : Prop := 0 <= d <= 9.

(** Every character of the text passes the test. *)
Fixpoint allChars (P : ascii -> bool) (s : string) : bool :=
  match s with
  | String c s' => P c && allChars P s'
  | EmptyString => true
  end.

(** A real calendar date whose year has four digits. *)
Definition fourDigitDate (k : iso) : Prop := 1000 <= yr k <= 9999 /\ validISO k.

Definition notWhite (c : ascii) : bool := negb (isWhite c).
Definition notComma (c : ascii) : bool := negb (Ascii.eqb c ",").
Definition notBreak (c : ascii) : bool := negb (Ascii.eqb c LF) && negb (Ascii.eqb c CR).

(** The characters of the text of a number. *)
Definition numChar (c : ascii) : bool :=
  isDigit c || Ascii.eqb c "." || Ascii.eqb c "e" || Ascii.eqb c "+" || Ascii.eqb c "-".

(** The text of a decimal literal: the digits before the point, those after
    it when there is a point, and the sign and digits of the exponent when
    there is one. *)
Definition decimalText (ip : list Z) (fp : option (list Z))
    (ex : option (bool * list Z)) : string :=
  stringOfDigits ip +:+
  match fp with Some f => String "." (stringOfDigits f) | None => EmptyString end +:+
  match ex with
  | Some (neg, ed) => String "e" (String (if neg then "-" else "+")%char (stringOfDigits ed))
  | None => EmptyString
  end.

Definition fracDigits (fp : option (list Z)) : list Z :=
  match fp with Some f => f | None => [] end.

(** The number a decimal literal stands for. *)
Definition decimalValue (ip : list Z) (fp : option (list Z))
    (ex : option (bool * list Z)) : Q :=
  scale10 (valOf (ip ++ fracDigits fp))
          (match ex with
           | Some (neg, ed) => if neg then - valOf ed else valOf ed
           | None => 0
           end - Z.of_nat (length (fracDigits fp))).

(** The value is a decimal fraction: a whole number of some power of ten.
    Every finite double is one, and so is every number read from text. *)
Definition decimalFraction (q : Q) : Prop := exists m e, (q == scale10 m e)%Q.

(** The printing finds the decimal expansion of the value. *)
Definition printable (q : Q) : Prop :=
  is_Some (decimalScale (S (Z.to_nat (Z.log2 (Z.pos (Qden (Qred q))))))
                        (Qnum (Qred q)) (Z.pos (Qden (Qred q))) 0).

(** A record the export writes in full: a date with a four digit year and a
    value that is a decimal fraction and not negative. *)
Definition exportable (d : DailyPoint) : Prop :=
  fourDigitDate (date d) /\ (0 <= value d)%Q /\ decimalFraction (value d).

(** The same date and the same number. *)
Definition sameRecord (d r : DailyPoint) : Prop :=
  date r = date d /\ (value r == value d)%Q.

(** The line [exportCSV] writes for a record. *)
Definition exportLine (d : DailyPoint) : string :=
  formatDDMMYYYY (date d) +:+ "," +:+ NumberToString (value d).

(** A character of a column key: no white space and no comma. *)
Definition keyChar (c : ascii) : bool := notWhite c && notComma c.

(** A store with one value on the first of January of the year 50. *)
Definition year50Store : gmap iso Q := {[ Iso 50 1 1 := 5%Q ]}.

(** A store of three days with a whole, a fractional and a small value. *)
Definition threeDayStore : gmap iso Q :=
  <[Iso 2025 12 18 := 4140%Q]>
    (<[Iso 2025 12 19 := (8431 # 2)%Q]> {[ Iso 2024 2 29 := (3 # 20000000)%Q ]}).




(** A store with the value 0 on 5 March 2023 and the value 100 on 5 March
    2024. *)
Definition zeroPriorData : list DailyPoint :=
  [sampleDay 2023 3 5 0; sampleDay 2024 3 5 100].

(** The point of a month in the monthly mode of the chart: its total over
    the records of the range, and the totals over the same days of the month
    one year before and of the month before. *)
Definition monthPoint (store : gmap iso Q) (filtered : list DailyPoint) (m : ym)
    : DailyChartPoint :=
  let recs := monthRecords filtered m in
  let curr := sumQ (value <$> recs) in
  let pm := prevMonthOf m in
  let prevYoY :=
    sumFound (omap (fun p => store !! Iso (m.1 - 1) m.2 (dy (date p))) recs) in
  let prevMoM :=
    sumFound (omap (fun p => store !! Iso pm.1 pm.2 (dy (date p))) recs) in
  {| label := ymText m;
     units := curr;
     prev_year_units := prevYoY;
     yoy_pct := match prevYoY with Some v => growthPct curr (Some v) | None => None end;
     mom_pct := match prevMoM with Some v => growthPct curr (Some v) | None => None end |}.

(** A month with records on its first two days only; the month before has
    records on its first and third day, the same month of the year before on
    its second day. *)
Definition twoDayMonthData : list DailyPoint :=
  [sampleDay 2023 2 2 9; sampleDay 2024 1 1 5; sampleDay 2024 1 3 1000;
   sampleDay 2024 2 1 30; sampleDay 2024 2 2 40].

(** The value of the last record of the list that names the date. *)
Definition lastValue (k : iso) (records : list DailyPoint) : option Q :=
  value <$> last (filter (fun r => date r = k) records).

(** A character of a date as typed: a digit, a hyphen or white space. *)
Definition dateChar (c : ascii) : bool := isDigit c || Ascii.eqb c "-" || isWhite c.

(** The three records of the sample. *)
Definition sampleRecords : list DailyPoint :=
  [sampleDay 2025 12 18 4140; sampleDay 2025 12 19 4215; sampleDay 2025 12 20 4198].



(** * Growth *)

Lemma Qeq_bool_false_iff (x y : Q) : Qeq_bool x y = false <-> ~ (x == y)%Q.
Proof.
  split.
  - intros H E. apply Qeq_bool_iff in E. congruence.
  - intros H. destruct (Qeq_bool x y) eqn:E; [|reflexivity].
    apply Qeq_bool_iff in E. contradiction.
Qed.

Lemma growthPct_nonzero (curr prev : Q) :
  ~ (prev == 0)%Q ->
  growthPct curr (Some prev) = Some ((curr - prev) / prev * 100)%Q.
Proof.
  intros H. unfold growthPct, safeDiv. simpl.
  apply Qeq_bool_false_iff in H. now rewrite H.
Qed.

Lemma growthPct_zero (curr prev : Q) :
  (prev == 0)%Q -> growthPct curr (Some prev) = None.
Proof.
  intros H. unfold growthPct, safeDiv. simpl.
  apply Qeq_bool_iff in H. now rewrite H.
Qed.

(** C7. [growthPct(curr, prev)] is [(curr - prev) / prev * 100] when [prev]
    is a nonzero number and null when [prev] is null or zero; so
    [growthPct(x, x)] is 0 for a nonzero [x], [growthPct(x, 0)] is null and
    [growthPct(0, p)] is -100 for a nonzero [p].  No bound is applied to
    the percentage. *)
Theorem growthPct_spec (curr prev x p : Q) :
  (~ (prev == 0)%Q ->
     growthPct curr (Some prev) = Some ((curr - prev) / prev * 100)%Q) /\
  growthPct curr None = None /\
  ((prev == 0)%Q -> growthPct curr (Some prev) = None) /\
  (~ (x == 0)%Q -> oQeq (growthPct x (Some x)) (Some 0%Q)) /\
  growthPct x (Some 0%Q) = None /\
  (~ (p == 0)%Q -> oQeq (growthPct 0 (Some p)) (Some (-100)%Q)).
Proof.
  repeat split.
  - apply growthPct_nonzero.
  - apply growthPct_zero.
  - intros H. rewrite growthPct_nonzero by exact H. simpl. field. exact H.
  - intros H. rewrite growthPct_nonzero by exact H. simpl. field. exact H.
Qed.

Lemma growthPct_spec_witness :
  growthPct 110 (Some 100%Q) = Some ((110 - 100) / 100 * 100)%Q /\
  growthPct 7 (Some (0 # 3)%Q) = None /\
  oQeq (growthPct 5 (Some 5%Q)) (Some 0%Q) /\
  oQeq (growthPct 0 (Some 4%Q)) (Some (-100)%Q).
Proof.
  destruct (growthPct_spec 110 100 5 4) as (H1 & _ & _ & H4 & _ & H6).
  destruct (growthPct_spec 7 (0 # 3) 5 4) as (_ & _ & H3 & _).
  split; [apply H1; discriminate|].
  split; [apply H3; reflexivity|].
  split; [apply H4; discriminate|apply H6; discriminate].
Defined.

(** * Calendar *)

Ltac zdiv := Z.div_mod_to_equations; lia.

Ltac split_ifs :=
  repeat match goal with
         | |- context [if ?b then _ else _] => destruct b eqn:?
         end;
  rewrite ?Z.ltb_lt, ?Z.ltb_ge, ?Z.leb_le, ?Z.leb_gt, ?Z.eqb_eq, ?Z.eqb_neq in *.

Lemma isLeap_cases (y : Z) :
  (isLeap y = true /\ y mod 4 = 0 /\ (y mod 100 <> 0 \/ y mod 400 = 0)) \/
  (isLeap y = false /\ (y mod 4 <> 0 \/ (y mod 100 = 0 /\ y mod 400 <> 0))).
Proof.
  unfold isLeap.
  destruct (y mod 4 =? 0) eqn:E4; destruct (y mod 100 =? 0) eqn:E100;
    destruct (y mod 400 =? 0) eqn:E400;
    rewrite ?Z.eqb_eq, ?Z.eqb_neq in *; simpl; zdiv.
Qed.

Lemma month_cases (m : Z) :
  1 <= m <= 12 ->
  m = 1 \/ m = 2 \/ m = 3 \/ m = 4 \/ m = 5 \/ m = 6 \/
  m = 7 \/ m = 8 \/ m = 9 \/ m = 10 \/ m = 11 \/ m = 12.
Proof. lia. Qed.

Lemma daysInMonth_bounds (y m : Z) : 28 <= daysInMonth y m <= 31.
Proof. unfold daysInMonth. repeat case_match; lia. Qed.

Lemma yearStartMar_step (y : Z) :
  yearStartMar (y + 1) = yearStartMar y + 365 + (if isLeap (y + 1) then 1 else 0).
Proof.
  unfold yearStartMar. cbv zeta.
  destruct (isLeap_cases (y + 1)) as [[-> H]|[-> H]]; zdiv.
Qed.

Lemma yearStartMar_mono (a b : Z) :
  a < b -> yearStartMar a + 365 * (b - a) <= yearStartMar b.
Proof. unfold yearStartMar. cbv zeta. intros. zdiv. Qed.

(** Reduce the calendar tables at a literal month. *)
Ltac month_tables :=
  cbv [daysInMonth marYear marMonth Z.eqb Z.leb Z.compare Pos.eqb Pos.compare
       Pos.compare_cont orb] in *;
  unfold monthStartMar in *.

(** Decide that a literal date is a key of the store. *)
Ltac literal_date :=
  unfold keyDate, validISO, validYMD; cbn [yr mo dy];
  repeat match goal with
         | |- context [daysInMonth ?y ?m] =>
             let v := eval vm_compute in (daysInMonth y m) in
             change (daysInMonth y m) with v
         end;
  lia.

(** A real date lies within its March based year. *)
Lemma dayOfMarYear_bounds (y m d : Z) :
  validYMD y m d ->
  0 <= monthStartMar (marMonth m) + d - 1 <
    365 + (if isLeap (marYear y m + 1) then 1 else 0).
Proof.
  intros [Hm Hd].
  destruct (month_cases m Hm) as [H|[H|[H|[H|[H|[H|[H|[H|[H|[H|[H|H]]]]]]]]]]];
    subst m; month_tables;
    try replace (y - 1 + 1) with y in * by lia;
    repeat match goal with
           | |- context [isLeap ?e] => destruct (isLeap e)
           | H : context [isLeap ?e] |- _ => destruct (isLeap e)
           end;
    zdiv.
Qed.

(** Within a March based year the months follow each other. *)
Lemma monthStartMar_next (y m d : Z) :
  validYMD y m d -> marMonth m < 11 ->
  monthStartMar (marMonth m) + d - 1 < monthStartMar (marMonth m + 1).
Proof.
  intros [Hm Hd] Hlt.
  destruct (month_cases m Hm) as [H|[H|[H|[H|[H|[H|[H|[H|[H|[H|[H|H]]]]]]]]]]];
    subst m; month_tables;
    repeat match goal with
           | H : context [isLeap ?e] |- _ => destruct (isLeap e)
           end;
    zdiv.
Qed.

Lemma monthStartMar_mono (a b : Z) :
  0 <= a -> a <= b -> monthStartMar a <= monthStartMar b.
Proof. unfold monthStartMar. intros. zdiv. Qed.

Lemma daysFromCivil_lt (y1 m1 d1 y2 m2 d2 : Z) :
  validYMD y1 m1 d1 -> validYMD y2 m2 d2 ->
  lexLt y1 m1 d1 y2 m2 d2 ->
  daysFromCivil y1 m1 d1 < daysFromCivil y2 m2 d2.
Proof.
  intros V1 V2 L.
  pose proof (dayOfMarYear_bounds _ _ _ V1) as B1.
  assert (B2 : 0 <= monthStartMar (marMonth m2) + d2 - 1)
    by apply (dayOfMarYear_bounds _ _ _ V2).
  pose proof (monthStartMar_next _ _ _ V1) as N1.
  pose proof (yearStartMar_step (marYear y1 m1)) as S1.
  pose proof (yearStartMar_mono (marYear y1 m1 + 1) (marYear y2 m2)) as M1.
  pose proof (monthStartMar_mono (marMonth m1 + 1) (marMonth m2)) as M2.
  destruct V1 as [V1 [D1 _]], V2 as [V2 [D2 _]].
  unfold daysFromCivil, lexLt in *.
  destruct (isLeap (marYear y1 m1 + 1));
    unfold marYear, marMonth in *;
    destruct (m1 <=? 2) eqn:E1; rewrite ?E1 in *;
    destruct (m2 <=? 2) eqn:E2; rewrite ?E2 in *;
    rewrite ?Z.leb_le, ?Z.leb_gt in *;
    match goal with
    | |- yearStartMar ?a + _ + _ - 1 < yearStartMar ?b + _ + _ - 1 =>
        destruct (Z.lt_trichotomy a b) as [Hy|[Hy|Hy]];
        [destruct (Z.eq_dec (a + 1) b) as [Hs|Hs];
         [rewrite <- Hs; lia | lia]
        | rewrite Hy in *
        | exfalso; lia]
    end;
    match goal with
    | |- _ + monthStartMar ?a + _ - 1 < _ + monthStartMar ?b + _ - 1 =>
        destruct (Z.lt_trichotomy a b) as [Hm|[Hm|Hm]];
        [lia | replace b with a by lia; lia | exfalso; lia]
    end.
Qed.

Lemma lex_trichotomy (y1 m1 d1 y2 m2 d2 : Z) :
  lexLt y1 m1 d1 y2 m2 d2 \/ (y1 = y2 /\ m1 = m2 /\ d1 = d2) \/
  lexLt y2 m2 d2 y1 m1 d1.
Proof. unfold lexLt. lia. Qed.

Lemma daysFromCivil_inj (y1 m1 d1 y2 m2 d2 : Z) :
  validYMD y1 m1 d1 -> validYMD y2 m2 d2 ->
  daysFromCivil y1 m1 d1 = daysFromCivil y2 m2 d2 ->
  y1 = y2 /\ m1 = m2 /\ d1 = d2.
Proof.
  intros V1 V2 E.
  destruct (lex_trichotomy y1 m1 d1 y2 m2 d2) as [L|[L|L]]; [|exact L|].
  - pose proof (daysFromCivil_lt _ _ _ _ _ _ V1 V2 L). lia.
  - pose proof (daysFromCivil_lt _ _ _ _ _ _ V2 V1 L). lia.
Qed.

Lemma days_civil (n : Z) :
  daysFromCivil (civilFromDays n).1.1 (civilFromDays n).1.2 (civilFromDays n).2 = n.
Proof.
  unfold civilFromDays, daysFromCivil, yearStartMar, monthStartMar, marYear,
    marMonth, civilMonth.
  cbv zeta. cbn [fst snd].
  split_ifs; zdiv.
Qed.

Lemma daysInMonth_civilMonth (y mp : Z) :
  0 <= mp <= 10 ->
  daysInMonth y (civilMonth mp) = monthStartMar (mp + 1) - monthStartMar mp.
Proof.
  intros H.
  assert (Hc : mp = 0 \/ mp = 1 \/ mp = 2 \/ mp = 3 \/ mp = 4 \/ mp = 5 \/
               mp = 6 \/ mp = 7 \/ mp = 8 \/ mp = 9 \/ mp = 10) by lia.
  destruct Hc as [Hc|[Hc|[Hc|[Hc|[Hc|[Hc|[Hc|[Hc|[Hc|[Hc|Hc]]]]]]]]]];
    subst mp; reflexivity.
Qed.

Lemma civil_valid (n : Z) :
  validYMD (civilFromDays n).1.1 (civilFromDays n).1.2 (civilFromDays n).2.
Proof.
  unfold civilFromDays. cbv zeta. cbn [fst snd].
  set (z := n + 719468).
  set (era := z / 146097).
  set (doe := z - era * 146097).
  set (yoe := (doe - doe / 1460 + doe / 36524 - doe / 146096) / 365).
  set (doy := doe - (365 * yoe + yoe / 4 - yoe / 100)).
  set (mp := (5 * doy + 2) / 153).
  assert (Hdoe : 0 <= doe < 146097) by (subst doe era; zdiv).
  assert (Hyoe : 0 <= yoe <= 399) by (subst yoe; zdiv).
  assert (Hdoy : 0 <= doy <= 365) by (subst doy yoe; zdiv).
  assert (Hmp : 0 <= mp <= 11) by (subst mp; zdiv).
  assert (Hleap : doy = 365 -> isLeap (yoe + era * 400 + 1) = true).
  { intros Hd. destruct (isLeap_cases (yoe + era * 400 + 1)) as [[-> _]|[_ HL]];
      [reflexivity|]. exfalso. subst doy yoe. zdiv. }
  unfold validYMD.
  destruct (Z.eq_dec mp 11) as [E|NE].
  - rewrite E. change (civilMonth 11) with 2. change (2 <=? 2) with true. cbv iota.
    change (daysInMonth (yoe + era * 400 + 1) 2)
      with (if isLeap (yoe + era * 400 + 1) then 29 else 28).
    unfold monthStartMar. split; [lia|].
    destruct (isLeap (yoe + era * 400 + 1)) eqn:EL.
    + subst mp. zdiv.
    + assert (doy <> 365) by (intros E'; apply Hleap in E'; congruence).
      subst mp. zdiv.
  - rewrite daysInMonth_civilMonth by lia.
    unfold monthStartMar, civilMonth. split.
    + destruct (mp <? 10) eqn:E; rewrite ?Z.ltb_lt, ?Z.ltb_ge in E; lia.
    + subst mp. zdiv.
Qed.

Lemma civil_days (y m d : Z) :
  validYMD y m d -> civilFromDays (daysFromCivil y m d) = (y, m, d).
Proof.
  intros V.
  pose proof (civil_valid (daysFromCivil y m d)) as V'.
  pose proof (days_civil (daysFromCivil y m d)) as E.
  destruct (civilFromDays (daysFromCivil y m d)) as [[y' m'] d'].
  cbn [fst snd] in *.
  destruct (daysFromCivil_inj _ _ _ _ _ _ V' V E) as (-> & -> & ->).
  reflexivity.
Qed.

(** ** Dates as day numbers *)

Lemma daysFromCivil_day (y m d : Z) :
  daysFromCivil y m d = daysFromCivil y m 1 + d - 1.
Proof. unfold daysFromCivil. lia. Qed.

Lemma MakeDay_civil (y m d : Z) :
  1 <= m <= 12 -> MakeDay y (m - 1) d = daysFromCivil y m d.
Proof.
  intros H. unfold MakeDay.
  replace ((m - 1) / 12) with 0 by zdiv.
  replace ((m - 1) mod 12 + 1) with m by zdiv.
  rewrite Z.add_0_r. symmetry. apply daysFromCivil_day.
Qed.

Lemma DateOfISO_civil (k : iso) :
  1 <= mo k <= 12 -> DateOfISO k = daysFromCivil (yr k) (mo k) (dy k).
Proof. apply MakeDay_civil. Qed.

Lemma toISODate_valid (t : Z) : validISO (toISODate t).
Proof.
  unfold validISO, toISODate, getUTCFullYear, getUTCMonth, getUTCDate.
  cbn [yr mo dy].
  replace ((civilFromDays t).1.2 - 1 + 1) with (civilFromDays t).1.2 by lia.
  apply civil_valid.
Qed.

Lemma DateOfISO_toISODate (t : Z) : DateOfISO (toISODate t) = t.
Proof.
  rewrite DateOfISO_civil by apply toISODate_valid.
  unfold toISODate, getUTCFullYear, getUTCMonth, getUTCDate. cbn [yr mo dy].
  replace ((civilFromDays t).1.2 - 1 + 1) with (civilFromDays t).1.2 by lia.
  apply days_civil.
Qed.

Lemma toISODate_DateOfISO (k : iso) : validISO k -> toISODate (DateOfISO k) = k.
Proof.
  intros V. rewrite DateOfISO_civil by apply V.
  unfold toISODate, getUTCFullYear, getUTCMonth, getUTCDate.
  rewrite civil_days by exact V. destruct k. cbn [fst snd yr mo dy]. f_equal. lia.
Qed.

Lemma getters_civil (y m d : Z) :
  validYMD y m d ->
  getUTCFullYear (daysFromCivil y m d) = y /\
  getUTCMonth (daysFromCivil y m d) = m - 1 /\
  getUTCDate (daysFromCivil y m d) = d.
Proof.
  intros V. unfold getUTCFullYear, getUTCMonth, getUTCDate.
  now rewrite (civil_days _ _ _ V).
Qed.

Lemma toISODate_civil (y m d : Z) :
  validYMD y m d -> toISODate (daysFromCivil y m d) = Iso y m d.
Proof.
  intros V. unfold toISODate.
  destruct (getters_civil _ _ _ V) as (-> & -> & ->). f_equal. lia.
Qed.

Lemma setUTCDate_shift (t k : Z) : setUTCDate t (getUTCDate t + k) = t + k.
Proof.
  unfold setUTCDate, getUTCFullYear, getUTCMonth, getUTCDate.
  rewrite MakeDay_civil by apply (civil_valid t).
  rewrite daysFromCivil_day.
  pose proof (days_civil t) as E. rewrite daysFromCivil_day in E. lia.
Qed.

Lemma isoPlusDays_days (k : iso) (n : Z) :
  isoPlusDays k n = toISODate (DateOfISO k + n).
Proof. unfold isoPlusDays. cbv zeta. now rewrite setUTCDate_shift. Qed.

Lemma isoMinusDays_days (k : iso) (n : Z) :
  isoMinusDays k n = toISODate (DateOfISO k - n).
Proof.
  unfold isoMinusDays. cbv zeta.
  replace (getUTCDate (DateOfISO k) - n) with (getUTCDate (DateOfISO k) + - n) by lia.
  rewrite setUTCDate_shift. now rewrite Z.add_opp_r.
Qed.

Lemma iso_leb_lex (a b : iso) :
  iso_leb a b = true <-> ~ lexLt (yr b) (mo b) (dy b) (yr a) (mo a) (dy a).
Proof.
  unfold iso_leb, lexLt.
  rewrite !orb_true_iff, !andb_true_iff, !orb_true_iff, !andb_true_iff,
    !Z.ltb_lt, !Z.eqb_eq, Z.leb_le.
  lia.
Qed.

(** On real dates the order of the key texts is the order of the days. *)
Lemma iso_leb_days (a b : iso) :
  validISO a -> validISO b ->
  iso_leb a b = (DateOfISO a <=? DateOfISO b).
Proof.
  intros Va Vb.
  rewrite !DateOfISO_civil by (apply Va || apply Vb).
  destruct (lex_trichotomy (yr a) (mo a) (dy a) (yr b) (mo b) (dy b))
    as [L|[(E1 & E2 & E3)|L]].
  - pose proof (daysFromCivil_lt _ _ _ _ _ _ Va Vb L).
    transitivity true.
    + apply iso_leb_lex. unfold lexLt in *. lia.
    + symmetry. apply Z.leb_le. lia.
  - rewrite E1, E2, E3. rewrite Z.leb_refl. apply iso_leb_lex.
    unfold lexLt. lia.
  - pose proof (daysFromCivil_lt _ _ _ _ _ _ Vb Va L).
    transitivity false.
    + apply not_true_iff_false. rewrite iso_leb_lex. tauto.
    + symmetry. apply Z.leb_gt. lia.
Qed.

Lemma DateOfISO_inj (a b : iso) :
  validISO a -> validISO b -> DateOfISO a = DateOfISO b -> a = b.
Proof.
  intros Va Vb E.
  rewrite <- (toISODate_DateOfISO a Va), <- (toISODate_DateOfISO b Vb).
  now rewrite E.
Qed.

(** ** The day loop *)

Lemma foldOpt_app {A S : Type} (body : A -> S -> option S) (l1 l2 : list A) (s : S) :
  foldOpt body (l1 ++ l2) s =
  match foldOpt body l1 s with
  | Some s' => foldOpt body l2 s'
  | None => None
  end.
Proof.
  revert s. induction l1 as [|x l1 IH]; intros s; cbn; [reflexivity|].
  destruct (body x s); [apply IH|reflexivity].
Qed.

Lemma forDays_run {S : Type} (fuel : nat) (body : iso -> S -> option S)
    (b : iso) (B : Z) (s : S) :
  validISO b -> DateOfISO b = B ->
  forall A : Z,
    Z.max 0 (B - A + 1) < Z.of_nat fuel ->
    forDays fuel body (toISODate A) b s =
    foldOpt body (toISODate <$> seqZ A (B - A + 1)) s.
Proof.
  intros Vb EB. revert s.
  induction fuel as [|fuel IH]; intros s A Hf; [exfalso; lia|].
  cbn [forDays].
  rewrite (iso_leb_days _ b (toISODate_valid A) Vb), DateOfISO_toISODate, EB.
  destruct (A <=? B) eqn:E.
  - apply Z.leb_le in E.
    rewrite seqZ_cons by lia. cbn [fmap list_fmap foldOpt].
    destruct (body (toISODate A) s) as [s'|]; [|reflexivity].
    rewrite isoPlusDays_days, DateOfISO_toISODate.
    rewrite IH by lia.
    replace (Z.succ A) with (A + 1) by lia.
    replace (Z.pred (B - A + 1)) with (B - (A + 1) + 1) by lia.
    reflexivity.
  - apply Z.leb_gt in E.
    rewrite seqZ_nil by lia. reflexivity.
Qed.

(** With enough fuel the loop runs its body on each day from [a] to [b]. *)
Lemma forDays_days {S : Type} (fuel : nat) (body : iso -> S -> option S)
    (a b : iso) (s : S) :
  validISO a -> validISO b ->
  Z.max 0 (DateOfISO b - DateOfISO a + 1) < Z.of_nat fuel ->
  forDays fuel body a b s = foldOpt body (daysBetween a b) s.
Proof.
  intros Va Vb Hf. unfold daysBetween.
  rewrite <- (toISODate_DateOfISO a Va) at 1.
  now apply forDays_run.
Qed.

(** ** Sums over a range of days *)

Lemma sumFound_length (vs : list Q) :
  (if Z.of_nat (length vs) =? 0 then None else Some (sumQ vs)) = sumFound vs.
Proof. destruct vs; reflexivity. Qed.

Lemma foldOpt_sumCount (lk : gmap iso Q) (keys : list iso) (s : Q) (c : Z) :
  foldOpt (sumCountStep lk) keys (s, c) =
  Some (foldl Qplus s (omap (fun k => lk !! k) keys),
        c + Z.of_nat (length (omap (fun k => lk !! k) keys))).
Proof.
  revert s c. induction keys as [|k keys IH]; intros s c; cbn [foldOpt omap list_omap].
  - cbn. do 2 f_equal. lia.
  - unfold sumCountStep at 1. destruct (lk !! k) as [v|]; cbn [fst snd].
    + rewrite IH. cbn [foldl length]. do 2 f_equal. lia.
    + apply IH.
Qed.

Lemma foldOpt_sumRange (lk : gmap iso Q) (keys : list iso) (s : Q) (h : bool) :
  foldOpt (sumRangeStep lk) keys (s, h) =
  Some (foldl Qplus s (omap (fun k => lk !! k) keys),
        h || negb (Nat.eqb (length (omap (fun k => lk !! k) keys)) 0)).
Proof.
  revert s h. induction keys as [|k keys IH]; intros s h; cbn [foldOpt omap list_omap].
  - cbn. now rewrite orb_false_r.
  - unfold sumRangeStep at 1. destruct (lk !! k) as [v|]; cbn [fst snd].
    + rewrite IH. cbn [foldl length Nat.eqb negb]. now rewrite orb_true_r.
    + apply IH.
Qed.

Lemma daysBetween_nil (a b : iso) :
  DateOfISO b < DateOfISO a -> daysBetween a b = [].
Proof. intros H. unfold daysBetween. now rewrite seqZ_nil by lia. Qed.

(** With enough fuel [sumAndCountInclusive] returns the sum and the number
    of the values stored on the days of the range. *)
Lemma sumAndCount_enough (fuel : nat) (lk : gmap iso Q) (a b : iso) :
  validISO a -> validISO b ->
  Z.max 0 (DateOfISO b - DateOfISO a + 1) < Z.of_nat fuel ->
  sumAndCountInclusive fuel lk a b =
  Some (sumFound (rangeValues lk a b), Z.of_nat (length (rangeValues lk a b))).
Proof.
  intros Va Vb Hf. unfold sumAndCountInclusive, iso_gtb, rangeValues.
  rewrite (iso_leb_days a b Va Vb).
  destruct (DateOfISO a <=? DateOfISO b) eqn:E; cbn [negb].
  - rewrite forDays_days by assumption.
    rewrite foldOpt_sumCount. rewrite Z.add_0_l.
    now rewrite sumFound_length.
  - apply Z.leb_gt in E. now rewrite daysBetween_nil by lia.
Qed.

Lemma sumRange_enough (fuel : nat) (lk : gmap iso Q) (a b : iso) :
  validISO a -> validISO b ->
  Z.max 0 (DateOfISO b - DateOfISO a + 1) < Z.of_nat fuel ->
  sumRangeInclusive fuel lk a b = Some (sumFound (rangeValues lk a b)).
Proof.
  intros Va Vb Hf. unfold sumRangeInclusive, iso_gtb, rangeValues.
  rewrite (iso_leb_days a b Va Vb).
  destruct (DateOfISO a <=? DateOfISO b) eqn:E; cbn [negb].
  - rewrite forDays_days by assumption.
    rewrite foldOpt_sumRange. cbn [orb].
    now destruct (omap _ (daysBetween a b)).
  - apply Z.leb_gt in E. now rewrite daysBetween_nil by lia.
Qed.

(** ** One year back *)

Lemma daysFromCivil_next_month (y m : Z) :
  1 <= m <= 12 ->
  daysFromCivil (y + m / 12) (m mod 12 + 1) 1 = daysFromCivil y m 1 + daysInMonth y m.
Proof.
  intros Hm. unfold daysFromCivil.
  pose proof (yearStartMar_step (y - 1)) as S1.
  replace (y - 1 + 1) with y in S1 by lia.
  destruct (month_cases m Hm) as [H|[H|[H|[H|[H|[H|[H|[H|[H|[H|[H|H]]]]]]]]]]];
    subst m;
    match goal with
    | |- context [?a / 12] =>
        let v := eval vm_compute in (a / 12) in change (a / 12) with v;
        let w := eval vm_compute in (a mod 12 + 1) in change (a mod 12 + 1) with w
    end;
    month_tables; rewrite ?Z.add_0_r;
    try replace (y + 1 - 1) with y by lia;
    try (destruct (isLeap y)); zdiv.
Qed.

Lemma daysFromCivil_year (y m d : Z) :
  1 <= m <= 12 ->
  daysFromCivil (y + 1) m d =
  daysFromCivil y m d + 365 + (if isLeap (marYear y m + 1) then 1 else 0).
Proof.
  intros Hm. unfold daysFromCivil.
  replace (marYear (y + 1) m) with (marYear y m + 1)
    by (unfold marYear; destruct (m <=? 2); lia).
  rewrite yearStartMar_step. lia.
Qed.

Lemma isLeap_Feb29 (y m d : Z) :
  validYMD y m d -> daysInMonth (y - 1) m < d -> m = 2 /\ d = 29 /\ isLeap y = true.
Proof.
  intros [Hm Hd] Hlt.
  destruct (month_cases m Hm) as [H|[H|[H|[H|[H|[H|[H|[H|[H|[H|[H|H]]]]]]]]]]];
    subst m; month_tables;
    repeat match goal with
           | H : context [isLeap ?e] |- _ => destruct (isLeap e)
           end; try lia.
  all: repeat split; lia.
Qed.

Lemma isLeap_not_consecutive (y : Z) : isLeap y = true -> isLeap (y - 1) = false.
Proof.
  intros H.
  destruct (isLeap_cases y) as [[_ Hy]|[E _]]; [|congruence].
  destruct (isLeap_cases (y - 1)) as [[_ Hp]|[E _]]; [|exact E].
  exfalso. zdiv.
Qed.

(** Away from the two digit years that [Date.UTC] moves to the 1900s,
    [isoAddYears(k, -1)] is the date one year before [k]. *)
Lemma isoAddYears_before (k : iso) :
  validISO k -> 100 < yr k ->
  isoAddYears k (-1) = oneYearBefore k.
Proof.
  intros V Hy. pose proof V as [Hm Hd].
  unfold isoAddYears, oneYearBefore, DateUTC. cbv zeta.
  replace (yr k + -1) with (yr k - 1) by lia.
  replace ((0 <=? yr k - 1) && (yr k - 1 <=? 99)) with false
    by (symmetry; apply andb_false_iff; right; apply Z.leb_gt; lia).
  rewrite MakeDay_civil by exact Hm.
  destruct (dy k <=? daysInMonth (yr k - 1) (mo k)) eqn:E.
  - apply Z.leb_le in E.
    assert (V' : validYMD (yr k - 1) (mo k) (dy k)) by (split; lia).
    rewrite (toISODate_civil _ _ _ V').
    destruct (getters_civil _ _ _ V') as (-> & -> & ->).
    now rewrite !Z.eqb_refl.
  - apply Z.leb_gt in E.
    destruct (isLeap_Feb29 _ _ _ V E) as (Em & Ed & EL).
    pose proof (isLeap_not_consecutive _ EL) as EL'.
    rewrite Em, Ed in *.
    assert (E29 : daysFromCivil (yr k - 1) 2 29 = daysFromCivil (yr k - 1) 3 1).
    { pose proof (daysFromCivil_next_month (yr k - 1) 2 ltac:(lia)) as N.
      change (2 / 12) with 0 in N. change (2 mod 12 + 1) with 3 in N.
      rewrite Z.add_0_r in N. rewrite N.
      rewrite (daysFromCivil_day _ 2 29).
      change (daysInMonth (yr k - 1) 2) with (if isLeap (yr k - 1) then 29 else 28).
      rewrite EL'. lia. }
    assert (V3 : validYMD (yr k - 1) 3 1) by (split; [lia|cbn; lia]).
    rewrite E29.
    destruct (getters_civil _ _ _ V3) as (-> & -> & ->).
    change (3 - 1 =? 2 - 1) with false. rewrite andb_false_r. cbn [andb].
    change (daysInMonth (yr k - 1) 2) with (if isLeap (yr k - 1) then 29 else 28).
    rewrite EL'.
    assert (E0 : MakeDay (yr k - 1) 2 0 = daysFromCivil (yr k - 1) 2 28).
    { unfold MakeDay. change (2 / 12) with 0. change (2 mod 12 + 1) with 3.
      rewrite !Z.add_0_r. rewrite <- E29.
      rewrite (daysFromCivil_day _ 2 29), (daysFromCivil_day _ 2 28). lia. }
    rewrite E0.
    assert (V28 : validYMD (yr k - 1) 2 28).
    { split; [lia|].
      change (daysInMonth (yr k - 1) 2) with (if isLeap (yr k - 1) then 29 else 28).
      rewrite EL'. lia. }
    apply (toISODate_civil _ _ _ V28).
Qed.

Lemma oneYearBefore_valid (k : iso) : validISO k -> validISO (oneYearBefore k).
Proof.
  intros [Hm Hd]. unfold oneYearBefore, validISO, validYMD.
  pose proof (daysInMonth_bounds (yr k - 1) (mo k)).
  destruct (dy k <=? daysInMonth (yr k - 1) (mo k)) eqn:E;
    rewrite ?Z.leb_le, ?Z.leb_gt in E; cbn [yr mo dy]; lia.
Qed.

(** The date one year before lies 365 or 366 days back. *)
Lemma oneYearBefore_days (k : iso) :
  validISO k ->
  DateOfISO k - 366 <= DateOfISO (oneYearBefore k) <= DateOfISO k - 365.
Proof.
  intros V. pose proof V as [Hm Hd].
  pose proof (oneYearBefore_valid k V) as [Hm' _].
  rewrite !DateOfISO_civil by assumption.
  unfold oneYearBefore in *.
  destruct (dy k <=? daysInMonth (yr k - 1) (mo k)) eqn:E;
    rewrite ?Z.leb_le, ?Z.leb_gt in E; cbn [yr mo dy] in *.
  - pose proof (daysFromCivil_year (yr k - 1) (mo k) (dy k) Hm) as Y.
    replace (yr k - 1 + 1) with (yr k) in Y by lia.
    destruct (isLeap (marYear (yr k - 1) (mo k) + 1)); lia.
  - destruct (isLeap_Feb29 _ _ _ V E) as (Em & Ed & EL).
    pose proof (isLeap_not_consecutive _ EL) as EL'.
    rewrite Em, Ed in *.
    pose proof (daysFromCivil_year (yr k - 1) 2 29 ltac:(lia)) as Y.
    replace (yr k - 1 + 1) with (yr k) in Y by lia.
    change (marYear (yr k - 1) 2) with (yr k - 1 - 1) in Y.
    replace (yr k - 1 - 1 + 1) with (yr k - 1) in Y by lia.
    rewrite EL' in Y.
    change (daysInMonth (yr k - 1) 2) with (if isLeap (yr k - 1) then 29 else 28).
    rewrite EL'.
    pose proof (daysFromCivil_day (yr k - 1) 2 28).
    pose proof (daysFromCivil_day (yr k - 1) 2 29). lia.
Qed.

(** ** The headline numbers *)

Lemma avgOf_found (vs : list Q) :
  avgOf (sumFound vs, Z.of_nat (length vs)) = meanFound vs.
Proof. destruct vs; reflexivity. Qed.

Lemma daysFromCivil_year_bounds (y m d : Z) :
  1 <= m <= 12 ->
  daysFromCivil y m d + 365 <= daysFromCivil (y + 1) m d <= daysFromCivil y m d + 366.
Proof.
  intros Hm. rewrite daysFromCivil_year by exact Hm.
  destruct (isLeap (marYear y m + 1)); lia.
Qed.

(** A date at most 400 days before [k] is in the year of [k] or the one
    before or two before. *)
Lemma daysBack_year (k : iso) (n : Z) :
  validISO k -> 0 <= n <= 400 ->
  yr k - 2 <= yr (daysBack k n).
Proof.
  intros V Hn.
  pose proof (toISODate_valid (DateOfISO k - n)) as V'.
  pose proof (DateOfISO_toISODate (DateOfISO k - n)) as E.
  fold (daysBack k n) in V', E.
  destruct (Z.le_gt_cases (yr k - 2) (yr (daysBack k n))) as [H|H]; [exact H|exfalso].
  assert (V1 : validYMD (yr k - 2) 1 1) by (split; [lia|cbn; lia]).
  assert (L : lexLt (yr (daysBack k n)) (mo (daysBack k n)) (dy (daysBack k n))
                    (yr k - 2) 1 1) by (unfold lexLt; lia).
  pose proof (daysFromCivil_lt _ _ _ _ _ _ V' V1 L) as D1.
  rewrite <- DateOfISO_civil in D1 by apply V'. rewrite E in D1.
  assert (V2 : validYMD (yr k) 1 1) by (split; [lia|cbn; lia]).
  pose proof (daysFromCivil_year_bounds (yr k - 2) 1 1 ltac:(lia)) as Y1.
  pose proof (daysFromCivil_year_bounds (yr k - 1) 1 1 ltac:(lia)) as Y2.
  replace (yr k - 2 + 1) with (yr k - 1) in Y1 by lia.
  replace (yr k - 1 + 1) with (yr k) in Y2 by lia.
  assert (D2 : daysFromCivil (yr k) 1 1 <= DateOfISO k).
  { rewrite DateOfISO_civil by apply V.
    pose proof V as [Hm [Hd _]].
    destruct (lex_trichotomy (yr k) 1 1 (yr k) (mo k) (dy k)) as [L'|[L'|L']].
    - pose proof (daysFromCivil_lt _ _ _ _ _ _ V2 V L'). lia.
    - destruct L' as (_ & <- & <-). lia.
    - unfold lexLt in L'. lia. }
  lia.
Qed.

(** The window one year before, through [isoAddYears]. *)
Lemma sumAndCount_yearBefore (fuel : nat) (lk : gmap iso Q) (a b : iso) :
  validISO a -> validISO b -> 100 < yr a -> 100 < yr b ->
  Z.max 0 (DateOfISO b - DateOfISO a + 2) < Z.of_nat fuel ->
  sumAndCountInclusive fuel lk (isoAddYears a (-1)) (isoAddYears b (-1)) =
  Some (sumFound (rangeValues lk (oneYearBefore a) (oneYearBefore b)),
        Z.of_nat (length (rangeValues lk (oneYearBefore a) (oneYearBefore b)))).
Proof.
  intros Va Vb Ha Hb Hf.
  rewrite !isoAddYears_before by assumption.
  pose proof (oneYearBefore_days a Va). pose proof (oneYearBefore_days b Vb).
  apply sumAndCount_enough; [now apply oneYearBefore_valid..|lia].
Qed.

Lemma fiscalStart_valid (k : iso) : validISO (fiscalStart k).
Proof. split; [cbn; lia|]. cbn [yr mo dy fiscalStart]. change (daysInMonth _ 4) with 30. lia. Qed.

Lemma priorFiscalStart_valid (k : iso) : validISO (priorFiscalStart k).
Proof.
  split; [cbn; lia|]. cbn [yr mo dy priorFiscalStart].
  change (daysInMonth _ 4) with 30. lia.
Qed.

Lemma monthStart_valid (k : iso) : validISO k -> validISO (monthStart k).
Proof.
  intros [Hm Hd]. split; [exact Hm|]. cbn [yr mo dy monthStart].
  pose proof (daysInMonth_bounds (yr k) (mo k)). lia.
Qed.

(** A date lies less than a year after the start of its fiscal year. *)
Lemma fiscalStart_days (k : iso) :
  validISO k ->
  DateOfISO (fiscalStart k) <= DateOfISO k <= DateOfISO (fiscalStart k) + 365.
Proof.
  intros V. pose proof (fiscalStart_valid k) as Vf.
  rewrite !DateOfISO_civil by (apply V || apply Vf).
  unfold fiscalStart in *. cbn [yr mo dy] in *.
  set (fy := if 4 <=? mo k then yr k else yr k - 1) in *.
  change (validYMD fy 4 1) in Vf.
  assert (Vn : validYMD (fy + 1) 4 1) by (split; [lia|change (daysInMonth _ 4) with 30; lia]).
  pose proof (daysFromCivil_year_bounds fy 4 1 ltac:(lia)) as Y.
  assert (L : lexLt (yr k) (mo k) (dy k) (fy + 1) 4 1).
  { subst fy. unfold lexLt. destruct (4 <=? mo k) eqn:E;
      rewrite ?Z.leb_le, ?Z.leb_gt in E; lia. }
  pose proof (daysFromCivil_lt _ _ _ _ _ _ V Vn L).
  split; [|lia].
  destruct (lex_trichotomy fy 4 1 (yr k) (mo k) (dy k)) as [L'|[L'|L']].
  - pose proof (daysFromCivil_lt _ _ _ _ _ _ Vf V L'). lia.
  - destruct L' as (-> & <- & <-). lia.
  - exfalso. destruct V as [Hm [Hd _]]. subst fy. unfold lexLt in L'.
    destruct (4 <=? mo k) eqn:E; rewrite ?Z.leb_le, ?Z.leb_gt in E; lia.
Qed.

Lemma priorFiscalStart_days (k : iso) :
  DateOfISO (fiscalStart k) - 366 <= DateOfISO (priorFiscalStart k).
Proof.
  rewrite !DateOfISO_civil by (apply fiscalStart_valid || apply priorFiscalStart_valid).
  unfold fiscalStart, priorFiscalStart. cbn [yr mo dy].
  set (fy := if 4 <=? mo k then yr k else yr k - 1).
  pose proof (daysFromCivil_year_bounds (fy - 1) 4 1 ltac:(lia)) as Y.
  replace (fy - 1 + 1) with fy in Y by lia. lia.
Qed.

Lemma monthStart_days (k : iso) :
  validISO k ->
  DateOfISO (monthStart k) <= DateOfISO k <= DateOfISO (monthStart k) + 30.
Proof.
  intros V. pose proof (monthStart_valid k V) as Vm.
  rewrite !DateOfISO_civil by (apply V || apply Vm).
  unfold monthStart. cbn [yr mo dy].
  rewrite (daysFromCivil_day _ _ (dy k)).
  destruct V as [_ Hd]. pose proof (daysInMonth_bounds (yr k) (mo k)). lia.
Qed.

(** With fuel for more than a year of days [computeKPIs] returns the
    headline numbers of the store. *)
Lemma mbind_Some {A B : Type} (f : A -> option B) (v : A) : Some v ≫= f = f v.
Proof. reflexivity. Qed.

Lemma computeKPIs_enough (fuel : nat) (sortedDaily : list DailyPoint) (p : DailyPoint) :
  last sortedDaily = Some p -> keyDate (date p) -> (400 <= fuel)%nat ->
  computeKPIs fuel sortedDaily = Some (kpiSpec (dailyLookupOf sortedDaily) p).
Proof.
  intros Hl [Hy V] Hf. unfold computeKPIs. rewrite Hl. cbv zeta.
  set (lk := dailyLookupOf sortedDaily).
  set (d := date p) in *.
  assert (Hf' : 400 <= Z.of_nat fuel) by lia.
  rewrite !isoMinusDays_days.
  change (7 - 1) with 6. change (30 - 1) with 29.
  fold (daysBack d 6). fold (daysBack d 29).
  pose proof (toISODate_valid (DateOfISO d - 6)) as V7.
  pose proof (toISODate_valid (DateOfISO d - 29)) as V30.
  pose proof (DateOfISO_toISODate (DateOfISO d - 6)) as D7.
  pose proof (DateOfISO_toISODate (DateOfISO d - 29)) as D30.
  fold (daysBack d 6) in V7, D7. fold (daysBack d 29) in V30, D30.
  pose proof (daysBack_year d 6 V ltac:(lia)) as Y7.
  pose proof (daysBack_year d 29 V ltac:(lia)) as Y30.
  pose proof (fiscalStart_days d V) as F1.
  pose proof (priorFiscalStart_days d) as F2.
  pose proof (monthStart_days d V) as M1.
  pose proof (oneYearBefore_days d V) as B1.
  pose proof (oneYearBefore_valid d V) as VB.
  rewrite (sumAndCount_enough fuel lk (daysBack d 6) d) by (assumption || lia).
  rewrite mbind_Some; cbv beta.
  rewrite (sumAndCount_yearBefore fuel lk (daysBack d 6) d) by (assumption || lia).
  rewrite mbind_Some; cbv beta.
  rewrite (sumAndCount_enough fuel lk (daysBack d 29) d) by (assumption || lia).
  rewrite mbind_Some; cbv beta.
  rewrite (sumAndCount_yearBefore fuel lk (daysBack d 29) d) by (assumption || lia).
  rewrite mbind_Some; cbv beta.
  change (Iso (fyStartYearOf d) 4 1) with (fiscalStart d).
  change (Iso (fyStartYearOf d - 1) 4 1) with (priorFiscalStart d).
  change (Iso (yr d) (mo d) 1) with (monthStart d).
  rewrite (sumAndCount_enough fuel lk (fiscalStart d) d)
    by (assumption || apply fiscalStart_valid || lia).
  rewrite mbind_Some; cbv beta.
  rewrite (isoAddYears_before d V) by lia.
  rewrite (sumAndCount_enough fuel lk (priorFiscalStart d) (oneYearBefore d))
    by (assumption || apply priorFiscalStart_valid || lia).
  rewrite mbind_Some; cbv beta.
  rewrite (sumAndCount_enough fuel lk (monthStart d) d)
    by (assumption || (now apply monthStart_valid) || lia).
  rewrite mbind_Some; cbv beta.
  assert (VM : validISO (monthStart d)) by now apply monthStart_valid.
  pose proof (oneYearBefore_days (monthStart d) VM) as B2.
  rewrite (isoAddYears_before (monthStart d) VM) by (cbn; lia).
  rewrite (sumAndCount_enough fuel lk (oneYearBefore (monthStart d)) (oneYearBefore d))
    by (assumption || (now apply oneYearBefore_valid) || lia).
  rewrite mbind_Some; cbv beta.
  cbn [fst snd].
  rewrite !avgOf_found.
  reflexivity.
Qed.

(** ** The sorted sequence of a store *)

Lemma iso_leb_total (a b : iso) : iso_leb a b = true \/ iso_leb b a = true.
Proof.
  rewrite !iso_leb_lex. unfold lexLt. lia.
Qed.

Lemma iso_leb_trans (a b c : iso) :
  iso_leb a b = true -> iso_leb b c = true -> iso_leb a c = true.
Proof.
  rewrite !iso_leb_lex. unfold lexLt. lia.
Qed.

#[global] Instance iso_le_total : Total iso_le.
Proof.
  intros a b. unfold iso_le. rewrite !Is_true_true. apply iso_leb_total.
Qed.

#[global] Instance iso_le_trans : Transitive iso_le.
Proof.
  intros a b c. unfold iso_le. rewrite !Is_true_true. apply iso_leb_trans.
Qed.

#[global] Instance date_le_total : Total date_le.
Proof. intros a b. apply iso_le_total. Qed.

#[global] Instance date_le_trans : Transitive date_le.
Proof. intros a b c. apply iso_le_trans. Qed.

Lemma dailyLookupOf_snoc (l : list DailyPoint) (p : DailyPoint) :
  dailyLookupOf (l ++ [p]) = <[date p := value p]> (dailyLookupOf l).
Proof. unfold dailyLookupOf. now rewrite foldl_app. Qed.

Lemma dailyLookupOf_None (l : list DailyPoint) (k : iso) :
  k ∉ date <$> l -> dailyLookupOf l !! k = None.
Proof.
  induction l as [|p l IH] using rev_ind; intros H.
  - apply lookup_empty.
  - rewrite dailyLookupOf_snoc. rewrite fmap_app in H. cbn in H.
    rewrite lookup_insert_ne.
    + apply IH. intros Hin. apply H. apply elem_of_app. now left.
    + intros E. apply H. apply elem_of_app. right. rewrite E. apply list_elem_of_here.
Qed.

(** For distinct dates the lookup table holds exactly the records. *)
Lemma dailyLookupOf_lookup (l : list DailyPoint) (k : iso) (v : Q) :
  NoDup (date <$> l) ->
  dailyLookupOf l !! k = Some v <-> {| date := k; value := v |} ∈ l.
Proof.
  induction l as [|p l IH] using rev_ind; intros ND.
  - unfold dailyLookupOf. cbn. rewrite lookup_empty. split; [discriminate|].
    intros H. inversion H.
  - rewrite dailyLookupOf_snoc, elem_of_app, list_elem_of_singleton.
    rewrite fmap_app in ND. apply NoDup_app in ND as (ND1 & ND2 & _).
    destruct (decide (date p = k)) as [E|NE].
    + rewrite E, lookup_insert_eq. subst k. split.
      * intros H. injection H as <-. right. now destruct p.
      * intros [Hin | E]; [|now rewrite <- E].
        exfalso. apply (ND2 (date p)).
        -- apply list_elem_of_fmap. now exists {| date := date p; value := v |}.
        -- cbn. apply list_elem_of_here.
    + rewrite lookup_insert_ne by exact NE. rewrite (IH ND1). split.
      * now left.
      * intros [Hin|E]; [exact Hin|]. subst p. now cbn in NE.
Qed.

Lemma sortedDailyOf_perm (dataMap : gmap iso Q) :
  sortedDailyOf dataMap ≡ₚ
  (fun e => {| date := e.1; value := e.2 |}) <$> map_to_list dataMap.
Proof. apply merge_sort_Permutation. Qed.

Lemma sortedDailyOf_dates (dataMap : gmap iso Q) :
  date <$> sortedDailyOf dataMap ≡ₚ (map_to_list dataMap).*1.
Proof.
  rewrite sortedDailyOf_perm, <- list_fmap_compose.
  replace (date ∘ (fun e : iso * Q => {| date := e.1; value := e.2 |})) with (@fst iso Q);
    reflexivity.
Qed.

Lemma sortedDailyOf_NoDup (dataMap : gmap iso Q) :
  NoDup (date <$> sortedDailyOf dataMap).
Proof. rewrite sortedDailyOf_dates. apply NoDup_fst_map_to_list. Qed.

Lemma sortedDailyOf_elem (dataMap : gmap iso Q) (p : DailyPoint) :
  p ∈ sortedDailyOf dataMap <-> dataMap !! date p = Some (value p).
Proof.
  rewrite sortedDailyOf_perm, list_elem_of_fmap. split.
  - intros ([k v] & -> & H). cbn. now apply elem_of_map_to_list.
  - intros H. exists (date p, value p). split; [now destruct p|].
    now apply elem_of_map_to_list.
Qed.

(** The lookup table of the sorted sequence is the store. *)
Lemma sortedDailyOf_lookup (dataMap : gmap iso Q) :
  dailyLookupOf (sortedDailyOf dataMap) = dataMap.
Proof.
  apply map_eq. intros k. apply option_eq. intros v.
  rewrite dailyLookupOf_lookup by apply sortedDailyOf_NoDup.
  apply (sortedDailyOf_elem dataMap {| date := k; value := v |}).
Qed.

(** The last record of the sorted sequence has the greatest date. *)
Lemma sortedDailyOf_last (dataMap : gmap iso Q) (p : DailyPoint) :
  last (sortedDailyOf dataMap) = Some p ->
  dataMap !! date p = Some (value p) /\
  forall k, is_Some (dataMap !! k) -> iso_le k (date p).
Proof.
  intros Hl. pose proof Hl as Hl'. apply last_Some in Hl' as [l' E].
  split.
  - apply sortedDailyOf_elem. rewrite E. apply elem_of_app. right.
    apply list_elem_of_here.
  - intros k [v Hk].
    assert (Hin : {| date := k; value := v |} ∈ sortedDailyOf dataMap)
      by now apply sortedDailyOf_elem.
    pose proof (StronglySorted_merge_sort date_le
      ((fun e => {| date := e.1; value := e.2 |}) <$> map_to_list dataMap)) as SS.
    fold (sortedDailyOf dataMap) in SS. rewrite E in SS, Hin.
    apply elem_of_app in Hin as [Hin|Hin].
    + apply (StronglySorted_app_1_elem_of _ _ _ _ _ SS Hin). apply list_elem_of_here.
    + apply list_elem_of_singleton in Hin. subst p. cbn.
      destruct (iso_le_total k k) as [H|H]; exact H.
Qed.

Lemma sortedDailyOf_nonempty (dataMap : gmap iso Q) :
  dataMap <> ∅ -> exists p, last (sortedDailyOf dataMap) = Some p.
Proof.
  intros NE. apply last_is_Some. intros E.
  apply NE. apply map_to_list_empty_iff.
  pose proof (sortedDailyOf_perm dataMap) as P. rewrite E in P.
  apply Permutation_nil_l in P. symmetry in P. now apply fmap_nil_inv in P.
Qed.

(** * Fiscal year to date and the leap day *)

(** C5. The fiscal year to date total of a store is the sum of its values
    from 1 April of the fiscal start year through its latest date, the
    fiscal start year being the year of the latest date when its month is
    at least 4 and the year before otherwise; the year over year
    comparator sums from 1 April one year earlier through the date one
    year before the latest date; each side is null when its range holds
    no value. *)
Theorem fiscal_ytd (fuel : nat) (dataMap : gmap iso Q) :
  dataMap <> ∅ ->
  (forall k, is_Some (dataMap !! k) -> keyDate k) ->
  (400 <= fuel)%nat ->
  exists (kpis : KPIs) (p : DailyPoint),
    computeKPIs fuel (sortedDailyOf dataMap) = Some kpis /\
    latest kpis = Some p /\
    dataMap !! date p = Some (value p) /\
    (forall k, is_Some (dataMap !! k) -> iso_le k (date p)) /\
    let fy := if 4 <=? mo (date p) then yr (date p) else yr (date p) - 1 in
    let ytd := rangeValues dataMap (Iso fy 4 1) (date p) in
    let ytdPY := rangeValues dataMap (Iso (fy - 1) 4 1) (oneYearBefore (date p)) in
    ytdTotal kpis = sumFound ytd /\
    ytdYoY kpis = growthOfBoth (sumFound ytd) (sumFound ytdPY) /\
    (ytd = [] -> ytdTotal kpis = None /\ ytdYoY kpis = None) /\
    (ytdPY = [] -> ytdYoY kpis = None).
Proof.
  intros NE Hk Hf.
  destruct (sortedDailyOf_nonempty dataMap NE) as [p Hl].
  destruct (sortedDailyOf_last dataMap p Hl) as [Hp Hmax].
  exists (kpiSpec dataMap p), p.
  rewrite (computeKPIs_enough fuel _ p Hl (Hk _ (mk_is_Some _ _ Hp)) Hf).
  rewrite sortedDailyOf_lookup.
  split; [reflexivity|]. split; [reflexivity|].
  split; [exact Hp|]. split; [exact Hmax|].
  cbv zeta. unfold kpiSpec, fiscalStart, priorFiscalStart. cbn [ytdTotal ytdYoY].
  split; [reflexivity|]. split; [reflexivity|]. split.
  - intros ->. split; reflexivity.
  - intros ->. now destruct (sumFound _).
Qed.

Lemma fiscal_ytd_witness :
  exists (kpis : KPIs) (p : DailyPoint),
    computeKPIs 400 (sortedDailyOf {[ Iso 2024 5 1 := 7%Q ]}) = Some kpis /\
    latest kpis = Some p /\
    ({[ Iso 2024 5 1 := 7%Q ]} : gmap iso Q) !! date p = Some (value p) /\
    (forall k, is_Some (({[ Iso 2024 5 1 := 7%Q ]} : gmap iso Q) !! k) ->
               iso_le k (date p)) /\
    let fy := if 4 <=? mo (date p) then yr (date p) else yr (date p) - 1 in
    let ytd := rangeValues {[ Iso 2024 5 1 := 7%Q ]} (Iso fy 4 1) (date p) in
    let ytdPY := rangeValues {[ Iso 2024 5 1 := 7%Q ]} (Iso (fy - 1) 4 1)
                   (oneYearBefore (date p)) in
    ytdTotal kpis = sumFound ytd /\
    ytdYoY kpis = growthOfBoth (sumFound ytd) (sumFound ytdPY) /\
    (ytd = [] -> ytdTotal kpis = None /\ ytdYoY kpis = None) /\
    (ytdPY = [] -> ytdYoY kpis = None).
Proof.
  apply (fiscal_ytd 400 {[ Iso 2024 5 1 := 7%Q ]}).
  - intros E. apply (f_equal (fun m => m !! Iso 2024 5 1)) in E.
    rewrite lookup_singleton_eq, lookup_empty in E. discriminate.
  - intros k [v H]. apply lookup_singleton_Some in H as [<- _]. literal_date.
  - lia.
Defined.

(** C6. Shifting the latest date 2024-02-29 back one year gives
    2023-02-28, the last day of February 2023, and the latest day year
    over year figure compares the latest value with the value stored on
    that date. *)
Theorem leap_day_yoy (fuel : nat) (sortedDaily : list DailyPoint) (p : DailyPoint) :
  last sortedDaily = Some p -> date p = Iso 2024 2 29 -> (400 <= fuel)%nat ->
  isoAddYears (date p) (-1) = Iso 2023 2 28 /\
  exists kpis : KPIs,
    computeKPIs fuel sortedDaily = Some kpis /\
    latestYoY kpis =
      growthOver (value p) (dailyLookupOf sortedDaily !! Iso 2023 2 28).
Proof.
  intros Hl Hd Hf. split; [now rewrite Hd|].
  exists (kpiSpec (dailyLookupOf sortedDaily) p). split.
  - apply computeKPIs_enough; [exact Hl| |exact Hf].
    rewrite Hd. literal_date.
  - cbn [kpiSpec latestYoY]. now rewrite Hd.
Qed.

Lemma leap_day_yoy_witness :
  isoAddYears (Iso 2024 2 29) (-1) = Iso 2023 2 28 /\
  exists kpis : KPIs,
    computeKPIs 400 [ {| date := Iso 2023 2 28; value := 50 |};
                      {| date := Iso 2024 2 29; value := 100 |} ] = Some kpis /\
    latestYoY kpis =
      growthOver 100 (dailyLookupOf [ {| date := Iso 2023 2 28; value := 50 |};
                                      {| date := Iso 2024 2 29; value := 100 |} ]
                      !! Iso 2023 2 28).
Proof.
  apply (leap_day_yoy 400 _ {| date := Iso 2024 2 29; value := 100 |});
    [reflexivity|reflexivity|lia].
Defined.

(** * The rolling 30 day series *)

Lemma daysBetween_valid (a b k : iso) : k ∈ daysBetween a b -> validISO k.
Proof.
  unfold daysBetween. intros H. apply list_elem_of_fmap in H as (n & -> & _).
  apply toISODate_valid.
Qed.

Lemma daysBack_valid (k : iso) (n : Z) : validISO (daysBack k n).
Proof. apply toISODate_valid. Qed.

Lemma daysBack_days (k : iso) (n : Z) : DateOfISO (daysBack k n) = DateOfISO k - n.
Proof. apply DateOfISO_toISODate. Qed.

Lemma daysBack_twice (k : iso) (n m : Z) : daysBack (daysBack k n) m = daysBack k (n + m).
Proof. unfold daysBack. rewrite DateOfISO_toISODate. f_equal. lia. Qed.

Lemma rollingStep_enough (fuel : nat) (lk : gmap iso Q) (cur : iso)
    (points : list DailyChartPoint) :
  validISO cur -> 31 < Z.of_nat fuel ->
  rollingStep fuel lk cur points = Some (points ++ [rollingPoint lk cur]).
Proof.
  intros V Hf. unfold rollingStep. cbv zeta.
  rewrite !isoMinusDays_days. fold (daysBack cur 29). fold (daysBack cur 365).
  fold (daysBack (daysBack cur 365) 29). rewrite daysBack_twice.
  rewrite (sumRange_enough fuel lk (daysBack cur 29) cur)
    by (apply daysBack_valid || assumption || (rewrite daysBack_days; lia)).
  rewrite mbind_Some; cbv beta.
  rewrite (sumRange_enough fuel lk (daysBack cur (365 + 29)) (daysBack cur 365))
    by (apply daysBack_valid || (rewrite !daysBack_days; lia)).
  rewrite mbind_Some; cbv beta.
  unfold rollingPoint. cbv zeta.
  destruct (rangeValues lk (daysBack cur 29) cur);
    destruct (rangeValues lk (daysBack cur (365 + 29)) (daysBack cur 365)); reflexivity.
Qed.

Lemma foldOpt_rolling (fuel : nat) (lk : gmap iso Q) (keys : list iso)
    (points : list DailyChartPoint) :
  Forall validISO keys -> 31 < Z.of_nat fuel ->
  foldOpt (rollingStep fuel lk) keys points =
  Some (points ++ (rollingPoint lk <$> keys)).
Proof.
  intros Hv Hf. revert points.
  induction Hv as [|k keys Vk Hv IH]; intros points; cbn [foldOpt fmap list_fmap].
  - now rewrite app_nil_r.
  - rewrite rollingStep_enough by assumption. rewrite IH.
    now rewrite <- app_assoc.
Qed.

Lemma chartRange_ordered (lastIso : iso) (fromIso toIso : option iso) (rangeDays : Z) :
  iso_leb (chartRange lastIso fromIso toIso rangeDays).1
          (chartRange lastIso fromIso toIso rangeDays).2 = true.
Proof.
  unfold chartRange. cbv zeta. cbn [fst snd].
  set (a := default (isoMinusDays lastIso (clamp rangeDays 7 3650)) fromIso).
  set (b := default lastIso toIso).
  destruct (iso_leb a b) eqn:E; [exact E|].
  destruct (iso_leb_total a b) as [H|H]; [congruence|exact H].
Qed.

(** X16. In [src/ElectricityDashboard.tsx] the rolling 30 day mode gives one
    point for each day of the
    range of the chart, in date order; its total is the sum of the values
    stored on the 30 days ending on that day, missing days left out, and
    zero when the window holds no value; its year over year comparator is
    the sum over the 30 days ending 365 days earlier, null when that
    window holds no value; the growth is null when either window is empty;
    there is no month over month figure. *)
Theorem rolling30_series (fuel : nat) (sortedDaily : list DailyPoint)
    (lastPoint : DailyPoint) (fromIso toIso : option iso) (rangeDays : Z) :
  let f := (chartRange (date lastPoint) fromIso toIso rangeDays).1 in
  let t := (chartRange (date lastPoint) fromIso toIso rangeDays).2 in
  let store := dailyLookupOf sortedDaily in
  last sortedDaily = Some lastPoint ->
  keyDate f -> keyDate t ->
  Z.max 31 (DateOfISO t - DateOfISO f + 1) < Z.of_nat fuel ->
  DateOfISO f <= DateOfISO t /\
  dailyForChart fuel sortedDaily fromIso toIso rangeDays rolling30 =
    Some (rollingPoint store <$> daysBetween f t) /\
  Z.of_nat (length (daysBetween f t)) = DateOfISO t - DateOfISO f + 1 /\
  (forall cur, cur ∈ daysBetween f t <->
               validISO cur /\ DateOfISO f <= DateOfISO cur <= DateOfISO t) /\
  (forall cur,
     let window := rangeValues store (daysBack cur 29) cur in
     let windowPY := rangeValues store (daysBack cur (365 + 29)) (daysBack cur 365) in
     units (rollingPoint store cur) = default 0%Q (sumFound window) /\
     prev_year_units (rollingPoint store cur) = sumFound windowPY /\
     yoy_pct (rollingPoint store cur) = growthOfBoth (sumFound window) (sumFound windowPY) /\
     (window = [] \/ windowPY = [] -> yoy_pct (rollingPoint store cur) = None) /\
     mom_pct (rollingPoint store cur) = None).
Proof.
  intros f t store Hl [_ Vf] [_ Vt] Hf.
  assert (Hle : DateOfISO f <= DateOfISO t).
  { pose proof (chartRange_ordered (date lastPoint) fromIso toIso rangeDays) as H.
    fold f t in H. rewrite (iso_leb_days f t Vf Vt) in H. now apply Z.leb_le. }
  split; [exact Hle|]. split; [|split; [|split]].
  - unfold dailyForChart. rewrite Hl. cbv zeta. fold f t store.
    rewrite forDays_days by (assumption || lia).
    rewrite foldOpt_rolling; [reflexivity| |lia].
    apply Forall_forall. intros k Hk. now apply daysBetween_valid in Hk.
  - unfold daysBetween. rewrite length_fmap, length_seqZ. lia.
  - intros cur. unfold daysBetween. rewrite list_elem_of_fmap. split.
    + intros (n & -> & Hn). apply elem_of_seqZ in Hn.
      split; [apply toISODate_valid|]. rewrite DateOfISO_toISODate. lia.
    + intros [Vc Hc]. exists (DateOfISO cur). split.
      * symmetry. now apply toISODate_DateOfISO.
      * apply elem_of_seqZ. lia.
  - intros cur window windowPY. unfold rollingPoint. cbv zeta.
    fold window windowPY. cbn [units prev_year_units yoy_pct mom_pct].
    destruct window, windowPY; repeat split; try reflexivity;
      intros [H|H]; (reflexivity || discriminate).
Qed.

Lemma rolling30_series_witness :
  dailyForChart 40 janFeb2024 (Some (Iso 2024 2 1)) (Some (Iso 2024 2 3)) 120 rolling30 =
  Some (rollingPoint (dailyLookupOf janFeb2024) <$>
          daysBetween (Iso 2024 2 1) (Iso 2024 2 3)).
Proof.
  destruct (rolling30_series 40 janFeb2024 (sampleDay 2024 2 5 7)
              (Some (Iso 2024 2 1)) (Some (Iso 2024 2 3)) 120) as (_ & H & _).
  - reflexivity.
  - change (keyDate (Iso 2024 2 1)). literal_date.
  - change (keyDate (Iso 2024 2 3)). literal_date.
  - vm_compute. reflexivity.
  - exact H.
Defined.

(** * The daily series *)

Lemma prevMonth_MakeDay (y m d : Z) :
  1 <= m <= 12 ->
  MakeDay y (m - 2) d =
  daysFromCivil (prevMonthOf (y, m)).1 (prevMonthOf (y, m)).2 1 + d - 1.
Proof.
  intros Hm. unfold MakeDay, prevMonthOf. cbn [fst snd].
  destruct (m =? 1) eqn:E; rewrite ?Z.eqb_eq, ?Z.eqb_neq in E; cbn [fst snd].
  - subst m. change ((1 - 2) / 12) with (-1). change ((1 - 2) mod 12 + 1) with 12.
    replace (y + -1) with (y - 1) by lia. reflexivity.
  - replace ((m - 2) / 12) with 0 by zdiv.
    replace ((m - 2) mod 12 + 1) with (m - 1) by zdiv.
    now rewrite Z.add_0_r.
Qed.

Lemma prevMonth_next (y m : Z) :
  1 <= m <= 12 ->
  daysFromCivil (prevMonthOf (y, m)).1 (prevMonthOf (y, m)).2 1 +
    daysInMonth (prevMonthOf (y, m)).1 (prevMonthOf (y, m)).2 =
  daysFromCivil y m 1.
Proof.
  intros Hm. unfold prevMonthOf. cbn [fst snd].
  destruct (m =? 1) eqn:E; rewrite ?Z.eqb_eq, ?Z.eqb_neq in E; cbn [fst snd].
  - subst m. rewrite <- (daysFromCivil_next_month (y - 1) 12) by lia.
    change (12 / 12) with 1. change (12 mod 12 + 1) with 1.
    f_equal. lia.
  - rewrite <- (daysFromCivil_next_month y (m - 1)) by lia.
    replace ((m - 1) / 12) with 0 by zdiv.
    replace ((m - 1) mod 12 + 1) with m by zdiv.
    now rewrite Z.add_0_r.
Qed.

(** Outside the two digit years [sameDayPrevMonth] gives the same day of
    the month before when that month has such a day, and null otherwise. *)
Lemma sameDayPrevMonth_spec (k : iso) :
  validISO k -> 100 <= yr k ->
  sameDayPrevMonth k =
  let pm := prevMonthOf (yr k, mo k) in
  if dy k <=? daysInMonth pm.1 pm.2 then Some (Iso pm.1 pm.2 (dy k)) else None.
Proof.
  intros V Hy. pose proof V as [Hm Hd]. cbv zeta.
  unfold sameDayPrevMonth, DateUTC. cbv zeta.
  replace ((0 <=? yr k) && (yr k <=? 99)) with false
    by (symmetry; apply andb_false_iff; right; apply Z.leb_gt; lia).
  rewrite prevMonth_MakeDay by exact Hm.
  pose proof (prevMonth_next (yr k) (mo k) Hm) as N.
  set (pm := prevMonthOf (yr k, mo k)) in *.
  assert (Hpm : 1 <= pm.2 <= 12).
  { subst pm. unfold prevMonthOf. cbn [fst snd].
    destruct (mo k =? 1) eqn:E; rewrite ?Z.eqb_eq, ?Z.eqb_neq in E; cbn [fst snd]; lia. }
  pose proof (daysInMonth_bounds pm.1 pm.2) as B.
  pose proof (daysInMonth_bounds (yr k) (mo k)) as B'.
  destruct (dy k <=? daysInMonth pm.1 pm.2) eqn:E;
    rewrite ?Z.leb_le, ?Z.leb_gt in E.
  - rewrite <- daysFromCivil_day.
    rewrite toISODate_civil by (split; lia). cbn [dy].
    now rewrite Z.eqb_refl.
  - replace (daysFromCivil pm.1 pm.2 1 + dy k - 1)
      with (daysFromCivil (yr k) (mo k) (dy k - daysInMonth pm.1 pm.2))
      by (rewrite (daysFromCivil_day (yr k)); lia).
    rewrite toISODate_civil by (split; lia). cbn [dy].
    replace (dy k - daysInMonth pm.1 pm.2 =? dy k) with false
      by (symmetry; apply Z.eqb_neq; lia).
    reflexivity.
Qed.

Lemma dailyLookupOf_is_Some (l : list DailyPoint) (k : iso) :
  is_Some (dailyLookupOf l !! k) -> k ∈ date <$> l.
Proof.
  intros H. destruct (decide (k ∈ date <$> l)) as [Hin|Hn]; [exact Hin|].
  rewrite (dailyLookupOf_None l k Hn) in H. now destruct H.
Qed.

Lemma dailyPointOf_spec (lk : gmap iso Q) (d : DailyPoint) :
  keyDate (date d) -> dailyPointOf lk d = dailyPoint lk d.
Proof.
  intros [Hy V]. unfold dailyPointOf, dailyPoint. cbv zeta.
  rewrite (sameDayPrevMonth_spec _ V) by lia. cbv zeta.
  unfold sameDayPrevYear, growthOver.
  destruct (dy (date d) <=? _); reflexivity.
Qed.

Lemma inRange_elem (f t : iso) (l : list DailyPoint) (p : DailyPoint) :
  p ∈ inRange f t l <->
  p ∈ l /\ iso_leb f (date p) = true /\ iso_leb (date p) t = true.
Proof.
  unfold inRange. rewrite !list_elem_of_In, filter_In, andb_true_iff. tauto.
Qed.

(** C3, as the code has it.  In daily mode there is one point for each
    record of the range; its prior year value is the value stored under
    the same month and day of the year before, with no fallback: when the
    year before has no such day (29 February against a common year) the
    value is null; its month over month comparator is the value stored on
    the same day of the month before when that day exists, and null
    otherwise. *)
Theorem daily_series (fuel : nat) (sortedDaily : list DailyPoint)
    (lastPoint : DailyPoint) (fromIso toIso : option iso) (rangeDays : Z) :
  let f := (chartRange (date lastPoint) fromIso toIso rangeDays).1 in
  let t := (chartRange (date lastPoint) fromIso toIso rangeDays).2 in
  let store := dailyLookupOf sortedDaily in
  last sortedDaily = Some lastPoint ->
  Forall keyDate (date <$> sortedDaily) ->
  dailyForChart fuel sortedDaily fromIso toIso rangeDays daily =
    Some (dailyPoint store <$> inRange f t sortedDaily) /\
  (forall p, p ∈ inRange f t sortedDaily <->
             p ∈ sortedDaily /\ iso_leb f (date p) = true /\
             iso_leb (date p) t = true) /\
  (forall p, ~ validISO (Iso (yr (date p) - 1) (mo (date p)) (dy (date p))) ->
             prev_year_units (dailyPoint store p) = None /\
             yoy_pct (dailyPoint store p) = None) /\
  (forall p pm, pm = prevMonthOf (yr (date p), mo (date p)) ->
             daysInMonth pm.1 pm.2 < dy (date p) ->
             mom_pct (dailyPoint store p) = None) /\
  (forall p pm, pm = prevMonthOf (yr (date p), mo (date p)) ->
             dy (date p) <= daysInMonth pm.1 pm.2 ->
             mom_pct (dailyPoint store p) =
             growthOver (units (dailyPoint store p))
                        (store !! Iso pm.1 pm.2 (dy (date p)))).
Proof.
  intros f t store Hl Hk. subst store. split; [|split; [|split; [|split]]].
  - unfold dailyForChart. rewrite Hl. cbv zeta. fold f t.
    f_equal. apply list_fmap_ext. intros i p Hp.
    apply dailyPointOf_spec.
    apply list_elem_of_lookup_2, inRange_elem in Hp as [Hp _].
    rewrite Forall_forall in Hk. apply Hk.
    apply list_elem_of_fmap. now exists p.
  - intros p. apply inRange_elem.
  - intros p Hn.
    assert (E : dailyLookupOf sortedDaily !!
                  Iso (yr (date p) - 1) (mo (date p)) (dy (date p)) = None).
    { destruct (dailyLookupOf sortedDaily !! _) eqn:E; [|reflexivity]. exfalso. apply Hn.
      rewrite Forall_forall in Hk. apply Hk.
      apply dailyLookupOf_is_Some. now rewrite E. }
    unfold dailyPoint. cbv zeta. cbn [prev_year_units yoy_pct]. now rewrite E.
  - intros p pm -> Hlt. unfold dailyPoint. cbv zeta. cbn [mom_pct].
    apply Z.leb_gt in Hlt. now rewrite Hlt.
  - intros p pm -> Hle. unfold dailyPoint. cbv zeta. cbn [mom_pct units].
    apply Z.leb_le in Hle. now rewrite Hle.
Qed.

Lemma daily_series_witness :
  dailyForChart 0 leapDayData None None 120 daily =
  Some (dailyPoint (dailyLookupOf leapDayData) <$>
          inRange (Iso 2023 11 1) (Iso 2024 2 29) leapDayData).
Proof.
  destruct (daily_series 0 leapDayData (sampleDay 2024 2 29 100) None None 120)
    as (H & _).
  - reflexivity.
  - change (Forall keyDate [Iso 2023 2 28; Iso 2024 2 29]).
    repeat (constructor; [literal_date|]). constructor.
  - exact H.
Defined.

(** The claim C3 as stated fails: the store holds 50 on 2023-02-28, the
    end of the month the fallback of the claim points to, yet the daily
    point of 2024-02-29 has a null prior year value and a null growth. *)
Lemma daily_fallback_counterexample :
  exists pt : DailyChartPoint,
    dailyForChart 0 leapDayData None None 120 daily = Some [pt] /\
    label pt = "29-02-2024" /\
    dailyLookupOf leapDayData !! oneYearBefore (Iso 2024 2 29) = Some 50%Q /\
    prev_year_units pt = None /\
    yoy_pct pt = None /\
    prev_year_units pt <> dailyLookupOf leapDayData !! oneYearBefore (Iso 2024 2 29).
Proof.
  eexists. split; [vm_compute; reflexivity|].
  repeat split; try (vm_compute; reflexivity). vm_compute. discriminate.
Qed.

(** * The weekly series *)

Lemma startOfWeekISO_weekOf (k : iso) : startOfWeekISO k = weekOf k.
Proof.
  unfold startOfWeekISO, weekOf. cbv zeta. rewrite setUTCDate_shift.
  f_equal. unfold getUTCDay.
  destruct ((DateOfISO k + 4) mod 7 =? 0) eqn:E;
    rewrite ?Z.eqb_eq, ?Z.eqb_neq in E; zdiv.
Qed.

(** The start of the week is a Monday at most six days back. *)
Lemma weekOf_monday (k : iso) :
  getUTCDay (DateOfISO (weekOf k)) = 1 /\
  DateOfISO (weekOf k) <= DateOfISO k <= DateOfISO (weekOf k) + 6.
Proof.
  unfold weekOf. rewrite DateOfISO_toISODate. unfold getUTCDay. zdiv.
Qed.

Lemma sumQ_snoc (vs : list Q) (v : Q) : sumQ (vs ++ [v]) = (sumQ vs + v)%Q.
Proof. unfold sumQ. now rewrite foldl_app. Qed.

Lemma foldl_sumKey {X : Type} (lk : gmap iso Q) (keyOf : X -> iso) (xs : list X)
    (s : Q) (h : bool) :
  foldl (sumKeyStep lk keyOf) (s, h) xs =
  (foldl Qplus s (omap (fun x => lk !! keyOf x) xs),
   h || negb (Nat.eqb (length (omap (fun x => lk !! keyOf x) xs)) 0)).
Proof.
  revert s h. induction xs as [|x xs IH]; intros s h; cbn [foldl omap list_omap].
  - cbn. now rewrite orb_false_r.
  - unfold sumKeyStep at 2. destruct (lk !! keyOf x) as [v|]; cbn [fst snd].
    + rewrite IH. cbn [foldl length Nat.eqb negb]. now rewrite orb_true_r.
    + apply IH.
Qed.

Lemma sumKeys_found {X : Type} (lk : gmap iso Q) (keyOf : X -> iso) (xs : list X) :
  (let r := foldl (sumKeyStep lk keyOf) (0%Q, false) xs in
   if r.2 then Some r.1 else None) =
  sumFound (omap (fun x => lk !! keyOf x) xs).
Proof.
  cbv zeta. rewrite foldl_sumKey. cbn [fst snd orb].
  now destruct (omap _ xs).
Qed.

Lemma omap_fmap_compose {A B C : Type} (f : B -> option C) (g : A -> B) (l : list A) :
  omap f (g <$> l) = omap (fun x => f (g x)) l.
Proof.
  induction l as [|x l IH]; [reflexivity|]. cbn. now rewrite IH.
Qed.

Lemma weekRecords_snoc (l : list DailyPoint) (p : DailyPoint) (wk : iso) :
  weekRecords (l ++ [p]) wk =
  weekRecords l wk ++ (if bool_decide (weekOf (date p) = wk) then [p] else []).
Proof. unfold weekRecords. now rewrite List.filter_app. Qed.

Lemma weekRecords_elem (l : list DailyPoint) (wk : iso) (p : DailyPoint) :
  p ∈ weekRecords l wk <-> p ∈ l /\ weekOf (date p) = wk.
Proof.
  unfold weekRecords. rewrite !list_elem_of_In, filter_In, bool_decide_eq_true.
  tauto.
Qed.

Lemma entryOf_snoc {A B : Type} (l : list A) (x : A) (v : B) :
  entryOf (l ++ [x]) v = Some v.
Proof. now destruct l. Qed.

Lemma entryOf_default {A B : Type} (l : list A) (f : list A -> B) (d : B) :
  f [] = d -> default d (entryOf l (f l)) = f l.
Proof. intros <-. now destruct l. Qed.

(** The two tables of the weekly pass, after the records [l]. *)
Lemma weekStep_tables (l : list DailyPoint) :
  NoDup (date <$> l) -> Forall validISO (date <$> l) ->
  forall wk : iso,
    (foldl weekStep (∅, ∅) l).1 !! wk =
      entryOf (weekRecords l wk) (sumQ (value <$> weekRecords l wk)) /\
    (foldl weekStep (∅, ∅) l).2 !! wk =
      entryOf (weekRecords l wk)
        ((fun p => DateOfISO (date p) - DateOfISO wk) <$> weekRecords l wk).
Proof.
  induction l as [|p l IH] using rev_ind; intros ND V wk.
  - cbn. now rewrite !lookup_empty.
  - rewrite fmap_app in ND, V. cbn in ND, V.
    apply NoDup_app in ND as (ND1 & ND2 & _).
    apply Forall_app in V as [V1 V2]. rewrite Forall_singleton in V2.
    specialize (IH ND1 V1).
    rewrite foldl_app. cbn [foldl]. unfold weekStep at 1 3. cbv zeta. cbn [fst snd].
    rewrite startOfWeekISO_weekOf, weekRecords_snoc.
    destruct (decide (weekOf (date p) = wk)) as [E|NE].
    + subst wk. rewrite bool_decide_eq_true_2 by reflexivity.
      rewrite !lookup_insert_eq, !entryOf_snoc.
      destruct (IH (weekOf (date p))) as [-> ->].
      rewrite (entryOf_default _ (fun r => sumQ (value <$> r)) 0%Q) by reflexivity.
      rewrite (entryOf_default _
        (fun r => (fun p0 => DateOfISO (date p0) - DateOfISO (weekOf (date p))) <$> r) [])
        by reflexivity.
      split.
      * rewrite fmap_app. cbn [fmap list_fmap]. now rewrite sumQ_snoc.
      * unfold setAdd. rewrite decide_False; [now rewrite fmap_app|].
        intros Hin. apply list_elem_of_fmap in Hin as (r & Hr & Hin).
        apply weekRecords_elem in Hin as [Hin _].
        assert (Vr : validISO (date r)).
        { rewrite Forall_forall in V1. apply V1.
          apply list_elem_of_fmap. now exists r. }
        assert (Er : date p = date r) by (apply DateOfISO_inj; [assumption..|lia]).
        apply (ND2 (date p)).
        -- rewrite Er. apply list_elem_of_fmap. now exists r.
        -- apply list_elem_of_here.
    + rewrite bool_decide_eq_false_2 by exact NE.
      rewrite !lookup_insert_ne by exact NE. rewrite app_nil_r. apply IH.
Qed.

Lemma sortedKeys_elem {V : Type} (map : gmap iso V) (k : iso) :
  k ∈ sortedKeys map <-> is_Some (map !! k).
Proof.
  unfold sortedKeys. rewrite merge_sort_Permutation.
  rewrite list_elem_of_fmap. split.
  - intros ([k' v] & -> & H). apply elem_of_map_to_list in H. cbn. now exists v.
  - intros [v H]. exists (k, v). split; [reflexivity|]. now apply elem_of_map_to_list.
Qed.

Lemma sortedKeys_NoDup {V : Type} (map : gmap iso V) : NoDup (sortedKeys map).
Proof.
  unfold sortedKeys. rewrite merge_sort_Permutation. apply NoDup_fst_map_to_list.
Qed.

Lemma sortedKeys_sorted {V : Type} (map : gmap iso V) :
  StronglySorted iso_le (sortedKeys map).
Proof. apply StronglySorted_merge_sort; apply _. Qed.

Lemma weekPointOf_spec (lk : gmap iso Q) (filtered : list DailyPoint) (wk : iso) :
  NoDup (date <$> filtered) -> Forall validISO (date <$> filtered) ->
  weekPointOf lk (foldl weekStep (∅, ∅) filtered).1
              (foldl weekStep (∅, ∅) filtered).2 wk =
  weekPoint lk filtered wk.
Proof.
  intros ND V. unfold weekPointOf, weekPoint, sumWeekByOffsets. cbv zeta.
  destruct (weekStep_tables filtered ND V wk) as [-> ->].
  rewrite (entryOf_default _ (fun r => sumQ (value <$> r)) 0%Q) by reflexivity.
  rewrite (entryOf_default _
    (fun r => (fun p => DateOfISO (date p) - DateOfISO wk) <$> r) []) by reflexivity.
  rewrite !sumKeys_found, !omap_fmap_compose.
  assert (K : forall n (p : DailyPoint),
             isoPlusDays (isoMinusDays wk n) (DateOfISO (date p) - DateOfISO wk) =
             daysBack (date p) n).
  { intros n p. rewrite isoPlusDays_days, isoMinusDays_days, DateOfISO_toISODate.
    unfold daysBack. f_equal. lia. }
  assert (O : forall n, omap (fun x : DailyPoint =>
                lk !! isoPlusDays (isoMinusDays wk n) (DateOfISO (date x) - DateOfISO wk))
                (weekRecords filtered wk) =
              omap (fun p => lk !! daysBack (date p) n) (weekRecords filtered wk)).
  { intros n. induction (weekRecords filtered wk) as [|x xs IHx]; [reflexivity|].
    cbn [omap list_omap]. now rewrite K, IHx. }
  rewrite !O.
  reflexivity.
Qed.

Lemma filter_dates_NoDup (g : DailyPoint -> bool) (l : list DailyPoint) :
  NoDup (date <$> l) -> NoDup (date <$> List.filter g l).
Proof.
  induction l as [|p l IH]; intros ND; [exact ND|].
  cbn in ND. apply NoDup_cons in ND as [Hn ND]. cbn [List.filter].
  destruct (g p); [|now apply IH].
  cbn. apply NoDup_cons. split; [|now apply IH].
  intros Hin. apply Hn. apply list_elem_of_fmap in Hin as (q & -> & Hq).
  apply list_elem_of_fmap. exists q. split; [reflexivity|].
  apply list_elem_of_In. apply list_elem_of_In, filter_In in Hq. tauto.
Qed.

Lemma filter_dates_Forall (P : iso -> Prop) (g : DailyPoint -> bool)
    (l : list DailyPoint) :
  Forall P (date <$> l) -> Forall P (date <$> List.filter g l).
Proof.
  rewrite !Forall_forall. intros H k Hin.
  apply list_elem_of_fmap in Hin as (q & -> & Hq). apply H.
  apply list_elem_of_fmap. exists q. split; [reflexivity|].
  apply list_elem_of_In. apply list_elem_of_In, filter_In in Hq. tauto.
Qed.

Lemma omap_all_None {A B : Type} (g : A -> option B) (l : list A) :
  (forall x, x ∈ l -> g x = None) -> omap g l = [].
Proof.
  induction l as [|x l IH]; intros H; [reflexivity|]. cbn.
  rewrite (H x) by apply list_elem_of_here.
  apply IH. intros y Hy. apply H. now apply list_elem_of_further.
Qed.

(** C2. In weekly mode each bucket is keyed by the Monday that starts the
    week of its records; its year over year comparator adds the values
    stored 364 days before each day that has a record in the week, that
    is, at the same weekday offsets of the week that starts 364 days
    earlier, and its week over week comparator does the same 7 days
    earlier; when no such day holds a value the comparator and the growth
    are null. *)
Theorem weekly_series (fuel : nat) (sortedDaily : list DailyPoint)
    (lastPoint : DailyPoint) (fromIso toIso : option iso) (rangeDays : Z) :
  let f := (chartRange (date lastPoint) fromIso toIso rangeDays).1 in
  let t := (chartRange (date lastPoint) fromIso toIso rangeDays).2 in
  let store := dailyLookupOf sortedDaily in
  let filtered := inRange f t sortedDaily in
  last sortedDaily = Some lastPoint ->
  NoDup (date <$> sortedDaily) ->
  Forall keyDate (date <$> sortedDaily) ->
  exists weeks : list iso,
    dailyForChart fuel sortedDaily fromIso toIso rangeDays weekly =
      Some (weekPoint store filtered <$> weeks) /\
    StronglySorted iso_le weeks /\ NoDup weeks /\
    (forall wk, wk ∈ weeks <-> exists p, p ∈ filtered /\ weekOf (date p) = wk) /\
    (forall k, getUTCDay (DateOfISO (weekOf k)) = 1 /\
               DateOfISO (weekOf k) <= DateOfISO k <= DateOfISO (weekOf k) + 6) /\
    (forall wk p n,
       daysBack (date p) n =
       toISODate (DateOfISO (daysBack wk n) + (DateOfISO (date p) - DateOfISO wk))) /\
    (forall wk,
       let recs := weekRecords filtered wk in
       let pt := weekPoint store filtered wk in
       let prevYoY := sumFound (omap (fun p => store !! daysBack (date p) 364) recs) in
       let prevWoW := sumFound (omap (fun p => store !! daysBack (date p) 7) recs) in
       units pt = sumQ (value <$> recs) /\
       prev_year_units pt = prevYoY /\
       yoy_pct pt = growthOver (units pt) prevYoY /\
       mom_pct pt = growthOver (units pt) prevWoW /\
       ((forall p, p ∈ recs -> store !! daysBack (date p) 364 = None) ->
        prev_year_units pt = None /\ yoy_pct pt = None) /\
       ((forall p, p ∈ recs -> store !! daysBack (date p) 7 = None) ->
        mom_pct pt = None)).
Proof.
  intros f t store filtered Hl ND Hk.
  assert (NDf : NoDup (date <$> filtered)) by now apply filter_dates_NoDup.
  assert (Vf : Forall validISO (date <$> filtered)).
  { apply filter_dates_Forall. eapply Forall_impl; [exact Hk|]. now intros k [_ V]. }
  exists (sortedKeys (foldl weekStep (∅, ∅) filtered).1).
  split; [|split; [|split; [|split; [|split; [|split]]]]].
  - unfold dailyForChart. rewrite Hl. cbv zeta. fold f t store filtered.
    f_equal. apply list_fmap_ext. intros i wk _.
    now apply weekPointOf_spec.
  - apply sortedKeys_sorted.
  - apply sortedKeys_NoDup.
  - intros wk. rewrite sortedKeys_elem.
    destruct (weekStep_tables filtered NDf Vf wk) as [-> _].
    destruct (weekRecords filtered wk) as [|q recs] eqn:ER; cbn [entryOf].
    + split; [intros [v Hv]; discriminate|].
      intros (p & Hp & Hw). exfalso.
      assert (Hin : p ∈ weekRecords filtered wk) by now apply weekRecords_elem.
      rewrite ER in Hin. inversion Hin.
    + split; [intros _|intros _; eauto].
      exists q. apply weekRecords_elem. rewrite ER. apply list_elem_of_here.
  - apply weekOf_monday.
  - intros wk p n. unfold daysBack. rewrite DateOfISO_toISODate. f_equal. lia.
  - intros wk. cbv zeta. unfold weekPoint. cbv zeta.
    cbn [units prev_year_units yoy_pct mom_pct].
    split; [reflexivity|]. split; [reflexivity|].
    split; [reflexivity|]. split; [reflexivity|]. split.
    + intros H. now rewrite (omap_all_None _ _ H).
    + intros H. now rewrite (omap_all_None _ _ H).
Qed.

Lemma weekly_series_witness :
  exists weeks : list iso,
    dailyForChart 0 monTueData None None 120 weekly =
    Some (weekPoint (dailyLookupOf monTueData)
            (inRange (Iso 2023 9 11) (Iso 2024 1 9) monTueData) <$> weeks).
Proof.
  destruct (weekly_series 0 monTueData (sampleDay 2024 1 9 40) None None 120)
    as (weeks & H & _).
  - reflexivity.
  - apply (bool_decide_unpack _). vm_compute. exact I.
  - change (Forall keyDate [Iso 2023 1 9; Iso 2023 1 11; Iso 2024 1 8; Iso 2024 1 9]).
    repeat (constructor; [literal_date|]). constructor.
  - exists weeks. exact H.
Defined.

(** The week of Monday 8 January 2024 has records on its Monday and its
    Tuesday; of the week 364 days earlier only the Monday value 5 counts,
    the Wednesday value is left out; with no value 7 days earlier the week
    over week growth is null. *)
Lemma weekly_offsets_example :
  dailyForChart 0 monTueData None None 120 weekly =
  Some [ {| label := "Wk of 08-01-2024";
            units := 70;
            prev_year_units := Some 5%Q;
            yoy_pct := growthPct 70 (Some 5%Q);
            mom_pct := None |} ].
Proof. vm_compute. reflexivity. Qed.

(** * The monthly table *)

Lemma ym_leb_total (a b : ym) : ym_leb a b = true \/ ym_leb b a = true.
Proof.
  unfold ym_leb.
  rewrite !orb_true_iff, !andb_true_iff, !Z.ltb_lt, !Z.eqb_eq, !Z.leb_le. lia.
Qed.

Lemma ym_leb_trans (a b c : ym) :
  ym_leb a b = true -> ym_leb b c = true -> ym_leb a c = true.
Proof.
  unfold ym_leb.
  rewrite !orb_true_iff, !andb_true_iff, !Z.ltb_lt, !Z.eqb_eq, !Z.leb_le. lia.
Qed.

#[global] Instance ym_le_total : Total ym_le.
Proof. intros a b. unfold ym_le. rewrite !Is_true_true. apply ym_leb_total. Qed.

#[global] Instance ym_le_trans : Transitive ym_le.
Proof. intros a b c. unfold ym_le. rewrite !Is_true_true. apply ym_leb_trans. Qed.

Lemma sortedMonths_elem {V : Type} (map : gmap ym V) (m : ym) :
  m ∈ sortedMonths map <-> is_Some (map !! m).
Proof.
  unfold sortedMonths. rewrite merge_sort_Permutation.
  rewrite list_elem_of_fmap. split.
  - intros ([k' v] & -> & H). apply elem_of_map_to_list in H. cbn. now exists v.
  - intros [v H]. exists (m, v). split; [reflexivity|]. now apply elem_of_map_to_list.
Qed.

Lemma sortedMonths_NoDup {V : Type} (map : gmap ym V) : NoDup (sortedMonths map).
Proof.
  unfold sortedMonths. rewrite merge_sort_Permutation. apply NoDup_fst_map_to_list.
Qed.

Lemma sortedMonths_sorted {V : Type} (map : gmap ym V) :
  StronglySorted ym_le (sortedMonths map).
Proof. apply StronglySorted_merge_sort; apply _. Qed.

Lemma filter_none {A : Type} (g : A -> bool) (l : list A) :
  (forall x, x ∈ l -> g x = false) -> List.filter g l = [].
Proof.
  induction l as [|x l IH]; intros H; [reflexivity|]. cbn.
  rewrite (H x) by apply list_elem_of_here.
  apply IH. intros y Hy. apply H. now apply list_elem_of_further.
Qed.

Lemma monthRecords_snoc (l : list DailyPoint) (p : DailyPoint) (m : ym) :
  monthRecords (l ++ [p]) m =
  monthRecords l m ++ (if bool_decide (monthKey (date p) = m) then [p] else []).
Proof. unfold monthRecords. now rewrite List.filter_app. Qed.

Lemma monthRecords_elem (l : list DailyPoint) (m : ym) (p : DailyPoint) :
  p ∈ monthRecords l m <-> p ∈ l /\ monthKey (date p) = m.
Proof.
  unfold monthRecords. rewrite !list_elem_of_In, filter_In, bool_decide_eq_true.
  tauto.
Qed.

Lemma valuesAt_snoc (l : list DailyPoint) (p : DailyPoint) (k : iso) :
  valuesAt (l ++ [p]) k =
  valuesAt l k ++ (if bool_decide (date p = k) then [value p] else []).
Proof.
  unfold valuesAt. rewrite List.filter_app, fmap_app. cbn [List.filter].
  now destruct (bool_decide (date p = k)).
Qed.

Lemma sumFound_snoc (vs : list Q) (v : Q) :
  sumFound (vs ++ [v]) = Some (default 0%Q (sumFound vs) + v)%Q.
Proof.
  destruct vs as [|w vs]; [reflexivity|].
  change (sumFound ((w :: vs) ++ [v])) with (Some (sumQ ((w :: vs) ++ [v]))).
  now rewrite sumQ_snoc.
Qed.

Lemma maxDayOf_snoc (recs : list DailyPoint) (p : DailyPoint) :
  maxDayOf (recs ++ [p]) = Z.max (maxDayOf recs) (dy (date p)).
Proof. unfold maxDayOf. now rewrite fmap_app, foldl_app. Qed.

(** The table of months after the records [l]. *)
Lemma buildMonthDayMap_table (l : list DailyPoint) (m : ym) :
  match buildMonthDayMap l !! m with
  | None => monthRecords l m = []
  | Some rec =>
      monthRecords l m <> [] /\
      total rec = sumQ (value <$> monthRecords l m) /\
      maxDay rec = maxDayOf (monthRecords l m) /\
      forall day, byDay rec !! day = sumFound (valuesAt l (Iso m.1 m.2 day))
  end.
Proof.
  induction l as [|p l IH] using rev_ind.
  - unfold buildMonthDayMap. cbn. now rewrite lookup_empty.
  - unfold buildMonthDayMap in *. rewrite foldl_app. cbn [foldl].
    unfold monthDayStep at 1. cbv zeta. rewrite monthRecords_snoc.
    destruct (decide (monthKey (date p) = m)) as [E|NE].
    + rewrite E, lookup_insert_eq, bool_decide_eq_true_2 by reflexivity.
      assert (R : let rec := default emptyMonthRec (foldl monthDayStep ∅ l !! m) in
                  total rec = sumQ (value <$> monthRecords l m) /\
                  maxDay rec = maxDayOf (monthRecords l m) /\
                  forall day, byDay rec !! day = sumFound (valuesAt l (Iso m.1 m.2 day))).
      { cbv zeta. destruct (foldl monthDayStep ∅ l !! m) as [rec|]; cbn [default].
        - tauto.
        - rewrite IH. repeat split. intros day. cbn [byDay emptyMonthRec].
          rewrite lookup_empty. unfold valuesAt.
          assert (F : List.filter (fun q => bool_decide (date q = Iso m.1 m.2 day)) l = []).
          { apply filter_none. intros q Hq.
            apply bool_decide_eq_false_2. intros Eq.
            assert (Hin : q ∈ monthRecords l m).
            { apply monthRecords_elem. split; [exact Hq|].
              unfold monthKey. rewrite Eq. now destruct m. }
            rewrite IH in Hin. inversion Hin. }
          now rewrite F. }
      cbv zeta in R. destruct R as (Rt & Rm & Rd).
      cbn [total maxDay byDay]. split; [|split; [|split]].
      * now destruct (monthRecords l m).
      * rewrite Rt, fmap_app. cbn [fmap list_fmap]. now rewrite sumQ_snoc.
      * now rewrite Rm, maxDayOf_snoc.
      * intros day. rewrite valuesAt_snoc.
        destruct (decide (dy (date p) = day)) as [Ed|Nd].
        -- rewrite Ed, lookup_insert_eq.
           rewrite bool_decide_eq_true_2
             by (rewrite <- E, <- Ed; unfold monthKey; cbn; now destruct (date p)).
           now rewrite sumFound_snoc, Rd.
        -- rewrite lookup_insert_ne by exact Nd.
           rewrite bool_decide_eq_false_2
             by (intros Eq; apply Nd; now rewrite Eq).
           now rewrite app_nil_r.
    + rewrite lookup_insert_ne by exact NE.
      rewrite bool_decide_eq_false_2 by exact NE. rewrite app_nil_r.
      destruct (foldl monthDayStep ∅ l !! m) as [rec|]; [|exact IH].
      destruct IH as (I1 & I2 & I3 & I4). repeat split; try assumption.
      intros day. rewrite valuesAt_snoc, I4.
      rewrite bool_decide_eq_false_2; [now rewrite app_nil_r|].
      intros Eq. apply NE. unfold monthKey. rewrite Eq. now destruct m.
Qed.

Lemma foldl_sumDay (table : gmap Z Q) (days : list Z) (s : Q) (h : bool) :
  foldl (sumDayStep table) (s, h) days =
  (foldl Qplus s (omap (fun day => table !! day) days),
   h || negb (Nat.eqb (length (omap (fun day => table !! day) days)) 0)).
Proof.
  revert s h. induction days as [|day days IH]; intros s h; cbn [foldl omap list_omap].
  - cbn. now rewrite orb_false_r.
  - unfold sumDayStep at 2. destruct (table !! day) as [v|]; cbn [fst snd].
    + rewrite IH. cbn [foldl length Nat.eqb negb]. now rewrite orb_true_r.
    + apply IH.
Qed.

Lemma omap_ext_all {A B : Type} (g1 g2 : A -> option B) (l : list A) :
  (forall x, g1 x = g2 x) -> omap g1 l = omap g2 l.
Proof.
  intros H. induction l as [|x l IH]; [reflexivity|]. cbn. now rewrite H, IH.
Qed.

Lemma valuesAt_no_month (l : list DailyPoint) (m : ym) (day : Z) :
  monthRecords l m = [] -> valuesAt l (Iso m.1 m.2 day) = [].
Proof.
  intros E. unfold valuesAt. rewrite filter_none; [reflexivity|].
  intros q Hq. apply bool_decide_eq_false_2. intros Eq.
  assert (Hin : q ∈ monthRecords l m).
  { apply monthRecords_elem. split; [exact Hq|].
    unfold monthKey. rewrite Eq. now destruct m. }
  rewrite E in Hin. inversion Hin.
Qed.

(** [sumMonthUpToDay] on the table of months adds the values stored on the
    days 1 to [dayLimit] of the month. *)
Lemma sumMonthUpToDay_spec (l : list DailyPoint) (m : ym) (dayLimit : Z) :
  sumMonthUpToDay (buildMonthDayMap l !! m) dayLimit = comparableSum l m dayLimit.
Proof.
  pose proof (buildMonthDayMap_table l m) as T.
  unfold sumMonthUpToDay, comparableSum.
  destruct (buildMonthDayMap l !! m) as [rec|].
  - destruct T as (_ & _ & _ & Td). cbv zeta.
    rewrite foldl_sumDay. cbn [fst snd orb].
    rewrite (omap_ext_all _ (fun day => sumFound (valuesAt l (Iso m.1 m.2 day))) _ Td).
    now destruct (omap _ (seqZ 1 dayLimit)).
  - rewrite (omap_ext_all _ (fun _ => None)).
    + now induction (seqZ 1 dayLimit).
    + intros day. now rewrite valuesAt_no_month.
Qed.

(** Outside the two digit years [addMonths(m, -1)] is the month before. *)
Lemma addMonths_prev (m : ym) :
  1 <= m.2 <= 12 -> 100 <= m.1 -> addMonths m (-1) = prevMonthOf m.
Proof.
  intros Hm Hy. unfold addMonths, DateUTC, getYear, getMonth. cbv zeta.
  replace ((0 <=? m.1) && (m.1 <=? 99)) with false
    by (symmetry; apply andb_false_iff; right; apply Z.leb_gt; lia).
  replace (m.2 - 1 + -1) with (m.2 - 2) by lia.
  rewrite prevMonth_MakeDay by exact Hm.
  set (pm := prevMonthOf (m.1, m.2)).
  assert (Hpm : 1 <= pm.2 <= 12).
  { subst pm. unfold prevMonthOf. cbn [fst snd].
    destruct (m.2 =? 1) eqn:E; rewrite ?Z.eqb_eq, ?Z.eqb_neq in E; cbn [fst snd]; lia. }
  pose proof (daysInMonth_bounds pm.1 pm.2) as B.
  rewrite <- daysFromCivil_day.
  destruct (getters_civil pm.1 pm.2 1) as (-> & -> & _); [split; lia|].
  subst pm. destruct m as [y mo']. cbn [fst snd].
  destruct (prevMonthOf (y, mo')) as [py pm']. cbn [fst snd]. f_equal. lia.
Qed.

Lemma maxDayOf_upper (recs : list DailyPoint) (p : DailyPoint) :
  p ∈ recs -> dy (date p) <= maxDayOf recs.
Proof.
  induction recs as [|q recs IH] using rev_ind; intros Hin; [inversion Hin|].
  rewrite maxDayOf_snoc. apply elem_of_app in Hin as [Hin|Hin].
  - specialize (IH Hin). lia.
  - apply list_elem_of_singleton in Hin. subst q. lia.
Qed.

Lemma maxDayOf_attained (recs : list DailyPoint) :
  recs <> [] -> (forall p, p ∈ recs -> 0 <= dy (date p)) ->
  exists p, p ∈ recs /\ dy (date p) = maxDayOf recs.
Proof.
  induction recs as [|q recs IH] using rev_ind; intros NE Hpos; [contradiction|].
  rewrite maxDayOf_snoc.
  assert (Hq : 0 <= dy (date q)).
  { apply Hpos. apply elem_of_app. right. apply list_elem_of_here. }
  destruct recs as [|r recs'].
  - exists q. split; [apply list_elem_of_here|]. unfold maxDayOf. cbn. lia.
  - destruct IH as (p & Hp & Ep); [discriminate| |].
    + intros p Hp. apply Hpos. apply elem_of_app. now left.
    + destruct (Z.le_gt_cases (dy (date q)) (maxDayOf (r :: recs'))) as [H|H].
      * exists p. split; [apply elem_of_app; now left|lia].
      * exists q. split; [apply elem_of_app; right; apply list_elem_of_here|lia].
Qed.

Lemma toMonthly_rows (l : list DailyPoint) :
  Forall keyDate (date <$> l) ->
  toMonthly l = monthlyRow l <$> sortedMonths (buildMonthDayMap l).
Proof.
  intros Hk. unfold toMonthly. cbv zeta.
  apply list_fmap_ext. intros i m Hm.
  apply list_elem_of_lookup_2, sortedMonths_elem in Hm as [rec Hrec].
  pose proof (buildMonthDayMap_table l m) as T. rewrite Hrec in T.
  destruct T as (NE & Tt & Tm & _).
  rewrite Hrec. cbn [default from_option]. unfold id. rewrite !sumMonthUpToDay_spec.
  assert (Hmk : 1 <= m.2 <= 12 /\ 100 <= m.1).
  { destruct (monthRecords l m) as [|q recs] eqn:ER; [contradiction|].
    assert (Hq : q ∈ monthRecords l m) by (rewrite ER; apply list_elem_of_here).
    apply monthRecords_elem in Hq as [Hq <-].
    rewrite Forall_forall in Hk.
    destruct (Hk (date q)) as [Hy [Hmo _]];
      [apply list_elem_of_fmap; now exists q|].
    cbn. lia. }
  rewrite addMonths_prev by tauto.
  unfold monthlyRow, prevYearMonthOf, getYear, getMonth, growthOver. cbv zeta.
  now rewrite Tt, Tm.
Qed.

(** C1. The monthly table has one row for each calendar month that holds
    a record, in month order; the total of a row is the sum of the values
    of the month and its [max_day] is the greatest day of the month that
    holds a record; the month over month comparator adds the values stored
    on the days 1 to [max_day] of the month before, the year over year
    comparator those of the same month one year earlier, and the growth is
    null when the comparison month holds no value on these days.  With
    records for 2024-01-01..10 and 2024-02-01..05 the February comparator
    is the sum of January 1 to 5. *)
Theorem monthly_table (sortedDaily : list DailyPoint) :
  Forall keyDate (date <$> sortedDaily) ->
  (exists months : list ym,
     toMonthly sortedDaily = monthlyRow sortedDaily <$> months /\
     StronglySorted ym_le months /\ NoDup months /\
     forall m, m ∈ months <-> exists p, p ∈ sortedDaily /\ monthKey (date p) = m) /\
  (forall m,
     let recs := monthRecords sortedDaily m in
     let row := monthlyRow sortedDaily m in
     let prevMoM := comparableSum sortedDaily (prevMonthOf m) (MonthlyRow.max_day row) in
     let prevYoY := comparableSum sortedDaily (m.1 - 1, m.2) (MonthlyRow.max_day row) in
     MonthlyRow.total_gwh row = sumQ (value <$> recs) /\
     (forall p, p ∈ recs -> dy (date p) <= MonthlyRow.max_day row) /\
     (recs <> [] -> exists p, p ∈ recs /\ dy (date p) = MonthlyRow.max_day row) /\
     MonthlyRow.mom_pct row = growthOver (MonthlyRow.total_gwh row) prevMoM /\
     MonthlyRow.yoy_pct row = growthOver (MonthlyRow.total_gwh row) prevYoY /\
     (prevMoM = None -> MonthlyRow.mom_pct row = None) /\
     (prevYoY = None -> MonthlyRow.yoy_pct row = None)) /\
  (toMonthly janFeb2024 =
     [ {| MonthlyRow.month := (2024, 1); MonthlyRow.total_gwh := 550;
          MonthlyRow.max_day := 10; MonthlyRow.yoy_pct := None;
          MonthlyRow.mom_pct := None |};
       {| MonthlyRow.month := (2024, 2); MonthlyRow.total_gwh := 35;
          MonthlyRow.max_day := 5; MonthlyRow.yoy_pct := None;
          MonthlyRow.mom_pct := growthPct 35 (Some 150%Q) |} ] /\
   comparableSum janFeb2024 (prevMonthOf (2024, 2)) 5 = Some 150%Q /\
   comparableSum janFeb2024 (2024, 1) 10 = Some 550%Q).
Proof.
  intros Hk. split; [|split].
  - exists (sortedMonths (buildMonthDayMap sortedDaily)).
    split; [now apply toMonthly_rows|].
    split; [apply sortedMonths_sorted|]. split; [apply sortedMonths_NoDup|].
    intros m. rewrite sortedMonths_elem.
    pose proof (buildMonthDayMap_table sortedDaily m) as T.
    destruct (buildMonthDayMap sortedDaily !! m) as [rec|].
    + destruct T as (NE & _). split; [intros _|intros _; eauto].
      destruct (monthRecords sortedDaily m) as [|q recs] eqn:ER; [contradiction|].
      exists q. apply monthRecords_elem. rewrite ER. apply list_elem_of_here.
    + split; [intros [v Hv]; discriminate|].
      intros (p & Hp & Hm). exfalso.
      assert (Hin : p ∈ monthRecords sortedDaily m) by now apply monthRecords_elem.
      rewrite T in Hin. inversion Hin.
  - intros m. cbv zeta. unfold monthlyRow. cbv zeta.
    cbn [MonthlyRow.total_gwh MonthlyRow.max_day MonthlyRow.mom_pct MonthlyRow.yoy_pct].
    split; [reflexivity|]. split; [apply maxDayOf_upper|]. split.
    { intros NE. apply maxDayOf_attained; [exact NE|].
      intros p Hp. apply monthRecords_elem in Hp as [Hp _].
      rewrite Forall_forall in Hk.
      destruct (Hk (date p)) as [_ [_ Hd]]; [apply list_elem_of_fmap; now exists p|].
      lia. }
    split; [reflexivity|]. split; [reflexivity|].
    split; now intros ->.
  - split; [|split]; vm_compute; reflexivity.
Qed.

Lemma monthly_table_witness :
  exists months : list ym,
    toMonthly janFeb2024 = monthlyRow janFeb2024 <$> months /\
    StronglySorted ym_le months /\ NoDup months /\
    forall m, m ∈ months <-> exists p, p ∈ janFeb2024 /\ monthKey (date p) = m.
Proof.
  apply (monthly_table janFeb2024).
  apply Forall_forall. intros k Hk.
  apply list_elem_of_fmap in Hk as (p & -> & Hp).
  unfold janFeb2024 in Hp. apply elem_of_app in Hp as [Hp|Hp];
    apply list_elem_of_fmap in Hp as (d & -> & Hd); apply elem_of_seqZ in Hd;
    unfold keyDate, validISO, validYMD, sampleDay; cbn [date yr mo dy].
  - change (daysInMonth 2024 1) with 31. lia.
  - change (daysInMonth 2024 2) with 29. lia.
Defined.

(** * CSV ingestion *)

Lemma row_outcome (i : Z) (row : list string) :
  (is_Some (rowRecord row) /\ rowError i row = None) \/
  (rowRecord row = None /\ is_Some (rowError i row)).
Proof.
  unfold rowRecord, rowError.
  destruct (parseInputDate (cell row 0)) as [dt|]; [|right; eauto].
  destruct (Number (removeCommas (cell row 1))) as [|neg|q]; [right; eauto..|].
  destruct (Qle_bool 0 q); [left|right]; eauto.
Qed.

Lemma csvRowStep_outcome (i : Z) (r : CsvResult) (row : list string) :
  csvRowStep (i, r) row =
  (i + 1, {| parsed := parsed r ++ option_list (rowRecord row);
             errors := errors r ++ option_list (rowError i row) |}).
Proof.
  unfold csvRowStep, rowRecord, rowError. cbn [fst snd].
  destruct (parseInputDate (cell row 0)) as [dt|]; cbn [option_list].
  - destruct (Number (removeCommas (cell row 1))) as [|neg|q]; cbn [option_list];
      rewrite ?app_nil_r; try reflexivity.
    destruct (Qle_bool 0 q); cbn [option_list]; now rewrite ?app_nil_r.
  - now rewrite app_nil_r.
Qed.

Lemma csvRows_fold (rows : list (list string)) (i : Z) (r : CsvResult) :
  foldl csvRowStep (i, r) rows =
  (i + Z.of_nat (length rows),
   {| parsed := parsed r ++ omap rowRecord rows;
      errors := errors r ++
                omap id (imap (fun n row => rowError (i + Z.of_nat n) row) rows) |}).
Proof.
  revert i r. induction rows as [|row rows IH]; intros i r.
  - cbn. rewrite !app_nil_r, Z.add_0_r. now destruct r.
  - cbn [foldl]. rewrite csvRowStep_outcome, IH. cbn [parsed errors length].
    f_equal; [lia|].
    cbn [omap list_omap imap]. rewrite Z.add_0_r.
    f_equal.
    + rewrite <- app_assoc. f_equal. now destruct (rowRecord row).
    + rewrite <- app_assoc. f_equal.
      replace (omap id (imap ((fun n row0 => rowError (i + Z.of_nat n) row0) ∘ S) rows))
        with (omap id (imap (fun n row0 => rowError (i + 1 + Z.of_nat n) row0) rows)).
      * now destruct (rowError i row).
      * f_equal. apply imap_ext. intros n x _. cbn. f_equal. lia.
Qed.

(** The records are the rows that give one, in order; the messages those of
    the other rows, in order. *)
Lemma csvParseRows_spec (rows : list (list string)) :
  parsed (csvParseRows rows) = omap rowRecord rows /\
  errors (csvParseRows rows) =
    omap id (imap (fun n row => rowError (Z.of_nat n) row) rows).
Proof.
  unfold csvParseRows. rewrite csvRows_fold. cbn [fst snd parsed errors]. split.
  - reflexivity.
  - f_equal.
Qed.

Lemma omap_lengths (rows : list (list string)) (i : Z) :
  (length (omap rowRecord rows) +
   length (omap id (imap (fun n row => rowError (i + Z.of_nat n) row) rows)))%nat =
  length rows.
Proof.
  revert i. induction rows as [|row rows IH]; intros i; [reflexivity|].
  cbn [omap list_omap imap length]. rewrite Z.add_0_r.
  replace (omap id (imap ((fun n row0 => rowError (i + Z.of_nat n) row0) ∘ S) rows))
    with (omap id (imap (fun n row0 => rowError (i + 1 + Z.of_nat n) row0) rows))
    by (f_equal; apply imap_ext; intros n x _; cbn; f_equal; lia).
  specialize (IH (i + 1)).
  destruct (row_outcome i row) as [[[r Hr] He]|[Hr [e He]]]; rewrite Hr, He; cbn; lia.
Qed.

(** As many records as good rows, as many messages as bad rows. *)
Lemma record_error_counts (rows : list (list string)) (i : Z) :
  length (omap rowRecord rows) =
    length (List.filter (fun row => bool_decide (is_Some (rowRecord row))) rows) /\
  length (omap id (imap (fun n row => rowError (i + Z.of_nat n) row) rows)) =
    length (List.filter (fun row => negb (bool_decide (is_Some (rowRecord row)))) rows).
Proof.
  revert i. induction rows as [|row rows IH]; intros i; [split; reflexivity|].
  cbn [omap list_omap imap length List.filter]. rewrite Z.add_0_r.
  replace (omap id (imap ((fun n row0 => rowError (i + Z.of_nat n) row0) ∘ S) rows))
    with (omap id (imap (fun n row0 => rowError (i + 1 + Z.of_nat n) row0) rows))
    by (f_equal; apply imap_ext; intros n x _; cbn; f_equal; lia).
  destruct (IH (i + 1)) as [IH1 IH2].
  destruct (row_outcome i row) as [[[r Hr] He]|[Hr [e He]]]; rewrite Hr, He.
  - rewrite bool_decide_true by eauto. cbn [negb length id]. now rewrite IH1, IH2.
  - rewrite bool_decide_false by (intros [? ?]; discriminate).
    cbn [negb length id]. now rewrite IH1, IH2.
Qed.

(** C9. [csvParse] is total.  Each retained row gives either one record,
    when its date parses and its value is a finite number that is not
    negative, or one message carrying its row number and the reason, never
    both and never neither; records and messages keep the order of the
    rows; there are as many records as good rows and as many messages as
    bad rows.  A text with three good rows, a row with a bad date and a row
    with a negative value gives three records and two messages. *)
Theorem csvParse_rows (text valueColumnKey : string) :
  let rows := dropHeader valueColumnKey (csvRows text) in
  let result := csvParse text valueColumnKey in
  parsed result = omap rowRecord rows /\
  errors result = omap id (imap (fun n row => rowError (Z.of_nat n) row) rows) /\
  (length (parsed result) + length (errors result))%nat = length rows /\
  length (parsed result) =
    length (List.filter (fun row => bool_decide (is_Some (rowRecord row))) rows) /\
  length (errors result) =
    length (List.filter (fun row => negb (bool_decide (is_Some (rowRecord row)))) rows) /\
  (forall n row, rows !! n = Some row ->
     ((is_Some (rowRecord row) /\ rowError (Z.of_nat n) row = None) \/
      (rowRecord row = None /\ is_Some (rowError (Z.of_nat n) row))) /\
     (forall r, rowRecord row = Some r <->
        exists q, parseInputDate (cell row 0) = Some (date r) /\
                  Number (removeCommas (cell row 1)) = JNum q /\
                  Qle_bool 0 q = true /\ value r = q) /\
     (forall e, rowError (Z.of_nat n) row = Some e ->
        (parseInputDate (cell row 0) = None /\
         e = "Row " +:+ showZ (Z.of_nat n + 1) +:+ ": invalid date '" +:+ cell row 0 +:+
             "' (expected DD-MM-YYYY)") \/
        (rowRecord row = None /\
         e = "Row " +:+ showZ (Z.of_nat n + 1) +:+ ": invalid value '" +:+ cell row 1 +:+
             "' (expected non-negative number)"))) /\
  csvParse fiveRowsText "generation_gwh" =
    {| parsed := [ {| date := Iso 2025 12 18; value := 4140 |};
                   {| date := Iso 2025 12 19; value := 8431 # 2 |};
                   {| date := Iso 2025 12 21; value := 4198 |} ];
       errors := [ "Row 2: invalid date '31-02-2025' (expected DD-MM-YYYY)";
                   "Row 4: invalid value '-5' (expected non-negative number)" ] |}.
Proof.
  cbv zeta. unfold csvParse.
  destruct (csvParseRows_spec (dropHeader valueColumnKey (csvRows text))) as [Hp He].
  split; [exact Hp|]. split; [exact He|]. split; [|split; [|split; [|split]]].
  - rewrite Hp, He.
    apply (omap_lengths (dropHeader valueColumnKey (csvRows text)) 0).
  - rewrite Hp.
    apply (record_error_counts (dropHeader valueColumnKey (csvRows text)) 0).
  - rewrite He.
    apply (record_error_counts (dropHeader valueColumnKey (csvRows text)) 0).
  - intros n row _. split; [apply row_outcome|]. split.
    + intros r. unfold rowRecord.
      destruct (parseInputDate (cell row 0)) as [dt|];
        [|split; [discriminate|intros (q & H & _); discriminate]].
      destruct (Number (removeCommas (cell row 1))) as [|neg|q];
        try (split; [discriminate|intros (q' & _ & H & _); discriminate]).
      destruct (Qle_bool 0 q) eqn:E.
      * split.
        -- intros H. injection H as <-. exists q. cbn. auto.
        -- intros (q' & H1 & H2 & _ & H4). injection H1 as ->. injection H2 as <-.
           destruct r; cbn in *. now subst.
      * split; [discriminate|].
        intros (q' & _ & H2 & H3 & _). injection H2 as <-. congruence.
    + intros e. unfold rowError, rowRecord, dateError, valueError.
      destruct (parseInputDate (cell row 0)) as [dt|].
      * destruct (Number (removeCommas (cell row 1))) as [|neg|q];
          try (intros H; injection H as <-; right; now split).
        destruct (Qle_bool 0 q); [discriminate|].
        intros H; injection H as <-; right; now split.
      * intros H; injection H as <-. left. now split.
  - vm_compute. reflexivity.
Qed.

Lemma csvParseRows_eq (rows : list (list string)) :
  csvParseRows rows =
  {| parsed := omap rowRecord rows;
     errors := omap id (imap (fun n row => rowError (Z.of_nat n) row) rows) |}.
Proof.
  destruct (csvParseRows_spec rows) as [Hp He].
  destruct (csvParseRows rows) as [p e]. cbn in Hp, He. now subst.
Qed.

Lemma cell_take2 (row : list string) (i : nat) :
  (i < 2)%nat -> cell (take 2 row) i = cell row i.
Proof. intros H. unfold cell. now rewrite lookup_take_lt. Qed.

Lemma rowRecord_take2 (row : list string) : rowRecord (take 2 row) = rowRecord row.
Proof. unfold rowRecord. now rewrite !cell_take2 by lia. Qed.

Lemma rowError_take2 (i : Z) (row : list string) :
  rowError i (take 2 row) = rowError i row.
Proof. unfold rowError. now rewrite !cell_take2 by lia. Qed.

Lemma isHeader_take2 (key : string) (row : list string) :
  isHeader key (take 2 row) = isHeader key row.
Proof. unfold isHeader. now rewrite !cell_take2 by lia. Qed.

Lemma dropHeader_take2 (key : string) (rows : list (list string)) :
  dropHeader key (take 2 <$> rows) = take 2 <$> dropHeader key rows.
Proof.
  destruct rows as [|row rows]; [reflexivity|].
  cbn [fmap list_fmap dropHeader]. rewrite isHeader_take2.
  now destruct (isHeader key row).
Qed.

Lemma csvParseRows_take2 (rows : list (list string)) :
  csvParseRows (take 2 <$> rows) = csvParseRows rows.
Proof.
  rewrite !csvParseRows_eq. f_equal.
  - apply list_omap_ext. induction rows as [|row rows IH]; constructor.
    + apply rowRecord_take2.
    + exact IH.
  - f_equal. rewrite imap_fmap. apply imap_ext. intros n row _. cbn.
    apply rowError_take2.
Qed.

Lemma rowsOfLines_app (a b : list string) :
  rowsOfLines (a ++ b) = rowsOfLines a ++ rowsOfLines b.
Proof.
  unfold rowsOfLines. now rewrite fmap_app, List.filter_app, fmap_app, List.filter_app.
Qed.

Lemma rowsOfLines_cons (line : string) (rest : list string) :
  rowsOfLines (line :: rest) =
  (if (2 <=? length (cellsOf (trim line)))%nat then [cellsOf (trim line)] else []) ++
  rowsOfLines rest.
Proof.
  unfold rowsOfLines. cbn [fmap list_fmap List.filter].
  destruct (nonEmpty (trim line)) eqn:E.
  - cbn [fmap list_fmap List.filter].
    now destruct (2 <=? length (cellsOf (trim line)))%nat.
  - unfold nonEmpty in E. apply negb_false_iff, String.eqb_eq in E. now rewrite E.
Qed.

(** C10. [csvParse] reads of every row only its first two cells: its result
    is the one of the rows cut down to two cells.  A line with further
    cells is kept as a row and gives the record, the message and the header
    test of its first two cells.  A line with fewer than two cells gives no
    row: the result is the one of the text without that line.  In the
    sample the four cell row gives its record, the line without a comma and
    the blank line give nothing, and the value 1,234.5 is read as 1. *)
Theorem csvParse_first_two_cells (valueColumnKey : string) :
  (forall text,
     csvParse text valueColumnKey = parseLines valueColumnKey (splitLines text) /\
     csvParse text valueColumnKey =
       csvParseRows (dropHeader valueColumnKey (take 2 <$> csvRows text))) /\
  (forall before line after d v extras,
     cellsOf (trim line) = d :: v :: extras ->
     rowsOfLines (before ++ line :: after) =
       rowsOfLines before ++ (d :: v :: extras) :: rowsOfLines after /\
     rowRecord (d :: v :: extras) = rowRecord [d; v] /\
     (forall i, rowError i (d :: v :: extras) = rowError i [d; v]) /\
     isHeader valueColumnKey (d :: v :: extras) = isHeader valueColumnKey [d; v]) /\
  (forall before line after,
     (length (cellsOf (trim line)) < 2)%nat ->
     rowsOfLines (before ++ line :: after) = rowsOfLines (before ++ after) /\
     parseLines valueColumnKey (before ++ line :: after) =
       parseLines valueColumnKey (before ++ after)) /\
  splitLines (joinWith (String LF "") extraCellsLines) = extraCellsLines /\
  csvParse (joinWith (String LF "") extraCellsLines) "generation_gwh" =
    {| parsed := [ {| date := Iso 2025 12 18; value := 4140 |};
                   {| date := Iso 2025 12 19; value := 29 # 4 |};
                   {| date := Iso 2025 12 20; value := 1 |} ];
       errors := [] |}.
Proof.
  split; [|split; [|split; [|split]]].
  - intros text. split; [reflexivity|].
    unfold csvParse. now rewrite dropHeader_take2, csvParseRows_take2.
  - intros before line after d v extras E.
    split; [|split; [|split]].
    + rewrite rowsOfLines_app, rowsOfLines_cons, E. reflexivity.
    + apply (rowRecord_take2 (d :: v :: extras)).
    + intros i. apply (rowError_take2 i (d :: v :: extras)).
    + apply (isHeader_take2 valueColumnKey (d :: v :: extras)).
  - intros before line after H.
    assert (R : rowsOfLines (before ++ line :: after) = rowsOfLines (before ++ after)).
    { rewrite !rowsOfLines_app, rowsOfLines_cons.
      destruct (Nat.leb_spec 2 (length (cellsOf (trim line)))); [lia|reflexivity]. }
    split; [exact R|]. unfold parseLines. now rewrite R.
  - vm_compute. reflexivity.
  - vm_compute. reflexivity.
Qed.

(** * Decimal digits *)

Lemma valOf_snoc (ds : list Z) (d : Z) : valOf (ds ++ [d]) = valOf ds * 10 + d.
Proof. unfold valOf. now rewrite foldl_snoc. Qed.

Lemma valOf_app (a b : list Z) :
  valOf (a ++ b) = valOf a * 10 ^ Z.of_nat (length b) + valOf b.
Proof.
  induction b as [|d b IH] using rev_ind.
  - rewrite app_nil_r. cbn [length]. change (valOf []) with 0. 
    change (10 ^ Z.of_nat 0) with 1. lia.
  - rewrite app_assoc, !valOf_snoc, IH, length_app. cbn [length].
    replace (Z.of_nat (length b + 1)) with (Z.of_nat (length b) + 1) by lia.
    rewrite Z.pow_add_r by lia. change (10 ^ 1) with 10. lia.
Qed.

Lemma digitsAux_spec (fuel : nat) (n : Z) (acc : list Z) :
  0 <= n < 2 ^ (Z.of_nat fuel + 1) ->
  exists ds,
    digitsAux fuel n acc = ds ++ acc /\ valOf ds = n /\ Forall digit ds /\
    (1 <= length ds)%nat /\ n < 10 ^ Z.of_nat (length ds) /\
    (0 < n -> 10 ^ (Z.of_nat (length ds) - 1) <= n).
Proof.
  revert n acc. induction fuel as [|fuel IH]; intros n acc H.
  - change (2 ^ (Z.of_nat 0 + 1)) with 2 in H.
    exists [n]. cbn [digitsAux length app].
    change (10 ^ Z.of_nat 1) with 10. change (10 ^ (Z.of_nat 1 - 1)) with 1.
    repeat split; try lia. constructor; [unfold digit; lia|constructor].
  - cbn [digitsAux]. destruct (Z.ltb_spec n 10) as [L|L].
    + exists [n]. cbn [length app].
      change (10 ^ Z.of_nat 1) with 10. change (10 ^ (Z.of_nat 1 - 1)) with 1.
      repeat split; try lia. constructor; [unfold digit; lia|constructor].
    + assert (B : 0 <= n / 10 < 2 ^ (Z.of_nat fuel + 1)).
      { replace (Z.of_nat (S fuel) + 1) with (Z.succ (Z.of_nat fuel + 1)) in H by lia.
        rewrite Z.pow_succ_r in H by lia. zdiv. }
      destruct (IH (n / 10) (n mod 10 :: acc) B) as (ds & E & V & F & L1 & U & Lo).
      exists (ds ++ [n mod 10]). rewrite E, <- app_assoc. split; [reflexivity|].
      rewrite valOf_snoc, V, length_app. cbn [length].
      replace (Z.of_nat (length ds + 1)) with (Z.succ (Z.of_nat (length ds))) by lia.
      rewrite Z.pow_succ_r by lia.
      replace (Z.succ (Z.of_nat (length ds)) - 1) with (Z.succ (Z.of_nat (length ds) - 1))
        by lia.
      rewrite Z.pow_succ_r by lia.
      split; [zdiv|]. split.
      { apply Forall_app. split; [exact F|]. constructor; [unfold digit; zdiv|constructor]. }
      split; [lia|]. split; [zdiv|].
      intros _. assert (0 < n / 10) by zdiv. specialize (Lo H0). zdiv.
Qed.

Lemma digitsOf_spec (n : Z) :
  0 <= n ->
  valOf (digitsOf n) = n /\ Forall digit (digitsOf n) /\
  (1 <= length (digitsOf n))%nat /\ n < 10 ^ Z.of_nat (length (digitsOf n)) /\
  (0 < n -> 10 ^ (Z.of_nat (length (digitsOf n)) - 1) <= n).
Proof.
  intros H. unfold digitsOf.
  assert (B : 0 <= n < 2 ^ (Z.of_nat (Z.to_nat (Z.log2 n)) + 1)).
  { rewrite Z2Nat.id by apply Z.log2_nonneg.
    destruct (Z.eq_dec n 0) as [->|NZ]; [now vm_compute|].
    pose proof (Z.log2_spec n ltac:(lia)) as S.
    replace (Z.log2 n + 1) with (Z.succ (Z.log2 n)) by lia. lia. }
  destruct (digitsAux_spec _ n [] B) as (ds & E & R).
  rewrite app_nil_r in E. rewrite E. exact R.
Qed.

Lemma digit_cases (d : Z) :
  digit d ->
  d = 0 \/ d = 1 \/ d = 2 \/ d = 3 \/ d = 4 \/ d = 5 \/ d = 6 \/ d = 7 \/ d = 8 \/ d = 9.
Proof. unfold digit. lia. Qed.

Lemma digitChar_digit (d : Z) :
  digit d -> isDigit (digitChar d) = true /\ digitVal (digitChar d) = d.
Proof.
  intros H. destruct (digit_cases d H) as [->|[->|[->|[->|[->|[->|[->|[->|[->| ->]]]]]]]]];
    now vm_compute.
Qed.

Lemma stringOfDigits_length (ds : list Z) :
  String.length (stringOfDigits ds) = length ds.
Proof. induction ds as [|d ds IH]; [reflexivity|]. cbn. now rewrite IH. Qed.

Lemma digitsOfString_stringOfDigits (ds : list Z) :
  Forall digit ds -> digitsOfString (stringOfDigits ds) = ds.
Proof.
  induction 1 as [|d ds H _ IH]; [reflexivity|].
  cbn [stringOfDigits digitsOfString]. rewrite IH.
  now destruct (digitChar_digit d H) as [_ ->].
Qed.

Lemma allDigits_stringOfDigits (ds : list Z) :
  Forall digit ds -> allDigits (stringOfDigits ds) = true.
Proof.
  induction 1 as [|d ds H _ IH]; [reflexivity|].
  cbn [stringOfDigits allDigits]. rewrite IH.
  now destruct (digitChar_digit d H) as [-> _].
Qed.

Lemma digitsOf_length_le (n : Z) (k : nat) :
  0 < n < 10 ^ Z.of_nat k -> (length (digitsOf n) <= k)%nat.
Proof.
  intros H. destruct (digitsOf_spec n ltac:(lia)) as (_ & _ & L & _ & Lo).
  specialize (Lo ltac:(lia)).
  assert (P : 10 ^ (Z.of_nat (length (digitsOf n)) - 1) < 10 ^ Z.of_nat k) by lia.
  apply Z.pow_lt_mono_r_iff in P; lia.
Qed.

Lemma digitsOf_length_ge (n : Z) (k : nat) :
  10 ^ (Z.of_nat k - 1) <= n -> (1 <= k)%nat -> (k <= length (digitsOf n))%nat.
Proof.
  intros H K.
  assert (0 < 10 ^ (Z.of_nat k - 1)) by (apply Z.pow_pos_nonneg; lia).
  destruct (digitsOf_spec n ltac:(lia)) as (_ & _ & L & U & _).
  assert (P : 10 ^ (Z.of_nat k - 1) < 10 ^ Z.of_nat (length (digitsOf n))) by lia.
  apply Z.pow_lt_mono_r_iff in P; lia.
Qed.

Lemma showZ_nonneg (n : Z) : 0 <= n -> showZ n = stringOfDigits (digitsOf n).
Proof. intros H. unfold showZ. now destruct (Z.ltb_spec n 0); [lia|]. Qed.

(** Two digits for a day or a month. *)
Lemma pad2_digits (d : Z) :
  0 <= d <= 99 -> padStart0 2 (showZ d) = stringOfDigits [d / 10; d mod 10].
Proof.
  intros H. rewrite showZ_nonneg by lia.
  destruct (Z.eq_dec d 0) as [->|NZ]; [now vm_compute|].
  destruct (digitsOf_spec d ltac:(lia)) as (V & F & L & _ & _).
  pose proof (digitsOf_length_le d 2 ltac:(change (10 ^ Z.of_nat 2) with 100; lia)) as L2.
  unfold padStart0. rewrite stringOfDigits_length.
  destruct (digitsOf d) as [|a [|b [|c ds]]]; cbn [length] in *; try lia.
  - unfold valOf in V. cbn [foldl] in V.
    apply Forall_cons in F as [Fa _]. unfold digit in Fa.
    replace (d / 10) with 0 by zdiv. replace (d mod 10) with a by zdiv. reflexivity.
  - unfold valOf in V. cbn [foldl] in V.
    apply Forall_cons in F as [Fa F]. apply Forall_cons in F as [Fb _].
    unfold digit in Fa, Fb.
    replace (d / 10) with a by zdiv. replace (d mod 10) with b by zdiv. reflexivity.
Qed.

(** Four digits for a year from 1000 to 9999. *)
Lemma pad4_digits (y : Z) :
  1000 <= y <= 9999 ->
  padStart0 4 (showZ y) =
  stringOfDigits [y / 1000; y / 100 mod 10; y / 10 mod 10; y mod 10].
Proof.
  intros H. rewrite showZ_nonneg by lia.
  destruct (digitsOf_spec y ltac:(lia)) as (V & F & _ & _ & _).
  pose proof (digitsOf_length_le y 4 ltac:(change (10 ^ Z.of_nat 4) with 10000; lia)) as L4.
  pose proof (digitsOf_length_ge y 4 ltac:(change (10 ^ (Z.of_nat 4 - 1)) with 1000; lia)
                ltac:(lia)) as G4.
  unfold padStart0. rewrite stringOfDigits_length.
  destruct (digitsOf y) as [|a [|b [|c [|e [|f ds]]]]]; cbn [length] in *; try lia.
  unfold valOf in V. cbn [foldl] in V.
  apply Forall_cons in F as [Fa F]. apply Forall_cons in F as [Fb F].
  apply Forall_cons in F as [Fc F]. apply Forall_cons in F as [Fe _].
  unfold digit in Fa, Fb, Fc, Fe.
  replace (y / 1000) with a by zdiv. replace (y / 100 mod 10) with b by zdiv.
  replace (y / 10 mod 10) with c by zdiv. replace (y mod 10) with e by zdiv.
  reflexivity.
Qed.

(** * Texts *)

Lemma allChars_app (P : ascii -> bool) (a b : string) :
  allChars P (a +:+ b) = allChars P a && allChars P b.
Proof.
  induction a as [|c a IH]; [reflexivity|].
  change (String c a +:+ b) with (String c (a +:+ b)).
  cbn [allChars]. now rewrite IH, andb_assoc.
Qed.

Lemma allChars_impl (P Q : ascii -> bool) (s : string) :
  (forall c, P c = true -> Q c = true) -> allChars P s = true -> allChars Q s = true.
Proof.
  intros I. induction s as [|c s IH]; [reflexivity|].
  cbn [allChars]. rewrite !andb_true_iff. intros [H1 H2]. auto.
Qed.

Lemma numChar_plain (c : ascii) :
  numChar c = true -> notWhite c = true /\ notComma c = true /\ notBreak c = true.
Proof.
  destruct c as [[] [] [] [] [] [] [] []]; vm_compute; intros H;
    try discriminate H; repeat split.
Qed.

Lemma isDigit_numChar (c : ascii) : isDigit c = true -> numChar c = true.
Proof. intros H. unfold numChar. now rewrite H. Qed.

Lemma trimStart_plain (s : string) : allChars notWhite s = true -> trimStart s = s.
Proof.
  destruct s as [|c s]; [reflexivity|]. cbn [allChars trimStart].
  unfold notWhite. rewrite andb_true_iff, negb_true_iff. now intros [-> _].
Qed.

Lemma trimEnd_plain (s : string) : allChars notWhite s = true -> trimEnd s = s.
Proof.
  induction s as [|c s IH]; [reflexivity|]. cbn [allChars trimEnd].
  unfold notWhite at 1. rewrite andb_true_iff, negb_true_iff. intros [W H].
  rewrite (IH H), W. now destruct s.
Qed.

Lemma trim_plain (s : string) : allChars notWhite s = true -> trim s = s.
Proof. intros H. unfold trim. now rewrite trimStart_plain, trimEnd_plain. Qed.

Lemma formatDDMMYYYY_text_chars (c1 c2 c3 c4 c5 c6 c7 c8 : ascii) :
  isDigit c1 = true -> isDigit c2 = true -> isDigit c3 = true -> isDigit c4 = true ->
  isDigit c5 = true -> isDigit c6 = true -> isDigit c7 = true -> isDigit c8 = true ->
  formatDDMMYYYY_text
    (String c1 (String c2 (String c3 (String c4 (String "-" (String c5 (String c6
      (String "-" (String c7 (String c8 "")))))))))) =
  String c7 (String c8 (String "-" (String c5 (String c6 (String "-"
    (String c1 (String c2 (String c3 (String c4 ""))))))))).
Proof.
  intros H1 H2 H3 H4 H5 H6 H7 H8.
  unfold formatDDMMYYYY_text, testISOShape.
  cbn [String.substring String.length allDigits].
  rewrite H1, H2, H3, H4, H5, H6, H7, H8.
  reflexivity.
Qed.

Lemma isDigit_plain (c : ascii) :
  isDigit c = true -> notWhite c = true /\ notComma c = true /\ notBreak c = true.
Proof. intros H. now apply numChar_plain, isDigit_numChar. Qed.

(** The text of a date with a four digit year. *)
Lemma formatDDMMYYYY_digits (k : iso) :
  fourDigitDate k ->
  formatDDMMYYYY k =
  stringOfDigits [dy k / 10; dy k mod 10] +:+ "-" +:+
  stringOfDigits [mo k / 10; mo k mod 10] +:+ "-" +:+
  stringOfDigits [yr k / 1000; yr k / 100 mod 10; yr k / 10 mod 10; yr k mod 10].
Proof.
  intros [Y [M D]].
  pose proof (daysInMonth_bounds (yr k) (mo k)) as B.
  unfold formatDDMMYYYY, isoText.
  rewrite pad4_digits by lia. rewrite !pad2_digits by lia.
  cbv [stringOfDigits String.append].
  apply formatDDMMYYYY_text_chars; apply digitChar_digit; unfold digit; zdiv.
Qed.

Lemma parseInputDate_chars (c1 c2 c3 c4 c5 c6 c7 c8 : ascii) :
  isDigit c1 = true -> isDigit c2 = true -> isDigit c3 = true -> isDigit c4 = true ->
  isDigit c5 = true -> isDigit c6 = true -> isDigit c7 = true -> isDigit c8 = true ->
  parseInputDate
    (String c1 (String c2 (String "-" (String c3 (String c4 (String "-"
      (String c5 (String c6 (String c7 (String c8 "")))))))))) =
  let dd := valOf [digitVal c1; digitVal c2] in
  let mm := valOf [digitVal c3; digitVal c4] in
  let yyyy := valOf [digitVal c5; digitVal c6; digitVal c7; digitVal c8] in
  let d := DateUTC yyyy (mm - 1) dd in
  if negb (getUTCFullYear d =? yyyy) || negb (getUTCMonth d =? mm - 1) ||
     negb (getUTCDate d =? dd)
  then None
  else Some (Iso yyyy mm dd).
Proof.
  intros H1 H2 H3 H4 H5 H6 H7 H8.
  unfold parseInputDate. rewrite trim_plain.
  - unfold testDMYShape.
    cbn [String.substring String.length allDigits].
    rewrite H1, H2, H3, H4, H5, H6, H7, H8.
    reflexivity.
  - cbn [allChars].
    rewrite (proj1 (isDigit_plain _ H1)), (proj1 (isDigit_plain _ H2)),
      (proj1 (isDigit_plain _ H3)), (proj1 (isDigit_plain _ H4)),
      (proj1 (isDigit_plain _ H5)), (proj1 (isDigit_plain _ H6)),
      (proj1 (isDigit_plain _ H7)), (proj1 (isDigit_plain _ H8)).
    reflexivity.
Qed.

(** The text [formatDDMMYYYY] writes for a date with a four digit year is
    read back as that date. *)
Lemma parseInputDate_format (k : iso) :
  fourDigitDate k -> parseInputDate (formatDDMMYYYY k) = Some k.
Proof.
  intros FD. rewrite formatDDMMYYYY_digits by exact FD.
  destruct FD as [Y V]. pose proof V as [M D].
  pose proof (daysInMonth_bounds (yr k) (mo k)) as B.
  cbv [stringOfDigits String.append].
  assert (D1 : digit (dy k / 10)) by (unfold digit; zdiv).
  assert (D0 : digit (dy k mod 10)) by (unfold digit; zdiv).
  assert (M1 : digit (mo k / 10)) by (unfold digit; zdiv).
  assert (M0 : digit (mo k mod 10)) by (unfold digit; zdiv).
  assert (Y3 : digit (yr k / 1000)) by (unfold digit; zdiv).
  assert (Y2 : digit (yr k / 100 mod 10)) by (unfold digit; zdiv).
  assert (Y1 : digit (yr k / 10 mod 10)) by (unfold digit; zdiv).
  assert (Y0 : digit (yr k mod 10)) by (unfold digit; zdiv).
  rewrite parseInputDate_chars by (apply digitChar_digit; assumption).
  rewrite !(proj2 (digitChar_digit _ D1)), !(proj2 (digitChar_digit _ D0)),
    !(proj2 (digitChar_digit _ M1)), !(proj2 (digitChar_digit _ M0)),
    !(proj2 (digitChar_digit _ Y3)), !(proj2 (digitChar_digit _ Y2)),
    !(proj2 (digitChar_digit _ Y1)), !(proj2 (digitChar_digit _ Y0)).
  unfold valOf. cbn [foldl].
  replace ((0 * 10 + dy k / 10) * 10 + dy k mod 10) with (dy k) by zdiv.
  replace ((0 * 10 + mo k / 10) * 10 + mo k mod 10) with (mo k) by zdiv.
  replace ((((0 * 10 + yr k / 1000) * 10 + yr k / 100 mod 10) * 10 + yr k / 10 mod 10) * 10
           + yr k mod 10) with (yr k) by zdiv.
  cbv zeta. unfold DateUTC.
  destruct (Z.leb_spec (yr k) 99) as [L|_]; [lia|]. rewrite andb_false_r.
  rewrite MakeDay_civil by exact M.
  destruct (getters_civil _ _ _ V) as (-> & -> & ->).
  rewrite !Z.eqb_refl. cbn [negb orb]. now destruct k.
Qed.

(** * The text of a number *)

Lemma append_nil_r (a : string) : a +:+ "" = a.
Proof.
  induction a as [|c a IH]; [reflexivity|].
  change (String c a +:+ "") with (String c (a +:+ "")). now rewrite IH.
Qed.

Lemma append_cons (c : ascii) (a b : string) : String c a +:+ b = String c (a +:+ b).
Proof. reflexivity. Qed.

Lemma append_assoc (a b c : string) : (a +:+ b) +:+ c = a +:+ (b +:+ c).
Proof.
  induction a as [|x a IH]; [reflexivity|]. now rewrite !append_cons, IH.
Qed.

Lemma stringOfDigits_app (a b : list Z) :
  stringOfDigits (a ++ b) = stringOfDigits a +:+ stringOfDigits b.
Proof.
  induction a as [|d a IH]; [reflexivity|].
  cbn [app stringOfDigits]. now rewrite append_cons, IH.
Qed.

Lemma allChars_digits (ds : list Z) :
  Forall digit ds -> allChars numChar (stringOfDigits ds) = true.
Proof.
  induction 1 as [|d ds H _ IH]; [reflexivity|].
  cbn [stringOfDigits allChars]. rewrite IH.
  now rewrite (isDigit_numChar _ (proj1 (digitChar_digit d H))).
Qed.

Lemma spanDigits_digits (ds : list Z) (rest : string) :
  Forall digit ds ->
  spanDigits (stringOfDigits ds +:+ rest) =
  (ds ++ (spanDigits rest).1, (spanDigits rest).2).
Proof.
  induction 1 as [|d ds H _ IH].
  - cbn [stringOfDigits app]. change ("" +:+ rest) with rest.
    now destruct (spanDigits rest).
  - cbn [stringOfDigits]. rewrite append_cons. cbn [spanDigits].
    destruct (digitChar_digit d H) as [-> ->]. now rewrite IH.
Qed.

Lemma spanDigits_all (ds : list Z) :
  Forall digit ds -> spanDigits (stringOfDigits ds) = (ds, EmptyString).
Proof.
  intros H. rewrite <- (append_nil_r (stringOfDigits ds)), spanDigits_digits by exact H.
  cbn. now rewrite app_nil_r.
Qed.

Lemma numChar_not_radix (p : ascii) :
  numChar p = true ->
  Ascii.eqb p "x" || Ascii.eqb p "X" = false /\
  Ascii.eqb p "o" || Ascii.eqb p "O" = false /\
  Ascii.eqb p "b" || Ascii.eqb p "B" = false.
Proof.
  destruct p as [[] [] [] [] [] [] [] []]; vm_compute; intros H;
    try discriminate H; repeat split.
Qed.

Lemma nonDecimalLiteral_plain (s : string) :
  allChars numChar s = true -> nonDecimalLiteral s = None.
Proof.
  destruct s as [|z [|p [|c r]]]; try reflexivity.
  cbn [allChars nonDecimalLiteral]. rewrite !andb_true_iff. intros (_ & P & _).
  destruct (numChar_not_radix p P) as (-> & -> & ->).
  now destruct (negb (Ascii.eqb z "0")).
Qed.

Lemma isDigit_first (c : ascii) :
  isDigit c = true ->
  Ascii.eqb c "+" = false /\ Ascii.eqb c "-" = false /\ Ascii.eqb c "I" = false /\
  Ascii.eqb c "." = false.
Proof.
  destruct c as [[] [] [] [] [] [] [] []]; vm_compute; intros H;
    try discriminate H; repeat split.
Qed.

Lemma allChars_decimalText (ip : list Z) (fp : option (list Z))
    (ex : option (bool * list Z)) :
  Forall digit ip -> Forall digit (fracDigits fp) ->
  (forall neg ed, ex = Some (neg, ed) -> Forall digit ed) ->
  allChars numChar (decimalText ip fp ex) = true.
Proof.
  intros Hi Hf He. unfold decimalText.
  rewrite !allChars_app, (allChars_digits _ Hi).
  destruct fp as [f|]; cbn [allChars fracDigits] in *.
  - rewrite (allChars_digits _ Hf).
    destruct ex as [[neg ed]|]; [|reflexivity].
    cbn [allChars]. rewrite (allChars_digits _ (He _ _ eq_refl)). now destruct neg.
  - destruct ex as [[neg ed]|]; [|reflexivity].
    cbn [allChars]. rewrite (allChars_digits _ (He _ _ eq_refl)). now destruct neg.
Qed.

Lemma unsignedDecimal_digit (c : ascii) (r : string) :
  isDigit c = true ->
  unsignedDecimal (String c r) =
    let '(ip, r1) := spanDigits (String c r) in
    let '(fp, r2) :=
      match r1 with
      | String "." r => spanDigits r
      | _ => ([], r1)
      end in
    match ip ++ fp with
    | [] => JNaN
    | ds => exponentPart (valOf ds) (Z.of_nat (length fp)) r2
    end.
Proof.
  intros H. unfold unsignedDecimal. cbn [String.eqb].
  destruct (isDigit_first c H) as (_ & _ & -> & _). reflexivity.
Qed.

Lemma exponentPart_text (mant fracLen : Z) (ex : option (bool * list Z)) :
  (forall neg ed, ex = Some (neg, ed) -> ed <> [] /\ Forall digit ed) ->
  exponentPart mant fracLen
    match ex with
    | Some (neg, ed) => String "e" (String (if neg then "-" else "+")%char (stringOfDigits ed))
    | None => EmptyString
    end =
  JNum (Qred (scale10 mant (match ex with
                           | Some (neg, ed) => if neg then - valOf ed else valOf ed
                           | None => 0
                           end - fracLen))).
Proof.
  intros He. destruct ex as [[neg ed]|]; [|reflexivity].
  destruct (He _ _ eq_refl) as [NE F].
  unfold exponentPart. cbn [Ascii.eqb Bool.eqb orb].
  destruct neg; rewrite (spanDigits_all _ F); destruct ed; try contradiction; reflexivity.
Qed.

Lemma spanDigits_expText (ex : option (bool * list Z)) :
  let t := match ex with
           | Some (neg, ed) =>
               String "e" (String (if neg then "-" else "+")%char (stringOfDigits ed))
           | None => EmptyString
           end in
  spanDigits t = ([], t).
Proof. now destruct ex as [[neg ed]|]. Qed.

Lemma Number_decimalText (ip : list Z) (fp : option (list Z))
    (ex : option (bool * list Z)) :
  ip <> [] -> Forall digit ip -> Forall digit (fracDigits fp) ->
  (forall neg ed, ex = Some (neg, ed) -> ed <> [] /\ Forall digit ed) ->
  Number (decimalText ip fp ex) = JNum (Qred (decimalValue ip fp ex)).
Proof.
  intros NE Hi Hf He.
  assert (P : allChars numChar (decimalText ip fp ex) = true).
  { apply allChars_decimalText; try assumption. intros neg ed E. now apply (He neg ed). }
  unfold Number. rewrite trim_plain
    by (eapply allChars_impl; [|exact P]; intros c Hc; now apply numChar_plain).
  pose proof (nonDecimalLiteral_plain _ P) as ND.
  set (tail := match fp with Some f => String "." (stringOfDigits f) | None => EmptyString end +:+
        match ex with
        | Some (neg, ed) => String "e" (String (if neg then "-" else "+")%char (stringOfDigits ed))
        | None => EmptyString
        end).
  assert (E : decimalText ip fp ex = stringOfDigits ip +:+ tail) by reflexivity.
  destruct ip as [|d ip]; [contradiction|].
  assert (Hd : isDigit (digitChar d) = true).
  { apply digitChar_digit. now apply Forall_cons in Hi as [? _]. }
  assert (E2 : decimalText (d :: ip) fp ex = String (digitChar d) (stringOfDigits ip +:+ tail))
    by reflexivity.
  rewrite E2 in ND |- *. rewrite ND.
  destruct (isDigit_first _ Hd) as (-> & -> & _ & _).
  rewrite unsignedDecimal_digit by exact Hd.
  rewrite <- E2, E, spanDigits_digits by exact Hi.
  unfold decimalValue, tail.
  destruct fp as [f|]; cbn [fracDigits] in *.
  - rewrite append_cons.
    change (spanDigits (String "." ?x)) with (@nil Z, String "." x).
    cbn [fst snd]. rewrite app_nil_r, spanDigits_digits by exact Hf.
    rewrite spanDigits_expText. cbn [fst snd]. rewrite app_nil_r.
    cbn [app]. now rewrite exponentPart_text.
  - change ("" +:+ ?x) with x.
    rewrite spanDigits_expText. cbn [fst snd]. rewrite !app_nil_r.
    assert (M : forall x : string, x = match ex with
      | Some (neg, ed) => String "e" (String (if neg then "-" else "+")%char (stringOfDigits ed))
      | None => EmptyString
      end -> match x with String "." r => spanDigits r | _ => (@nil Z, x) end = ([], x)).
    { intros x ->. now destruct ex as [[neg ed]|]. }
    rewrite (M _ eq_refl). cbn [app length]. rewrite app_nil_r.
    now rewrite exponentPart_text.
Qed.

Lemma zeros_digits (j : nat) : zeros j = stringOfDigits (replicate j 0).
Proof. induction j as [|j IH]; [reflexivity|]. cbn [zeros replicate stringOfDigits]. now rewrite IH. Qed.

Lemma Forall_digit_zeros (j : nat) : Forall digit (replicate j 0).
Proof. apply Forall_replicate. unfold digit. lia. Qed.

Lemma valOf_zeros (j : nat) : valOf (replicate j 0) = 0.
Proof.
  induction j as [|j IH]; [reflexivity|].
  change (replicate (S j) 0) with ([0] ++ replicate j 0).
  rewrite valOf_app, IH. change (valOf [0]) with 0. lia.
Qed.

Lemma scale10_pow (m j : Z) : 0 <= j -> (scale10 (m * 10 ^ j) 0 == scale10 m j)%Q.
Proof.
  intros H. unfold scale10. rewrite inject_Z_mult, Zpower_Qpower by exact H.
  change (inject_Z 10) with 10%Q. change (10 ^ 0)%Q with 1%Q. ring.
Qed.

Lemma formatDecimal_text (ds : list Z) (n : Z) :
  ds <> [] -> Forall digit ds ->
  exists ip fp ex,
    formatDecimal ds n = decimalText ip fp ex /\
    ip <> [] /\ Forall digit ip /\ Forall digit (fracDigits fp) /\
    (forall neg ed, ex = Some (neg, ed) -> ed <> [] /\ Forall digit ed) /\
    (decimalValue ip fp ex == scale10 (valOf ds) (n - Z.of_nat (length ds)))%Q.
Proof.
  intros NE F. unfold formatDecimal.
  destruct ((Z.of_nat (length ds) <=? n) && (n <=? 21)) eqn:A.
  { apply andb_true_iff in A as [A1 A2]. apply Z.leb_le in A1, A2.
    exists (ds ++ replicate (Z.to_nat (n - Z.of_nat (length ds))) 0), None, None.
    split; [|split; [|split; [|split; [|split]]]].
    - unfold decimalText. now rewrite !append_nil_r, stringOfDigits_app, zeros_digits.
    - destruct ds; [contradiction|discriminate].
    - apply Forall_app. split; [exact F|apply Forall_digit_zeros].
    - constructor.
    - discriminate.
    - unfold decimalValue. cbn [fracDigits length]. rewrite app_nil_r.
      rewrite valOf_app, valOf_zeros, length_replicate, Z.add_0_r.
      rewrite Z2Nat.id by lia. change (0 - Z.of_nat 0) with 0.
      apply scale10_pow. lia. }
  destruct ((0 <? n) && (n <=? 21)) eqn:B.
  { apply andb_true_iff in B as [B1 B2]. apply Z.ltb_lt in B1. apply Z.leb_le in B2.
    apply andb_false_iff in A as [A|A]; [apply Z.leb_gt in A|apply Z.leb_gt in A; lia].
    exists (take (Z.to_nat n) ds), (Some (drop (Z.to_nat n) ds)), None.
    split; [|split; [|split; [|split; [|split]]]].
    - unfold decimalText. now rewrite append_nil_r.
    - destruct ds; [contradiction|]. destruct (Z.to_nat n) eqn:E; [lia|discriminate].
    - now apply Forall_take.
    - now apply Forall_drop.
    - discriminate.
    - unfold decimalValue. cbn [fracDigits]. rewrite take_drop, length_drop.
      replace (0 - Z.of_nat (length ds - Z.to_nat n)) with (n - Z.of_nat (length ds)) by lia.
      reflexivity. }
  destruct ((-6 <? n) && (n <=? 0)) eqn:C.
  { apply andb_true_iff in C as [C1 C2]. apply Z.ltb_lt in C1. apply Z.leb_le in C2.
    exists [0], (Some (replicate (Z.to_nat (- n)) 0 ++ ds)), None.
    split; [|split; [|split; [|split; [|split]]]].
    - unfold decimalText. rewrite append_nil_r, stringOfDigits_app, zeros_digits.
      reflexivity.
    - discriminate.
    - constructor; [unfold digit; lia|constructor].
    - apply Forall_app. split; [apply Forall_digit_zeros|exact F].
    - discriminate.
    - unfold decimalValue. cbn [fracDigits].
      rewrite !valOf_app, valOf_zeros, !length_app, length_replicate.
      change (valOf [0]) with 0.
      replace (0 - Z.of_nat (Z.to_nat (- n) + length ds)) with (n - Z.of_nat (length ds))
        by lia.
      replace (0 * 10 ^ Z.of_nat (Z.to_nat (- n) + length ds) +
               (0 * 10 ^ Z.of_nat (length ds) + valOf ds)) with (valOf ds) by lia.
      reflexivity. }
  destruct (digitsOf_spec (Z.abs (n - 1)) ltac:(lia)) as (V & Fe & Le & _ & _).
  assert (EX : forall neg ed, Some (n - 1 <? 0, digitsOf (Z.abs (n - 1))) = Some (neg, ed) ->
               ed <> [] /\ Forall digit ed).
  { intros neg ed [= <- <-]. split; [|exact Fe].
    destruct (digitsOf (Z.abs (n - 1))); [cbn in Le; lia|discriminate]. }
  assert (EV : (if n - 1 <? 0 then - valOf (digitsOf (Z.abs (n - 1)))
                else valOf (digitsOf (Z.abs (n - 1)))) = n - 1).
  { rewrite V. destruct (Z.ltb_spec (n - 1) 0); lia. }
  rewrite showZ_nonneg by lia.
  destruct ds as [|d [|d' rest]]; [contradiction| |].
  - exists [d], None, (Some (n - 1 <? 0, digitsOf (Z.abs (n - 1)))).
    split; [|split; [|split; [|split; [|split]]]]; try assumption.
    + unfold decimalText. now destruct (n - 1 <? 0).
    + constructor.
    + unfold decimalValue. cbn [fracDigits length]. rewrite app_nil_r, EV.
      replace (n - 1 - Z.of_nat 0) with (n - Z.of_nat 1) by lia. reflexivity.
  - exists [d], (Some (d' :: rest)), (Some (n - 1 <? 0, digitsOf (Z.abs (n - 1)))).
    split; [|split; [|split; [|split; [|split]]]]; try assumption.
    + unfold decimalText. now destruct (n - 1 <? 0).
    + discriminate.
    + constructor; [|constructor]. now apply Forall_cons in F as [? _].
    + now apply Forall_cons in F as [_ ?].
    + unfold decimalValue. cbn [fracDigits]. rewrite EV.
      cbn [app length].
      replace (n - 1 - Z.of_nat (S (length rest))) with (n - Z.of_nat (S (S (length rest))))
        by lia. reflexivity.
Qed.

Lemma decimalScale_spec (fuel : nat) (n d k0 t k : Z) :
  0 < d -> decimalScale fuel n d k0 = Some (t, k) ->
  k0 <= k /\ t * d = n * 10 ^ (k - k0).
Proof.
  intros D. revert n k0. induction fuel as [|fuel IH]; intros n k0; cbn [decimalScale].
  - destruct (Z.eqb_spec (n mod d) 0) as [E|E]; [|discriminate].
    intros [= <- <-]. rewrite Z.sub_diag. change (10 ^ 0) with 1. split; [lia|zdiv].
  - destruct (Z.eqb_spec (n mod d) 0) as [E|E].
    + intros [= <- <-]. rewrite Z.sub_diag. change (10 ^ 0) with 1. split; [lia|zdiv].
    + intros H. destruct (IH _ _ H) as [L R]. split; [lia|].
      replace (k - k0) with (Z.succ (k - (k0 + 1))) by lia.
      rewrite Z.pow_succ_r by lia. lia.
Qed.

Lemma stripZeros_spec (fuel : nat) (t z s z' : Z) :
  stripZeros fuel t z = (s, z') -> z <= z' /\ t = s * 10 ^ (z' - z).
Proof.
  revert t z. induction fuel as [|fuel IH]; intros t z; cbn [stripZeros].
  - intros [= <- <-]. rewrite Z.sub_diag. change (10 ^ 0) with 1. lia.
  - destruct (Z.eqb_spec (t mod 10) 0) as [E|E].
    + intros H. destruct (IH _ _ H) as [L R]. split; [lia|].
      replace (z' - z) with (Z.succ (z' - (z + 1))) by lia.
      rewrite Z.pow_succ_r by lia. zdiv.
    + intros [= <- <-]. rewrite Z.sub_diag. change (10 ^ 0) with 1. lia.
Qed.

Lemma scale10_frac (s z k n d : Z) :
  0 <= z -> 0 <= k -> 0 < d -> s * 10 ^ z * d = n * 10 ^ k ->
  (scale10 s (z - k) == inject_Z n / inject_Z d)%Q.
Proof.
  intros Z0 K0 D E. unfold scale10.
  assert (T : ~ (10 == 0)%Q) by discriminate.
  replace (z - k) with (z + - k) by lia.
  rewrite Qpower_plus by exact T. rewrite Qpower_opp.
  change 10%Q with (inject_Z 10).
  rewrite <- !Zpower_Qpower by lia.
  assert (P : 0 < 10 ^ k) by (apply Z.pow_pos_nonneg; lia).
  assert (N1 : ~ (inject_Z (10 ^ k) == 0)%Q).
  { change 0%Q with (inject_Z 0). rewrite inject_Z_injective. lia. }
  assert (N2 : ~ (inject_Z d == 0)%Q).
  { change 0%Q with (inject_Z 0). rewrite inject_Z_injective. lia. }
  assert (EQ : (inject_Z s * inject_Z (10 ^ z) * inject_Z d == inject_Z n * inject_Z (10 ^ k))%Q).
  { rewrite <- !inject_Z_mult. now rewrite E. }
  apply (Qmult_inj_r _ _ (inject_Z (10 ^ k) * inject_Z d)%Q).
  { intros H. apply Qmult_integral in H. tauto. }
  transitivity (inject_Z s * inject_Z (10 ^ z) * inject_Z d)%Q; [field; exact N1|].
  rewrite EQ. field. exact N2.
Qed.

Lemma positiveToString_number (n d t k : Z) :
  0 < n -> 0 < d ->
  decimalScale (S (Z.to_nat (Z.log2 d))) n d 0 = Some (t, k) ->
  allChars numChar (positiveToString n d) = true /\
  exists q, Number (positiveToString n d) = JNum q /\ (q == inject_Z n / inject_Z d)%Q.
Proof.
  intros N D E. unfold positiveToString. rewrite E.
  destruct (decimalScale_spec _ _ _ _ _ _ D E) as [K0 TE].
  rewrite Z.sub_0_r in TE.
  assert (T : 0 < t) by nia.
  destruct (stripZeros (Z.to_nat (Z.log2 t)) t 0) as [s z] eqn:SZ.
  destruct (stripZeros_spec _ _ _ _ _ SZ) as [Z0 SE]. rewrite Z.sub_0_r in SE.
  assert (P : 0 < 10 ^ z) by (apply Z.pow_pos_nonneg; lia).
  assert (S0 : 0 < s) by nia.
  destruct (digitsOf_spec s ltac:(lia)) as (V & F & L & _ & _).
  assert (NE : digitsOf s <> []) by (destruct (digitsOf s); [cbn in L; lia|discriminate]).
  destruct (formatDecimal_text (digitsOf s) (Z.of_nat (length (digitsOf s)) + z - k) NE F)
    as (ip & fp & ex & -> & I1 & I2 & I3 & I4 & I5).
  split.
  - apply allChars_decimalText; try assumption. intros neg ed X. now apply (I4 neg ed).
  - exists (Qred (decimalValue ip fp ex)). split.
    + now apply Number_decimalText.
    + rewrite Qred_correct, I5, V.
      replace (Z.of_nat (length (digitsOf s)) + z - k - Z.of_nat (length (digitsOf s)))
        with (z - k) by lia.
      apply scale10_frac; lia.
Qed.

Lemma NumberToString_number (v : Q) :
  (0 <= v)%Q -> printable v ->
  allChars numChar (NumberToString v) = true /\
  exists q, Number (NumberToString v) = JNum q /\ (q == v)%Q.
Proof.
  intros V [[t k] E]. unfold NumberToString.
  pose proof (Qred_correct v) as R.
  destruct (Qred v) as [n d] eqn:RV. cbn [Qnum Qden] in *.
  assert (N0 : 0 <= n).
  { rewrite <- R in V. unfold Qle in V. cbn in V. lia. }
  destruct (Z.eqb_spec n 0) as [->|NZ].
  - split; [reflexivity|]. exists 0%Q. split; [reflexivity|].
    rewrite <- R. reflexivity.
  - destruct (Z.ltb_spec n 0) as [?|_]; [lia|].
    destruct (positiveToString_number n (Z.pos d) t k ltac:(lia) ltac:(lia) E)
      as (A & q & Hq & Eq).
    split; [exact A|]. exists q. split; [exact Hq|].
    rewrite Eq, <- R. symmetry. apply Qmake_Qdiv.
Qed.

Lemma decimalScale_complete (fuel : nat) (n d k0 : Z) (j : nat) :
  0 < d -> (j <= fuel)%nat -> (d | n * 10 ^ Z.of_nat j) ->
  is_Some (decimalScale fuel n d k0).
Proof.
  intros D. revert n k0 j. induction fuel as [|fuel IH]; intros n k0 j J H;
    cbn [decimalScale]; destruct (Z.eqb_spec (n mod d) 0) as [E|E]; eauto.
  - exfalso. apply E. apply Z.mod_divide; [lia|].
    replace j with 0%nat in H by lia. change (10 ^ Z.of_nat 0) with 1 in H.
    now rewrite Z.mul_1_r in H.
  - destruct j as [|j].
    + exfalso. apply E. apply Z.mod_divide; [lia|].
      change (10 ^ Z.of_nat 0) with 1 in H. now rewrite Z.mul_1_r in H.
    + apply (IH _ _ j); [lia|].
      replace (Z.of_nat (S j)) with (Z.succ (Z.of_nat j)) in H by lia.
      rewrite Z.pow_succ_r in H by lia. now rewrite <- Z.mul_assoc.
Qed.

Lemma pow10_divide_log2 (K : nat) (d : Z) :
  0 < d -> (d | 10 ^ Z.of_nat K) -> (d | 10 ^ Z.log2 d).
Proof.
  revert d. induction K as [|K IH]; intros d D H.
  - change (10 ^ Z.of_nat 0) with 1 in H.
    apply Z.divide_1_r_nonneg in H; [|lia]. subst d. exists 1. reflexivity.
  - replace (Z.of_nat (S K)) with (Z.succ (Z.of_nat K)) in H by lia.
    rewrite Z.pow_succ_r in H by lia.
    pose proof (Z.gcd_nonneg d 10) as G0.
    pose proof (Z.gcd_divide_l d 10) as [d' Ed].
    pose proof (Z.gcd_divide_r d 10) as [t Et].
    set (g := Z.gcd d 10) in *.
    assert (G : 0 < g) by (destruct (Z.eq_dec g 0) as [Z0|]; [rewrite Z0 in Ed; lia|lia]).
    assert (D' : 0 < d') by nia.
    assert (C : Z.gcd d' t = 1).
    { pose proof (Z.gcd_div_gcd d 10 g ltac:(lia) eq_refl) as X.
      replace (d / g) with d' in X by (apply Z.div_unique_exact; lia).
      replace (10 / g) with t in X by (apply Z.div_unique_exact; lia).
      exact X. }
    assert (H' : (d' | 10 ^ Z.of_nat K)).
    { apply (Z.gauss _ t); [|exact C].
      apply (Z.mul_divide_cancel_l _ _ g); [lia|].
      replace (g * d') with d by lia.
      rewrite Z.mul_assoc, (Z.mul_comm g t), <- Et. exact H. }
    specialize (IH d' D' H').
    destruct (Z.eq_dec g 1) as [G1|G1].
    + replace d with d' by lia. exact IH.
    + assert (L : Z.log2 d' + 1 <= Z.log2 d).
      { replace (Z.log2 d' + 1) with (Z.succ (Z.log2 d')) by lia.
        rewrite <- Z.log2_double by lia. apply Z.log2_le_mono. nia. }
      pose proof (Z.log2_nonneg d') as L0.
      replace (Z.log2 d) with ((Z.log2 d - (Z.log2 d' + 1)) + 1 + Z.log2 d') by lia.
      rewrite !Z.pow_add_r by lia. change (10 ^ 1) with 10.
      destruct IH as [x Ex]. rewrite Ex.
      exists (10 ^ (Z.log2 d - (Z.log2 d' + 1)) * t * x). nia.
Qed.

Lemma decimalFraction_printable (q : Q) : decimalFraction q -> printable q.
Proof.
  intros (m & e & E). unfold printable.
  pose proof (Qred_correct q) as R.
  pose proof (gcd_Qred q) as C.
  destruct (Qred q) as [n d]. cbn [Qnum Qden] in *.
  apply (decimalScale_complete _ _ _ _ (Z.to_nat (Z.log2 (Z.pos d)))); [lia|lia|].
  rewrite Z2Nat.id by apply Z.log2_nonneg.
  apply Z.divide_mul_r.
  set (K := Z.to_nat (Z.max 0 (- e))).
  apply (pow10_divide_log2 K); [lia|].
  apply (Z.gauss _ n); [|now rewrite Z.gcd_comm].
  (* n * 10^K = M * d *)
  assert (T : ~ (10 == 0)%Q) by discriminate.
  assert (X : (inject_Z n * inject_Z (10 ^ Z.of_nat K) ==
               inject_Z (m * 10 ^ (e + Z.of_nat K)) * inject_Z (Z.pos d))%Q).
  { rewrite inject_Z_mult, !Zpower_Qpower by lia.
    change (inject_Z 10) with 10%Q.
    rewrite Qpower_plus by exact T.
    assert (Y : (inject_Z n == scale10 m e * inject_Z (Z.pos d))%Q).
    { rewrite <- E, <- R. rewrite (Qmake_Qdiv n d). field.
      change 0%Q with (inject_Z 0). rewrite inject_Z_injective. lia. }
    rewrite Y. unfold scale10. ring. }
  rewrite <- !inject_Z_mult, inject_Z_injective in X.
  exists (m * 10 ^ (e + Z.of_nat K)). lia.
Qed.

(** * Export and import *)

Lemma notBreak_chars (c : ascii) :
  notBreak c = true -> Ascii.eqb c LF = false /\ Ascii.eqb c CR = false.
Proof.
  unfold notBreak. rewrite andb_true_iff, !negb_true_iff. tauto.
Qed.

Lemma splitLines_line (s rest : string) :
  allChars notBreak s = true ->
  splitLines (s +:+ String LF rest) = s :: splitLines rest.
Proof.
  induction s as [|c s IH]; intros H.
  - reflexivity.
  - cbn [allChars] in H. apply andb_true_iff in H as [Hc Hs].
    destruct (notBreak_chars c Hc) as [NL NC].
    rewrite append_cons. cbn [splitLines]. rewrite NL, NC, (IH Hs). cbn [andb].
    now destruct (s +:+ String LF rest).
Qed.

Lemma splitLines_plain (s : string) :
  allChars notBreak s = true -> splitLines s = [s].
Proof.
  induction s as [|c s IH]; intros H.
  - reflexivity.
  - cbn [allChars] in H. apply andb_true_iff in H as [Hc Hs].
    destruct (notBreak_chars c Hc) as [NL NC].
    cbn [splitLines]. rewrite NL, NC, (IH Hs). cbn [andb].
    now destruct s.
Qed.

Lemma splitLines_join (line : string) (lines : list string) :
  Forall (fun l => allChars notBreak l = true) (line :: lines) ->
  splitLines (joinWith (String LF "") (line :: lines)) = line :: lines.
Proof.
  revert line. induction lines as [|l lines IH]; intros line H.
  - apply Forall_cons in H as [H _]. now apply splitLines_plain.
  - apply Forall_cons in H as [H1 H2].
    change (joinWith (String LF "") (line :: l :: lines))
      with (line +:+ String LF "" +:+ joinWith (String LF "") (l :: lines)).
    change (String LF "" +:+ ?x) with (String LF x).
    rewrite splitLines_line by exact H1. now rewrite IH.
Qed.

Lemma splitChar_plain (s : string) :
  allChars notComma s = true -> splitChar "," s = [s].
Proof.
  induction s as [|c s IH]; intros H; [reflexivity|].
  cbn [allChars] in H. apply andb_true_iff in H as [Hc Hs].
  unfold notComma in Hc. apply negb_true_iff in Hc.
  cbn [splitChar]. now rewrite Hc, (IH Hs).
Qed.

Lemma splitChar_cell (a b : string) :
  allChars notComma a = true ->
  splitChar "," (a +:+ String "," b) = a :: splitChar "," b.
Proof.
  induction a as [|c a IH]; intros H; [reflexivity|].
  cbn [allChars] in H. apply andb_true_iff in H as [Hc Hs].
  unfold notComma in Hc. apply negb_true_iff in Hc.
  rewrite append_cons. cbn [splitChar]. now rewrite Hc, (IH Hs).
Qed.

Lemma removeCommas_plain (s : string) :
  allChars notComma s = true -> removeCommas s = s.
Proof.
  induction s as [|c s IH]; intros H; [reflexivity|].
  cbn [allChars] in H. apply andb_true_iff in H as [Hc Hs].
  unfold notComma in Hc. apply negb_true_iff in Hc.
  cbn [removeCommas]. now rewrite Hc, (IH Hs).
Qed.

Lemma splitChar_nonempty (c : ascii) (s : string) : (1 <= length (splitChar c s))%nat.
Proof.
  induction s as [|x s IH]; cbn [splitChar length]; [lia|].
  destruct (Ascii.eqb x c); [cbn; lia|].
  destruct (splitChar c s); cbn in *; lia.
Qed.

Lemma trimEnd_cons (c : ascii) (s : string) :
  isWhite c = false -> trimEnd (String c s) = String c (trimEnd s).
Proof. intros H. cbn [trimEnd]. rewrite H. now destruct (trimEnd s). Qed.

(** The row of the header line. *)
Lemma header_row (key : string) :
  nonEmpty (trim ("date," +:+ key)) = true /\
  exists c rest, cellsOf (trim ("date," +:+ key)) = "date" :: c :: rest.
Proof.
  unfold trim. change (trimStart ("date," +:+ key)) with ("date," +:+ key).
  change ("date," +:+ key)
    with (String "d" (String "a" (String "t" (String "e" (String "," key))))).
  rewrite !trimEnd_cons by reflexivity.
  split; [reflexivity|].
  unfold cellsOf.
  change (String "d" (String "a" (String "t" (String "e" (String "," (trimEnd key))))))
    with ("date" +:+ String "," (trimEnd key)).
  rewrite splitChar_cell by reflexivity.
  pose proof (splitChar_nonempty "," (trimEnd key)) as L.
  destruct (splitChar "," (trimEnd key)) as [|c rest]; [cbn in L; lia|].
  exists (trim c), (trim <$> rest). reflexivity.
Qed.

(** The row of a data line. *)
Lemma data_row (a b : string) :
  allChars numChar a = true -> allChars numChar b = true ->
  trim (a +:+ String "," b) = a +:+ String "," b /\
  nonEmpty (a +:+ String "," b) = true /\
  cellsOf (a +:+ String "," b) = [a; b].
Proof.
  intros A B.
  assert (Aw : allChars notWhite a = true)
    by (eapply allChars_impl; [|exact A]; intros c Hc; now apply numChar_plain).
  assert (Bw : allChars notWhite b = true)
    by (eapply allChars_impl; [|exact B]; intros c Hc; now apply numChar_plain).
  assert (Ac : allChars notComma a = true)
    by (eapply allChars_impl; [|exact A]; intros c Hc; now apply numChar_plain).
  assert (Bc : allChars notComma b = true)
    by (eapply allChars_impl; [|exact B]; intros c Hc; now apply numChar_plain).
  split; [|split].
  - apply trim_plain. rewrite allChars_app, Aw. cbn [allChars]. now rewrite Bw.
  - unfold nonEmpty. destruct a; reflexivity.
  - unfold cellsOf. rewrite splitChar_cell, splitChar_plain by assumption.
    cbn [fmap list_fmap]. now rewrite !trim_plain.
Qed.

Lemma allChars_date (k : iso) :
  fourDigitDate k -> allChars numChar (formatDDMMYYYY k) = true.
Proof.
  intros FD. rewrite formatDDMMYYYY_digits by exact FD.
  destruct FD as [Y [M D]].
  pose proof (daysInMonth_bounds (yr k) (mo k)) as B.
  rewrite !allChars_app, !allChars_digits; [reflexivity|..];
    repeat (constructor; [unfold digit; zdiv|]); constructor.
Qed.

Lemma exportLine_row (d : DailyPoint) :
  exportable d ->
  allChars notBreak (exportLine d) = true /\
  rowsOfLines [exportLine d] = [[formatDDMMYYYY (date d); NumberToString (value d)]] /\
  exists r, rowRecord [formatDDMMYYYY (date d); NumberToString (value d)] = Some r /\
            sameRecord d r.
Proof.
  intros (FD & V & DF).
  pose proof (allChars_date _ FD) as A.
  destruct (NumberToString_number _ V (decimalFraction_printable _ DF)) as (B & q & Hq & Eq).
  destruct (data_row _ _ A B) as (T & NE & C).
  unfold exportLine. change ("," +:+ ?x) with (String "," x).
  split; [|split].
  - rewrite allChars_app. cbn [allChars].
    rewrite (allChars_impl numChar notBreak _ (fun c H => proj2 (proj2 (numChar_plain c H))) A),
      (allChars_impl numChar notBreak _ (fun c H => proj2 (proj2 (numChar_plain c H))) B).
    reflexivity.
  - unfold rowsOfLines. cbn [fmap list_fmap List.filter]. rewrite T, NE.
    cbn [fmap list_fmap List.filter]. now rewrite C.
  - exists {| date := date d; value := q |}. split; [|split; [reflexivity|exact Eq]].
    unfold rowRecord, cell. cbn [lookup list_lookup default from_option]. unfold id.
    rewrite parseInputDate_format by exact FD.
    rewrite removeCommas_plain
      by (eapply allChars_impl; [|exact B]; intros c Hc; now apply numChar_plain).
    rewrite Hq.
    assert (L : Qle_bool 0 q = true) by (apply Qle_bool_iff; now rewrite Eq).
    now rewrite L.
Qed.

Lemma exportLines_rows (l : list DailyPoint) :
  Forall exportable l ->
  Forall (fun s => allChars notBreak s = true) (exportLine <$> l) /\
  exists rows, rowsOfLines (exportLine <$> l) = rows /\
               Forall2 sameRecord l (omap rowRecord rows) /\
               Forall (fun row => is_Some (rowRecord row)) rows.
Proof.
  induction 1 as [|d l H _ (IH1 & rows & IH2 & IH3 & IH4)].
  - split; [constructor|]. exists []. repeat split; constructor.
  - destruct (exportLine_row d H) as (NB & R & r & Hr & S).
    split; [constructor; assumption|].
    cbn [fmap list_fmap].
    change (exportLine d :: (exportLine <$> l)) with ([exportLine d] ++ (exportLine <$> l)).
    rewrite rowsOfLines_app, R, IH2.
    eexists. split; [reflexivity|]. cbn [app omap list_omap]. rewrite Hr.
    split; constructor; eauto.
Qed.

Lemma keyChar_plain (c : ascii) :
  keyChar c = true -> notWhite c = true /\ notComma c = true /\ notBreak c = true.
Proof.
  destruct c as [[] [] [] [] [] [] [] []]; vm_compute; intros H;
    try discriminate H; repeat split.
Qed.

Lemma prefix_refl (s : string) : String.prefix s s = true.
Proof.
  induction s as [|c s IH]; [reflexivity|]. cbn [String.prefix].
  now destruct (ascii_dec c c).
Qed.

Lemma includes_refl (s : string) : includes s s = true.
Proof. destruct s; cbn [includes]; now rewrite prefix_refl. Qed.

Lemma header_dropped (key : string) (rows : list (list string)) :
  allChars keyChar key = true ->
  dropHeader key (rowsOfLines ["date," +:+ key] ++ rows) = rows.
Proof.
  intros K.
  assert (Kw : allChars notWhite key = true)
    by (eapply allChars_impl; [|exact K]; intros c Hc; now apply keyChar_plain).
  assert (Kc : allChars notComma key = true)
    by (eapply allChars_impl; [|exact K]; intros c Hc; now apply keyChar_plain).
  assert (T : trim ("date," +:+ key) = "date" +:+ String "," key).
  { apply trim_plain. change ("date," +:+ key) with ("date" +:+ String "," key).
    rewrite allChars_app. cbn [allChars]. now rewrite Kw. }
  unfold rowsOfLines. cbn [fmap list_fmap List.filter]. rewrite T.
  change (nonEmpty ("date" +:+ String "," key)) with true.
  cbn [fmap list_fmap List.filter]. unfold cellsOf.
  rewrite splitChar_cell, splitChar_plain by (reflexivity || assumption).
  cbn [fmap list_fmap length Nat.leb List.filter app dropHeader].
  rewrite (trim_plain key) by exact Kw.
  unfold isHeader, cell. cbn [lookup list_lookup default from_option]. unfold id.
  rewrite (includes_refl (toLowerCase key)). reflexivity.
Qed.

Lemma omap_all_records (rows : list (list string)) :
  Forall (fun row => is_Some (rowRecord row)) rows ->
  length (omap rowRecord rows) = length rows.
Proof.
  induction 1 as [|row rows [r Hr] _ IH]; [reflexivity|].
  cbn [omap list_omap]. rewrite Hr. cbn [length]. now rewrite IH.
Qed.

Lemma export_import_list (l : list DailyPoint) (key : string) :
  Forall exportable l -> allChars keyChar key = true ->
  Forall2 sameRecord l (parsed (csvParse (exportCSV l key) key)) /\
  errors (csvParse (exportCSV l key) key) = [].
Proof.
  intros H K.
  destruct (exportLines_rows l H) as (NB & rows & R & F2 & FS).
  assert (KB : allChars notBreak ("date," +:+ key) = true).
  { change ("date," +:+ key) with ("date" +:+ String "," key).
    rewrite allChars_app. cbn [allChars].
    now rewrite (allChars_impl keyChar notBreak _
                   (fun c Hc => proj2 (proj2 (keyChar_plain c Hc))) K). }
  unfold csvParse, csvRows.
  change (exportCSV l key)
    with (joinWith (String LF "") (("date," +:+ key) :: (exportLine <$> l))).
  rewrite splitLines_join by (constructor; assumption).
  change (("date," +:+ key) :: (exportLine <$> l))
    with ([("date," +:+ key)] ++ (exportLine <$> l)).
  rewrite rowsOfLines_app, R, header_dropped by exact K.
  rewrite csvParseRows_eq. cbn [parsed errors]. split; [exact F2|].
  pose proof (omap_lengths rows 0) as L.
  rewrite (omap_all_records rows FS) in L.
  apply length_zero_iff_nil.
  replace (fun (n : nat) (row : list string) => rowError (Z.of_nat n) row)
    with (fun (n : nat) (row : list string) => rowError (0 + Z.of_nat n) row)
    by reflexivity.
  lia.
Qed.

Lemma mergeRecords_same (l1 l2 : list DailyPoint) (m1 m2 : gmap iso Q) :
  (forall k, oQeq (m2 !! k) (m1 !! k)) -> Forall2 sameRecord l1 l2 ->
  forall k, oQeq (mergeRecords m2 l2 !! k) (mergeRecords m1 l1 !! k).
Proof.
  intros M F. revert m1 m2 M.
  induction F as [|d r l1 l2 [Ed Ev] _ IH]; intros m1 m2 M; [exact M|].
  cbn [mergeRecords foldl]. apply IH. intros k. rewrite Ed.
  destruct (decide (date d = k)) as [->|NE].
  - rewrite !lookup_insert_eq. exact Ev.
  - rewrite !lookup_insert_ne by exact NE. apply M.
Qed.

(** X18. The export of a store whose dates have four digit years and whose values
    are decimal fractions that are not negative is read back in full: the
    records come back in order with the same dates and numbers, no row is
    refused, and merging them into an empty store gives the store. *)
Theorem export_import_roundtrip (dataMap : gmap iso Q) (valueColumnKey : string) :
  (forall k v, dataMap !! k = Some v ->
               fourDigitDate k /\ (0 <= v)%Q /\ decimalFraction v) ->
  allChars keyChar valueColumnKey = true ->
  let result := csvParse (exportCSV (sortedDailyOf dataMap) valueColumnKey) valueColumnKey in
  Forall2 sameRecord (sortedDailyOf dataMap) (parsed result) /\
  errors result = [] /\
  forall k, oQeq (mergeRecords ∅ (parsed result) !! k) (dataMap !! k).
Proof.
  intros H K result.
  assert (E : Forall exportable (sortedDailyOf dataMap)).
  { apply Forall_forall. intros d Hd. apply sortedDailyOf_elem in Hd.
    exact (H _ _ Hd). }
  destruct (export_import_list _ _ E K) as [F2 ER].
  split; [exact F2|]. split; [exact ER|].
  intros k.
  replace (dataMap !! k) with (mergeRecords ∅ (sortedDailyOf dataMap) !! k)
    by (change (mergeRecords ∅ (sortedDailyOf dataMap))
          with (dailyLookupOf (sortedDailyOf dataMap));
        now rewrite sortedDailyOf_lookup).
  apply (mergeRecords_same _ _ ∅ ∅); [|exact F2].
  intros k'. now rewrite lookup_empty.
Qed.

Lemma threeDayStore_exportable (k : iso) (v : Q) :
  threeDayStore !! k = Some v -> fourDigitDate k /\ (0 <= v)%Q /\ decimalFraction v.
Proof.
  unfold threeDayStore. intros H.
  apply lookup_insert_Some in H as [[<- <-]|[_ H]];
    [|apply lookup_insert_Some in H as [[<- <-]|[_ H]];
      [|apply lookup_singleton_Some in H as [<- <-]]].
  - split; [unfold fourDigitDate; literal_date|]. split; [discriminate|].
    exists 4140, 0. reflexivity.
  - split; [unfold fourDigitDate; literal_date|]. split; [discriminate|].
    exists 42155, (-1). reflexivity.
  - split; [unfold fourDigitDate; literal_date|]. split; [discriminate|].
    exists 15, (-8). reflexivity.
Qed.

Lemma export_import_roundtrip_witness :
  let result := csvParse (exportCSV (sortedDailyOf threeDayStore) "generation_gwh")
                         "generation_gwh" in
  Forall2 sameRecord (sortedDailyOf threeDayStore) (parsed result) /\
  errors result = [] /\
  forall k, oQeq (mergeRecords ∅ (parsed result) !! k) (threeDayStore !! k).
Proof.
  apply (export_import_roundtrip threeDayStore "generation_gwh").
  - exact threeDayStore_exportable.
  - reflexivity.
Defined.

(** C8. The round trip loses the store that holds one value on the first
    of January of the year 50.  The text 0050-01-01 is accepted on import
    and gives that store; its export writes the line 01-01-0050,5; reading
    the export back refuses that row, as [Date.UTC] takes the year 50 for
    1950 and the comparison of the years fails: no record comes back, and
    the merged store has no value on that date. *)
Theorem export_import_year_50 :
  csvParse "0050-01-01,5" "generation_gwh" =
    {| parsed := [ {| date := Iso 50 1 1; value := 5 |} ]; errors := [] |} /\
  mergeRecords ∅ (parsed (csvParse "0050-01-01,5" "generation_gwh")) = year50Store /\
  validISO (Iso 50 1 1) /\
  sortedDailyOf year50Store = [ {| date := Iso 50 1 1; value := 5 |} ] /\
  exportCSV (sortedDailyOf year50Store) "generation_gwh" =
    "date,generation_gwh" +:+ String LF "01-01-0050,5" /\
  csvParse (exportCSV (sortedDailyOf year50Store) "generation_gwh") "generation_gwh" =
    {| parsed := [];
       errors := ["Row 1: invalid date '01-01-0050' (expected DD-MM-YYYY)"] |} /\
  mergeRecords ∅
    (parsed (csvParse (exportCSV (sortedDailyOf year50Store) "generation_gwh")
                      "generation_gwh")) !! Iso 50 1 1 = None.
Proof.
  split; [vm_compute; reflexivity|].
  split; [vm_compute; reflexivity|].
  split; [literal_date|].
  split; [vm_compute; reflexivity|].
  split; [vm_compute; reflexivity|].
  split; [vm_compute; reflexivity|].
  vm_compute; reflexivity.
Qed.

(** * The rolling 30 day series of the second source file *)






Lemma daysBetween_elem (a b cur : iso) :
  cur ∈ daysBetween a b <->
  validISO cur /\ DateOfISO a <= DateOfISO cur <= DateOfISO b.
Proof.
  unfold daysBetween. rewrite list_elem_of_fmap. split.
  - intros (n & -> & Hn). apply elem_of_seqZ in Hn.
    split; [apply toISODate_valid|]. rewrite DateOfISO_toISODate. lia.
  - intros [Vc Hc]. exists (DateOfISO cur). split.
    + symmetry. now apply toISODate_DateOfISO.
    + apply elem_of_seqZ. lia.
Qed.




(** C4. The rolling 30 day mode of [src/unnamed/part_000] gives no point
    for the store with the value 0 on 2023-03-05 and the value 100 on
    2024-03-05: on 2024-03-05 the window of 30 days holds the value 100,
    the window that ends 365 days earlier holds the value 0, [growthPct]
    of 100 over 0 is null, and [toFixed] called on it throws.
    [src/ElectricityDashboard.tsx] gives the 121 points of the range, the
    last one with the total 100, the comparator 0 and a null growth. *)
Theorem rolling30_zero_prior_window :
  let store := dailyLookupOf zeroPriorData in
  Part000.rolling30Series 200 zeroPriorData None None 120 = Some (Throw TypeError) /\
  chartRange (Iso 2024 3 5) None None 120 = (Iso 2023 11 6, Iso 2024 3 5) /\
  rangeValues store (daysBack (Iso 2024 3 5) 29) (Iso 2024 3 5) = [100%Q] /\
  rangeValues store (daysBack (Iso 2024 3 5) (365 + 29)) (daysBack (Iso 2024 3 5) 365) =
    [0%Q] /\
  growthPct 100 (Some 0%Q) = None /\
  Part000.fixedGrowth 100 0 = Throw TypeError /\
  exists points,
    dailyForChart 200 zeroPriorData None None 120 rolling30 = Some points /\
    length points = 121%nat /\
    last points = Some {| label := "05-03-2024";
                          units := 100;
                          prev_year_units := Some 0%Q;
                          yoy_pct := None;
                          mom_pct := None |}.
Proof.
  cbv zeta.
  split; [vm_compute; reflexivity|].
  split; [vm_compute; reflexivity|].
  split; [vm_compute; reflexivity|].
  split; [vm_compute; reflexivity|].
  split; [reflexivity|].
  split; [reflexivity|].
  eexists. split; [vm_compute; reflexivity|].
  split; reflexivity.
Qed.

(** * Day, week, month and year arithmetic *)



(** X1. [isoPlusDays] and [isoMinusDays] are exact day arithmetic on the
    calendar: the date [a] days after [k] is [a] days later, going back
    [a] days returns to [k], two moves are one move by the sum, a move by 0
    changes nothing, and the moved date is not before [k] exactly when [a]
    is not negative. *)
Theorem day_arithmetic (k : iso) (a b : Z) :
  fourDigitDate k ->
  fourDigitDate (isoPlusDays k a) ->
  fourDigitDate (isoPlusDays k (a + b)) ->
  DateOfISO (isoPlusDays k a) = DateOfISO k + a /\
  isoMinusDays k (- a) = isoPlusDays k a /\
  isoPlusDays (isoPlusDays k a) b = isoPlusDays k (a + b) /\
  isoMinusDays (isoPlusDays k a) a = k /\
  isoPlusDays k 0 = k /\
  (iso_leb k (isoPlusDays k a) = true <-> 0 <= a) /\
  (isoPlusDays k a = k <-> a = 0).
Proof.
  intros [_ V] [_ Va] _.
  rewrite (isoPlusDays_days (isoPlusDays k a) b), (isoMinusDays_days (isoPlusDays k a) a),
    (isoMinusDays_days k (- a)), (isoPlusDays_days k a), (isoPlusDays_days k (a + b)),
    (isoPlusDays_days k 0), !DateOfISO_toISODate.
  split; [reflexivity|]. split; [f_equal; lia|]. split; [f_equal; lia|].
  split; [replace (DateOfISO k + a - a) with (DateOfISO k) by lia;
          now apply toISODate_DateOfISO|].
  split; [rewrite Z.add_0_r; now apply toISODate_DateOfISO|].
  split.
  - rewrite iso_leb_days by (exact V || apply toISODate_valid).
    rewrite DateOfISO_toISODate, Z.leb_le. lia.
  - split.
    + intros E. apply (f_equal DateOfISO) in E. rewrite DateOfISO_toISODate in E. lia.
    + intros ->. rewrite Z.add_0_r. now apply toISODate_DateOfISO.
Qed.

Lemma plus_two_days : isoPlusDays (Iso 2024 2 28) 2 = Iso 2024 3 1.
Proof. vm_compute. reflexivity. Qed.

Lemma plus_zero_days : isoPlusDays (Iso 2024 2 28) (2 + -2) = Iso 2024 2 28.
Proof. vm_compute. reflexivity. Qed.

Lemma day_arithmetic_witness :
  DateOfISO (isoPlusDays (Iso 2024 2 28) 2) = DateOfISO (Iso 2024 2 28) + 2 /\
  isoMinusDays (isoPlusDays (Iso 2024 2 28) 2) 2 = Iso 2024 2 28.
Proof.
  destruct (day_arithmetic (Iso 2024 2 28) 2 (-2)) as (H1 & _ & _ & H4 & _).
  - unfold fourDigitDate. literal_date.
  - rewrite plus_two_days. unfold fourDigitDate. literal_date.
  - rewrite plus_zero_days. unfold fourDigitDate. literal_date.
  - split; [exact H1|exact H4].
Defined.

Lemma weekOf_days (x : iso) :
  DateOfISO (weekOf x) = DateOfISO x - (DateOfISO x + 10) mod 7.
Proof.
  unfold weekOf. rewrite DateOfISO_toISODate. unfold getUTCDay. f_equal. zdiv.
Qed.

Lemma weekOf_same (x y : iso) :
  weekOf x = weekOf y <->
  DateOfISO (weekOf y) <= DateOfISO x <= DateOfISO (weekOf y) + 6.
Proof.
  pose proof (weekOf_days x) as Wx. pose proof (weekOf_days y) as Wy.
  split.
  - intros E. rewrite <- E. zdiv.
  - intros H.
    assert (E : DateOfISO (weekOf x) = DateOfISO (weekOf y)) by zdiv.
    rewrite <- (toISODate_DateOfISO (weekOf x)), <- (toISODate_DateOfISO (weekOf y))
      by apply toISODate_valid.
    now rewrite E.
Qed.

(** X2. [startOfWeekISO] gives the Monday on or before the date, at most
    six days back; a Monday is its own week start, and another date has the
    same week start exactly when it is one of the seven days from that
    Monday. *)
Theorem start_of_week (k k' : iso) :
  keyDate k -> validISO k' ->
  let wk := startOfWeekISO k in
  validISO wk /\
  getUTCDay (DateOfISO wk) = 1 /\
  DateOfISO wk <= DateOfISO k <= DateOfISO wk + 6 /\
  startOfWeekISO wk = wk /\
  (startOfWeekISO k' = wk <-> DateOfISO wk <= DateOfISO k' <= DateOfISO wk + 6).
Proof.
  intros _ _ wk. unfold wk.
  rewrite (startOfWeekISO_weekOf k), (startOfWeekISO_weekOf k'),
    (startOfWeekISO_weekOf (weekOf k)).
  pose proof (weekOf_monday k) as [M B].
  split; [apply toISODate_valid|]. split; [exact M|]. split; [exact B|].
  split; [apply weekOf_same; lia|apply weekOf_same].
Qed.

Lemma start_of_week_example : startOfWeekISO (Iso 2024 3 3) = Iso 2024 2 26.
Proof. vm_compute. reflexivity. Qed.

Lemma start_of_week_witness :
  startOfWeekISO (Iso 2024 2 28) = startOfWeekISO (Iso 2024 3 3).
Proof.
  destruct (start_of_week (Iso 2024 3 3) (Iso 2024 2 28)) as (_ & _ & _ & _ & H).
  - literal_date.
  - literal_date.
  - apply H. rewrite start_of_week_example. vm_compute. split; discriminate.
Defined.

Lemma addMonths_value (y m delta : Z) :
  1 <= m <= 12 -> 100 <= y ->
  addMonths (y, m) delta = (y + (m - 1 + delta) / 12, (m - 1 + delta) mod 12 + 1).
Proof.
  intros Hm Hy. unfold addMonths, getYear, getMonth, DateUTC. cbn [fst snd].
  destruct (Z.leb_spec y 99) as [L|_]; [lia|]. rewrite andb_false_r.
  unfold MakeDay.
  assert (V : validYMD (y + (m - 1 + delta) / 12) ((m - 1 + delta) mod 12 + 1) 1).
  { pose proof (daysInMonth_bounds (y + (m - 1 + delta) / 12) ((m - 1 + delta) mod 12 + 1)).
    split; [zdiv|lia]. }
  replace (daysFromCivil (y + (m - 1 + delta) / 12) ((m - 1 + delta) mod 12 + 1) 1 + 1 - 1)
    with (daysFromCivil (y + (m - 1 + delta) / 12) ((m - 1 + delta) mod 12 + 1) 1) by lia.
  destruct (getters_civil _ _ _ V) as (-> & -> & _). f_equal. lia.
Qed.

(** X3. [addMonths] moves a month by [delta] months on the calendar: the
    result is a month from 1 to 12 of the year found by whole division, it
    lies [delta] months from the start, moving back by [delta] returns to the
    start, and it is not before the start exactly when [delta] is not
    negative. *)
Theorem addMonths_calendar (y m delta : Z) :
  1 <= m <= 12 -> 1000 <= y <= 9999 ->
  1000 <= y + (m - 1 + delta) / 12 <= 9999 ->
  let r := addMonths (y, m) delta in
  r = (y + (m - 1 + delta) / 12, (m - 1 + delta) mod 12 + 1) /\
  1 <= r.2 <= 12 /\
  r.1 * 12 + r.2 = y * 12 + m + delta /\
  addMonths r (- delta) = (y, m) /\
  (ym_leb (y, m) r = true <-> 0 <= delta).
Proof.
  intros Hm Hy Hr r. unfold r. rewrite (addMonths_value y m delta) by lia.
  cbn [fst snd].
  split; [reflexivity|]. split; [zdiv|]. split; [zdiv|]. split.
  - rewrite addMonths_value by (zdiv || lia). f_equal; zdiv.
  - unfold ym_leb. cbn [fst snd].
    rewrite orb_true_iff, andb_true_iff, Z.ltb_lt, Z.eqb_eq, Z.leb_le. zdiv.
Qed.

Lemma addMonths_calendar_witness :
  addMonths (2024, 1) (-1) = (2023, 12) /\ addMonths (2023, 12) 1 = (2024, 1).
Proof.
  destruct (addMonths_calendar 2024 1 (-1)) as (H1 & _ & _ & H4 & _); try lia.
  - vm_compute. split; discriminate.
  - split; [exact H1|]. rewrite H1 in H4. exact H4.
Defined.

(** Day 0 of the next month is the last day of the month. *)
Lemma MakeDay_last_day (y m : Z) :
  1 <= m <= 12 -> MakeDay y m 0 = daysFromCivil y m (daysInMonth y m).
Proof.
  intros Hm. unfold MakeDay. rewrite (daysFromCivil_next_month y m Hm).
  rewrite (daysFromCivil_day y m (daysInMonth y m)). lia.
Qed.

Lemma overflow_month (y m d : Z) :
  1 <= m <= 12 -> daysInMonth y m < d <= 31 ->
  getUTCMonth (daysFromCivil y m d) <> m - 1.
Proof.
  intros Hm Hd.
  pose proof (daysInMonth_bounds y m) as B.
  pose proof (daysInMonth_bounds (y + m / 12) (m mod 12 + 1)) as B'.
  assert (E : daysFromCivil y m d =
              daysFromCivil (y + m / 12) (m mod 12 + 1) (d - daysInMonth y m)).
  { rewrite (daysFromCivil_day y m d),
      (daysFromCivil_day (y + m / 12) (m mod 12 + 1) (d - daysInMonth y m)),
      (daysFromCivil_next_month y m Hm). lia. }
  rewrite E.
  assert (V : validYMD (y + m / 12) (m mod 12 + 1) (d - daysInMonth y m)).
  { split; [zdiv|lia]. }
  destruct (getters_civil _ _ _ V) as (_ & -> & _). zdiv.
Qed.

Lemma feb29_only (y y' m d : Z) :
  1 <= m <= 12 -> d <= daysInMonth y' m -> daysInMonth y m < d ->
  m = 2 /\ d = 29 /\ daysInMonth y m = 28 /\ isLeap y = false.
Proof.
  intros Hm Hd Hlt.
  destruct (month_cases m Hm) as [H|[H|[H|[H|[H|[H|[H|[H|[H|[H|[H|H]]]]]]]]]]];
    subst m; month_tables;
    repeat match goal with
           | H : context [isLeap ?e] |- _ => destruct (isLeap e)
           end; try lia.
  all: repeat split; lia.
Qed.

(** X4. [isoAddYears] keeps the month and the day and moves the year,
    cutting the day to the last day of the month of the target year.  The
    result is a real date; the day changes only for 29 February moved to a
    common year, which gives 28 February; moving by 0 years changes
    nothing. *)
Theorem isoAddYears_clamp (k : iso) (delta : Z) :
  fourDigitDate k -> 1000 <= yr k + delta <= 9999 ->
  let r := isoAddYears k delta in
  r = Iso (yr k + delta) (mo k) (Z.min (dy k) (daysInMonth (yr k + delta) (mo k))) /\
  validISO r /\
  (dy r <> dy k -> mo k = 2 /\ dy k = 29 /\ dy r = 28 /\ isLeap (yr k + delta) = false) /\
  isoAddYears k 0 = k.
Proof.
  intros [Hy V] Hr r. pose proof V as [Hm Hd].
  pose proof (daysInMonth_bounds (yr k) (mo k)) as B.
  pose proof (daysInMonth_bounds (yr k + delta) (mo k)) as B'.
  assert (G : forall dl, 1000 <= yr k + dl <= 9999 ->
            isoAddYears k dl =
            Iso (yr k + dl) (mo k) (Z.min (dy k) (daysInMonth (yr k + dl) (mo k)))).
  { intros dl Hdl. unfold isoAddYears, DateUTC. cbv zeta.
    pose proof (daysInMonth_bounds (yr k + dl) (mo k)) as Bd.
    destruct (Z.leb_spec (yr k + dl) 99) as [L|_]; [lia|]. rewrite andb_false_r.
    rewrite MakeDay_civil by exact Hm.
    destruct (Z.le_gt_cases (dy k) (daysInMonth (yr k + dl) (mo k))) as [E|E].
    - assert (V' : validYMD (yr k + dl) (mo k) (dy k)) by (split; lia).
      rewrite (toISODate_civil _ _ _ V').
      destruct (getters_civil _ _ _ V') as (-> & -> & ->).
      rewrite !Z.eqb_refl. cbn [andb]. f_equal. lia.
    - pose proof (overflow_month (yr k + dl) (mo k) (dy k) Hm ltac:(lia)) as O.
      apply Z.eqb_neq in O. rewrite O, andb_false_r. cbn [andb].
      rewrite MakeDay_last_day by exact Hm.
      assert (V' : validYMD (yr k + dl) (mo k) (daysInMonth (yr k + dl) (mo k)))
        by (split; lia).
      rewrite (toISODate_civil _ _ _ V'). f_equal. lia. }
  unfold r. rewrite (G delta Hr). cbn [dy].
  split; [reflexivity|]. split; [split; cbn [yr mo dy]; lia|]. split.
  - intros NE. assert (L : daysInMonth (yr k + delta) (mo k) < dy k) by lia.
    replace (Z.min (dy k) (daysInMonth (yr k + delta) (mo k)))
      with (daysInMonth (yr k + delta) (mo k)) by lia.
    destruct (feb29_only (yr k + delta) (yr k) (mo k) (dy k) Hm ltac:(lia) L)
      as (E1 & E2 & E3 & E4).
    rewrite E3. repeat split; assumption.
  - rewrite (G 0) by lia. rewrite Z.add_0_r. destruct k as [y m d]. cbn [yr mo dy] in *.
    f_equal. lia.
Qed.

Lemma isoAddYears_clamp_witness :
  isoAddYears (Iso 2024 2 29) 1 = Iso 2025 2 28 /\
  isoAddYears (Iso 2024 2 29) 0 = Iso 2024 2 29.
Proof.
  destruct (isoAddYears_clamp (Iso 2024 2 29) 1) as (H1 & _ & _ & H4).
  - unfold fourDigitDate. literal_date.
  - cbn [yr]. lia.
  - split; [|exact H4]. rewrite H1. reflexivity.
Defined.

(** * Trailing averages and the month to date *)

Lemma rangeValues_found (store : gmap iso Q) (a b k : iso) (v : Q) :
  validISO k -> DateOfISO a <= DateOfISO k <= DateOfISO b ->
  store !! k = Some v -> v ∈ rangeValues store a b.
Proof.
  intros V H L. unfold rangeValues. apply list_elem_of_omap.
  exists k. split; [|exact L]. apply daysBetween_elem. now split.
Qed.

Lemma rangeValues_length (store : gmap iso Q) (a b : iso) :
  Z.of_nat (length (rangeValues store a b)) <= Z.max 0 (DateOfISO b - DateOfISO a + 1).
Proof.
  unfold rangeValues.
  assert (L : (length (omap (fun k => store !! k) (daysBetween a b))
               <= length (daysBetween a b))%nat).
  { induction (daysBetween a b) as [|x l IH]; [reflexivity|].
    cbn [omap list_omap]. destruct (store !! x); cbn [length]; lia. }
  unfold daysBetween in L at 2. rewrite length_fmap, length_seqZ in L. lia.
Qed.

Lemma meanFound_is_Some (vs : list Q) (v : Q) : v ∈ vs -> is_Some (meanFound vs).
Proof. intros H. destruct vs; [inversion H|]. cbn. eauto. Qed.

(** X5. The 7 day and 30 day averages of the summary are the means of the
    values stored in the 7 and 30 days that end at the latest date, over the
    days that have a value; the latest value always counts, so both averages
    exist.  Their year over year figures compare them with the means over
    the windows whose two ends are moved one year back, and are null when
    such a window holds no value. *)
Theorem kpi_trailing_averages (fuel : nat) (dataMap : gmap iso Q) :
  dataMap <> ∅ ->
  (forall k, is_Some (dataMap !! k) -> keyDate k) ->
  (400 <= fuel)%nat ->
  exists (kpis : KPIs) (p : DailyPoint),
    computeKPIs fuel (sortedDailyOf dataMap) = Some kpis /\
    latest kpis = Some p /\
    let d := date p in
    let last7 := rangeValues dataMap (daysBack d 6) d in
    let last30 := rangeValues dataMap (daysBack d 29) d in
    let prior7 := rangeValues dataMap (oneYearBefore (daysBack d 6)) (oneYearBefore d) in
    let prior30 := rangeValues dataMap (oneYearBefore (daysBack d 29)) (oneYearBefore d) in
    avg7 kpis = meanFound last7 /\
    avg30 kpis = meanFound last30 /\
    avg7YoY kpis = growthOfBoth (meanFound last7) (meanFound prior7) /\
    avg30YoY kpis = growthOfBoth (meanFound last30) (meanFound prior30) /\
    value p ∈ last7 /\ value p ∈ last30 /\
    is_Some (avg7 kpis) /\ is_Some (avg30 kpis) /\
    (length last7 <= 7)%nat /\ (length last30 <= 30)%nat /\
    (prior7 = [] -> avg7YoY kpis = None) /\
    (prior30 = [] -> avg30YoY kpis = None).
Proof.
  intros NE Hk Hf.
  destruct (sortedDailyOf_nonempty dataMap NE) as [p Hl].
  destruct (sortedDailyOf_last dataMap p Hl) as [Hp Hmax].
  pose proof (Hk _ (mk_is_Some _ _ Hp)) as [_ V].
  exists (kpiSpec dataMap p), p.
  rewrite (computeKPIs_enough fuel _ p Hl (Hk _ (mk_is_Some _ _ Hp)) Hf).
  rewrite sortedDailyOf_lookup.
  split; [reflexivity|]. split; [reflexivity|].
  cbv zeta. cbn [kpiSpec avg7 avg30 avg7YoY avg30YoY].
  change (7 - 1) with 6. change (30 - 1) with 29.
  assert (I7 : value p ∈ rangeValues dataMap (daysBack (date p) 6) (date p)).
  { apply (rangeValues_found _ _ _ (date p)); [exact V| |exact Hp].
    rewrite daysBack_days. lia. }
  assert (I30 : value p ∈ rangeValues dataMap (daysBack (date p) 29) (date p)).
  { apply (rangeValues_found _ _ _ (date p)); [exact V| |exact Hp].
    rewrite daysBack_days. lia. }
  pose proof (rangeValues_length dataMap (daysBack (date p) 6) (date p)) as L7.
  pose proof (rangeValues_length dataMap (daysBack (date p) 29) (date p)) as L30.
  rewrite daysBack_days in L7, L30.
  split; [reflexivity|]. split; [reflexivity|]. split; [reflexivity|].
  split; [reflexivity|]. split; [exact I7|]. split; [exact I30|].
  split; [now apply (meanFound_is_Some _ (value p))|].
  split; [now apply (meanFound_is_Some _ (value p))|].
  split; [lia|]. split; [lia|]. split.
  - intros ->. now destruct (meanFound _).
  - intros ->. now destruct (meanFound _).
Qed.

(** X6. The month to date average of the summary is the mean of the
    values stored from the first of the month of the latest date through
    that date; it always exists.  Its year over year figure compares it with
    the mean from the first of the same month one year before through the
    latest date moved one year back, and is null when that window holds no
    value. *)
Theorem kpi_month_to_date (fuel : nat) (dataMap : gmap iso Q) :
  dataMap <> ∅ ->
  (forall k, is_Some (dataMap !! k) -> keyDate k) ->
  (400 <= fuel)%nat ->
  exists (kpis : KPIs) (p : DailyPoint),
    computeKPIs fuel (sortedDailyOf dataMap) = Some kpis /\
    latest kpis = Some p /\
    let d := date p in
    let mtd := rangeValues dataMap (Iso (yr d) (mo d) 1) d in
    let mtdPY := rangeValues dataMap (oneYearBefore (Iso (yr d) (mo d) 1))
                   (oneYearBefore d) in
    mtdAvg kpis = meanFound mtd /\
    mtdYoY kpis = growthOfBoth (meanFound mtd) (meanFound mtdPY) /\
    oneYearBefore (Iso (yr d) (mo d) 1) = Iso (yr d - 1) (mo d) 1 /\
    value p ∈ mtd /\ is_Some (mtdAvg kpis) /\
    Z.of_nat (length mtd) <= dy d /\
    (mtdPY = [] -> mtdYoY kpis = None).
Proof.
  intros NE Hk Hf.
  destruct (sortedDailyOf_nonempty dataMap NE) as [p Hl].
  destruct (sortedDailyOf_last dataMap p Hl) as [Hp Hmax].
  pose proof (Hk _ (mk_is_Some _ _ Hp)) as [_ V].
  exists (kpiSpec dataMap p), p.
  rewrite (computeKPIs_enough fuel _ p Hl (Hk _ (mk_is_Some _ _ Hp)) Hf).
  rewrite sortedDailyOf_lookup.
  split; [reflexivity|]. split; [reflexivity|].
  cbv zeta. cbn [kpiSpec mtdAvg mtdYoY]. unfold monthStart.
  pose proof (monthStart_days (date p) V) as M. unfold monthStart in M.
  pose proof (monthStart_valid (date p) V) as VM. unfold monthStart in VM.
  assert (I : value p ∈ rangeValues dataMap (Iso (yr (date p)) (mo (date p)) 1) (date p)).
  { apply (rangeValues_found _ _ _ (date p)); [exact V|lia|exact Hp]. }
  pose proof (rangeValues_length dataMap (Iso (yr (date p)) (mo (date p)) 1) (date p)) as L.
  assert (D : DateOfISO (date p) - DateOfISO (Iso (yr (date p)) (mo (date p)) 1) =
              dy (date p) - 1).
  { rewrite (DateOfISO_civil (date p)) by apply V.
    rewrite (DateOfISO_civil (Iso (yr (date p)) (mo (date p)) 1)) by apply V.
    cbn [yr mo dy]. rewrite (daysFromCivil_day _ _ (dy (date p))). lia. }
  destruct V as [Hm Hd].
  split; [reflexivity|]. split; [reflexivity|]. split.
  { unfold oneYearBefore. cbn [yr mo dy].
    pose proof (daysInMonth_bounds (yr (date p) - 1) (mo (date p))).
    destruct (Z.leb_spec 1 (daysInMonth (yr (date p) - 1) (mo (date p)))); [reflexivity|lia]. }
  split; [exact I|]. split; [now apply (meanFound_is_Some _ (value p))|].
  split; [lia|].
  intros ->. now destruct (meanFound _).
Qed.

Lemma kpi_trailing_averages_witness :
  exists (kpis : KPIs) (p : DailyPoint),
    computeKPIs 400 (sortedDailyOf ({[ Iso 2024 5 1 := 7%Q ]} : gmap iso Q)) = Some kpis /\
    latest kpis = Some p /\
    let d := date p in
    let last7 := rangeValues ({[ Iso 2024 5 1 := 7%Q ]} : gmap iso Q) (daysBack d 6) d in
    let last30 := rangeValues ({[ Iso 2024 5 1 := 7%Q ]} : gmap iso Q) (daysBack d 29) d in
    let prior7 := rangeValues ({[ Iso 2024 5 1 := 7%Q ]} : gmap iso Q) (oneYearBefore (daysBack d 6)) (oneYearBefore d) in
    let prior30 := rangeValues ({[ Iso 2024 5 1 := 7%Q ]} : gmap iso Q) (oneYearBefore (daysBack d 29)) (oneYearBefore d) in
    avg7 kpis = meanFound last7 /\
    avg30 kpis = meanFound last30 /\
    avg7YoY kpis = growthOfBoth (meanFound last7) (meanFound prior7) /\
    avg30YoY kpis = growthOfBoth (meanFound last30) (meanFound prior30) /\
    value p ∈ last7 /\ value p ∈ last30 /\
    is_Some (avg7 kpis) /\ is_Some (avg30 kpis) /\
    (length last7 <= 7)%nat /\ (length last30 <= 30)%nat /\
    (prior7 = [] -> avg7YoY kpis = None) /\
    (prior30 = [] -> avg30YoY kpis = None).
Proof.
  apply (kpi_trailing_averages 400 {[ Iso 2024 5 1 := 7%Q ]}).
  - intros E. apply (f_equal (fun m => m !! Iso 2024 5 1)) in E.
    rewrite lookup_singleton_eq, lookup_empty in E. discriminate.
  - intros k [v H]. apply lookup_singleton_Some in H as [<- _]. literal_date.
  - lia.
Defined.

Lemma kpi_month_to_date_witness :
  exists (kpis : KPIs) (p : DailyPoint),
    computeKPIs 400 (sortedDailyOf ({[ Iso 2024 5 1 := 7%Q ]} : gmap iso Q)) = Some kpis /\
    latest kpis = Some p /\
    let d := date p in
    let mtd := rangeValues ({[ Iso 2024 5 1 := 7%Q ]} : gmap iso Q) (Iso (yr d) (mo d) 1) d in
    let mtdPY := rangeValues ({[ Iso 2024 5 1 := 7%Q ]} : gmap iso Q) (oneYearBefore (Iso (yr d) (mo d) 1))
                   (oneYearBefore d) in
    mtdAvg kpis = meanFound mtd /\
    mtdYoY kpis = growthOfBoth (meanFound mtd) (meanFound mtdPY) /\
    oneYearBefore (Iso (yr d) (mo d) 1) = Iso (yr d - 1) (mo d) 1 /\
    value p ∈ mtd /\ is_Some (mtdAvg kpis) /\
    Z.of_nat (length mtd) <= dy d /\
    (mtdPY = [] -> mtdYoY kpis = None).
Proof.
  apply (kpi_month_to_date 400 {[ Iso 2024 5 1 := 7%Q ]}).
  - intros E. apply (f_equal (fun m => m !! Iso 2024 5 1)) in E.
    rewrite lookup_singleton_eq, lookup_empty in E. discriminate.
  - intros k [v H]. apply lookup_singleton_Some in H as [<- _]. literal_date.
  - lia.
Defined.

(** * The monthly series of the chart *)

Lemma monthStep_tables (l : list DailyPoint) :
  NoDup (date <$> l) ->
  forall m : ym,
    (foldl monthStep (∅, ∅) l).1 !! m =
      entryOf (monthRecords l m) (sumQ (value <$> monthRecords l m)) /\
    (foldl monthStep (∅, ∅) l).2 !! m =
      entryOf (monthRecords l m) ((fun p => dy (date p)) <$> monthRecords l m).
Proof.
  induction l as [|p l IH] using rev_ind; intros ND m.
  - cbn. now rewrite !lookup_empty.
  - rewrite fmap_app in ND. cbn in ND.
    apply NoDup_app in ND as (ND1 & ND2 & _).
    specialize (IH ND1).
    rewrite foldl_app. cbn [foldl]. unfold monthStep at 1 3. cbv zeta. cbn [fst snd].
    rewrite monthRecords_snoc.
    destruct (decide (monthKey (date p) = m)) as [E|NE].
    + subst m. rewrite bool_decide_eq_true_2 by reflexivity.
      rewrite !lookup_insert_eq, !entryOf_snoc.
      destruct (IH (monthKey (date p))) as [-> ->].
      rewrite (entryOf_default _ (fun r => sumQ (value <$> r)) 0%Q) by reflexivity.
      rewrite (entryOf_default _ (fun r => (fun p0 => dy (date p0)) <$> r) [])
        by reflexivity.
      split.
      * rewrite fmap_app. cbn [fmap list_fmap]. now rewrite sumQ_snoc.
      * unfold setAdd. rewrite decide_False; [now rewrite fmap_app|].
        intros Hin. apply list_elem_of_fmap in Hin as (r & Hr & Hin).
        apply monthRecords_elem in Hin as [Hin Hm].
        assert (Er : date p = date r).
        { unfold monthKey in Hm. destruct (date p), (date r). cbn in *.
          injection Hm as -> ->. now subst. }
        apply (ND2 (date p)).
        -- rewrite Er. apply list_elem_of_fmap. now exists r.
        -- apply list_elem_of_here.
    + rewrite bool_decide_eq_false_2 by exact NE.
      rewrite !lookup_insert_ne by exact NE. rewrite app_nil_r. apply IH.
Qed.

Lemma monthPointOf_spec (lk : gmap iso Q) (filtered : list DailyPoint) (m : ym) :
  NoDup (date <$> filtered) -> 1 <= m.2 <= 12 -> 100 <= m.1 ->
  monthPointOf lk (foldl monthStep (∅, ∅) filtered).1
               (foldl monthStep (∅, ∅) filtered).2 m =
  monthPoint lk filtered m.
Proof.
  intros ND Hm Hy. unfold monthPointOf, monthPoint, sumMonthByDaySet. cbv zeta.
  destruct (monthStep_tables filtered ND m) as [-> ->].
  rewrite (entryOf_default _ (fun r => sumQ (value <$> r)) 0%Q) by reflexivity.
  rewrite (entryOf_default _ (fun r => (fun p => dy (date p)) <$> r) []) by reflexivity.
  rewrite !sumKeys_found, !omap_fmap_compose.
  rewrite addMonths_prev by assumption.
  unfold prevYearMonthOf, getYear, getMonth, growthOver. cbn [fst snd].
  reflexivity.
Qed.

(** X7. In the monthly mode the chart gives one point for each month that
    has a record in the range, in the order of the months.  The units of a
    point are the sum of the records of the month in the range; the prior
    year value is the sum of the values stored on the same days of the month
    one year before, the month over month comparator the sum of the values
    stored on the same days of the month before; a comparator with no stored
    day is null and so is its growth. *)
Theorem monthly_series (fuel : nat) (sortedDaily : list DailyPoint)
    (lastPoint : DailyPoint) (fromIso toIso : option iso) (rangeDays : Z) :
  let f := (chartRange (date lastPoint) fromIso toIso rangeDays).1 in
  let t := (chartRange (date lastPoint) fromIso toIso rangeDays).2 in
  let store := dailyLookupOf sortedDaily in
  let filtered := inRange f t sortedDaily in
  last sortedDaily = Some lastPoint ->
  NoDup (date <$> sortedDaily) ->
  Forall keyDate (date <$> sortedDaily) ->
  exists months : list ym,
    dailyForChart fuel sortedDaily fromIso toIso rangeDays monthly =
      Some (monthPoint store filtered <$> months) /\
    StronglySorted ym_le months /\ NoDup months /\
    (forall m, m ∈ months <-> exists p, p ∈ filtered /\ monthKey (date p) = m) /\
    (forall m,
       let recs := monthRecords filtered m in
       let pm := prevMonthOf m in
       let pt := monthPoint store filtered m in
       let prevYoY :=
         sumFound (omap (fun p => store !! Iso (m.1 - 1) m.2 (dy (date p))) recs) in
       let prevMoM :=
         sumFound (omap (fun p => store !! Iso pm.1 pm.2 (dy (date p))) recs) in
       label pt = ymText m /\
       units pt = sumQ (value <$> recs) /\
       prev_year_units pt = prevYoY /\
       yoy_pct pt = growthOver (units pt) prevYoY /\
       mom_pct pt = growthOver (units pt) prevMoM /\
       ((forall p, p ∈ recs -> store !! Iso (m.1 - 1) m.2 (dy (date p)) = None) ->
        prev_year_units pt = None /\ yoy_pct pt = None) /\
       ((forall p, p ∈ recs -> store !! Iso pm.1 pm.2 (dy (date p)) = None) ->
        mom_pct pt = None)).
Proof.
  intros f t store filtered Hl ND Hk.
  assert (NDf : NoDup (date <$> filtered)) by now apply filter_dates_NoDup.
  assert (Kf : Forall keyDate (date <$> filtered)) by now apply filter_dates_Forall.
  assert (M : forall m, m ∈ sortedMonths (foldl monthStep (∅, ∅) filtered).1 <->
                        exists p, p ∈ filtered /\ monthKey (date p) = m).
  { intros m. rewrite sortedMonths_elem.
    destruct (monthStep_tables filtered NDf m) as [-> _].
    destruct (monthRecords filtered m) as [|q recs] eqn:ER; cbn [entryOf].
    - split; [intros [v Hv]; discriminate|].
      intros (p & Hp & Hw). exfalso.
      assert (Hin : p ∈ monthRecords filtered m) by now apply monthRecords_elem.
      rewrite ER in Hin. inversion Hin.
    - split; [intros _|intros _; eauto].
      exists q. apply monthRecords_elem. rewrite ER. apply list_elem_of_here. }
  exists (sortedMonths (foldl monthStep (∅, ∅) filtered).1).
  split; [|split; [|split; [|split]]].
  - unfold dailyForChart. rewrite Hl. cbv zeta. fold f t store filtered.
    f_equal. apply list_fmap_ext. intros i m Hi.
    apply list_elem_of_lookup_2 in Hi. apply M in Hi as (p & Hp & <-).
    assert (K : keyDate (date p)).
    { rewrite Forall_forall in Kf. apply Kf. apply list_elem_of_fmap. now exists p. }
    destruct K as [Hy [Hm _]].
    apply monthPointOf_spec; [exact NDf|exact Hm|cbn; lia].
  - apply sortedMonths_sorted.
  - apply sortedMonths_NoDup.
  - exact M.
  - intros m. cbv zeta. unfold monthPoint. cbv zeta.
    cbn [label units prev_year_units yoy_pct mom_pct].
    split; [reflexivity|]. split; [reflexivity|]. split; [reflexivity|].
    split; [reflexivity|]. split; [reflexivity|]. split.
    + intros H. now rewrite (omap_all_None _ _ H).
    + intros H. now rewrite (omap_all_None _ _ H).
Qed.

Lemma monthly_series_witness :
  exists months : list ym,
    dailyForChart 0 twoDayMonthData None None 120 monthly =
    Some (monthPoint (dailyLookupOf twoDayMonthData)
            (inRange (Iso 2023 10 5) (Iso 2024 2 2) twoDayMonthData) <$> months).
Proof.
  destruct (monthly_series 0 twoDayMonthData (sampleDay 2024 2 2 40) None None 120)
    as (months & H & _).
  - reflexivity.
  - apply (bool_decide_unpack _). vm_compute. exact I.
  - change (Forall keyDate [Iso 2023 2 2; Iso 2024 1 1; Iso 2024 1 3; Iso 2024 2 1;
                            Iso 2024 2 2]).
    repeat (constructor; [literal_date|]). constructor.
  - exists months. exact H.
Defined.

Lemma monthly_days_example :
  dailyForChart 0 twoDayMonthData None None 120 monthly =
  Some [ {| label := "2024-01";
            units := 1005;
            prev_year_units := None;
            yoy_pct := None;
            mom_pct := None |};
         {| label := "2024-02";
            units := 70;
            prev_year_units := Some 9%Q;
            yoy_pct := growthPct 70 (Some 9%Q);
            mom_pct := growthPct 70 (Some 5%Q) |} ].
Proof. vm_compute. reflexivity. Qed.

(** * The range of the chart *)





(** * The store and its sorted records *)

Lemma mergeRecords_snoc (m : gmap iso Q) (l : list DailyPoint) (p : DailyPoint) :
  mergeRecords m (l ++ [p]) = <[date p := value p]> (mergeRecords m l).
Proof. unfold mergeRecords. now rewrite foldl_app. Qed.

Lemma mergeRecords_lookup (m : gmap iso Q) (l : list DailyPoint) (k : iso) :
  mergeRecords m l !! k = from_option Some (m !! k) (lastValue k l).
Proof.
  unfold lastValue.
  induction l as [|p l IH] using rev_ind; [reflexivity|].
  rewrite mergeRecords_snoc, filter_app, filter_cons, filter_nil.
  destruct (decide (date p = k)) as [E|NE].
  - rewrite last_snoc, E, lookup_insert_eq. reflexivity.
  - rewrite app_nil_r, lookup_insert_ne by exact NE. exact IH.
Qed.

Lemma lastValue_is_Some (k : iso) (l : list DailyPoint) :
  is_Some (lastValue k l) <-> k ∈ date <$> l.
Proof.
  unfold lastValue. rewrite fmap_is_Some, last_is_Some, list_elem_of_fmap. split.
  - intros NE. destruct (filter (fun r => date r = k) l) as [|r l'] eqn:E; [easy|].
    assert (Hr : r ∈ filter (fun r => date r = k) l) by (rewrite E; apply list_elem_of_here).
    apply list_elem_of_filter in Hr as [Hk Hr]. now exists r.
  - intros (r & -> & Hr) E.
    assert (H : r ∈ filter (fun r0 => date r0 = date r) l)
      by (apply list_elem_of_filter; now split).
    rewrite E in H. inversion H.
Qed.

Lemma mergeRecords_size (m : gmap iso Q) (l : list DailyPoint) :
  (size m <= size (mergeRecords m l) <= size m + length l)%nat.
Proof.
  induction l as [|p l IH] using rev_ind; [cbn; lia|].
  rewrite mergeRecords_snoc, length_app, map_size_insert. cbn [length].
  destruct (mergeRecords m l !! date p); unfold id; lia.
Qed.

(** X9. [mergeRecords] leaves the stored value of every date no incoming
    record names, and gives every other date the value of the last incoming
    record that names it.  Merging two batches one after the other is merging
    their concatenation, merging a batch twice changes nothing more, and the
    store neither shrinks nor grows by more than the number of incoming
    records. *)
Theorem mergeRecords_laws (existingMap : gmap iso Q) (a b : list DailyPoint) (k : iso) :
  let next := mergeRecords existingMap a in
  next !! k = from_option Some (existingMap !! k) (lastValue k a) /\
  (k ∉ date <$> a -> next !! k = existingMap !! k) /\
  (is_Some (next !! k) <-> is_Some (existingMap !! k) \/ k ∈ date <$> a) /\
  mergeRecords next b = mergeRecords existingMap (a ++ b) /\
  mergeRecords next a = next /\
  (size existingMap <= size next <= size existingMap + length a)%nat.
Proof.
  intros next. unfold next.
  split; [apply mergeRecords_lookup|].
  split.
  { intros H. rewrite mergeRecords_lookup.
    destruct (lastValue k a) eqn:E; [|reflexivity].
    exfalso. apply H, lastValue_is_Some. now rewrite E. }
  split.
  { rewrite mergeRecords_lookup, <- lastValue_is_Some.
    destruct (lastValue k a); cbn; split.
    - intros _. right. now eexists.
    - intros _. now eexists.
    - intros H. now left.
    - intros [H|[? H]]; [exact H|discriminate]. }
  split; [unfold mergeRecords; now rewrite foldl_app|].
  split; [|apply mergeRecords_size].
  apply map_eq. intros j. rewrite !mergeRecords_lookup.
  destruct (lastValue j a); reflexivity.
Qed.

Lemma strictly_sorted (l : list DailyPoint) :
  StronglySorted date_le l -> NoDup (date <$> l) -> Forall (fun p => validISO (date p)) l ->
  StronglySorted (fun p q => DateOfISO (date p) < DateOfISO (date q)) l.
Proof.
  induction 1 as [|p l SS IH Hp]; intros ND V; [constructor|].
  cbn in ND. apply NoDup_cons in ND as [Np ND].
  apply Forall_cons in V as [Vp V].
  constructor; [now apply IH|].
  rewrite Forall_forall in Hp, V. apply Forall_forall. intros q Hq.
  specialize (Hp q Hq). unfold date_le, iso_le in Hp. apply Is_true_true in Hp.
  rewrite (iso_leb_days _ _ Vp (V q Hq)) in Hp. apply Z.leb_le in Hp.
  destruct (Z.eq_dec (DateOfISO (date p)) (DateOfISO (date q))) as [E|NE]; [|lia].
  exfalso. apply Np. apply (DateOfISO_inj _ _ Vp (V q Hq)) in E. rewrite E.
  apply list_elem_of_fmap. now exists q.
Qed.

(** X10. [sortedDaily] lists every record of the store once, by strictly
    increasing date, and nothing else; the lookup table built from it, and
    the merge of it into an empty store, are the store again. *)
Theorem sortedDaily_invariants (dataMap : gmap iso Q) :
  (forall k, is_Some (dataMap !! k) -> fourDigitDate k) ->
  let sortedDaily := sortedDailyOf dataMap in
  StronglySorted (fun p q => DateOfISO (date p) < DateOfISO (date q)) sortedDaily /\
  NoDup (date <$> sortedDaily) /\
  (forall p, p ∈ sortedDaily <-> dataMap !! date p = Some (value p)) /\
  length sortedDaily = size dataMap /\
  dailyLookupOf sortedDaily = dataMap /\
  mergeRecords ∅ sortedDaily = dataMap /\
  (sortedDaily = [] <-> dataMap = ∅).
Proof.
  intros K sortedDaily. unfold sortedDaily.
  split.
  { apply strictly_sorted.
    - apply (StronglySorted_merge_sort date_le).
    - apply sortedDailyOf_NoDup.
    - apply Forall_forall. intros p Hp. apply sortedDailyOf_elem in Hp.
      apply (K (date p)). exists (value p). exact Hp. }
  split; [apply sortedDailyOf_NoDup|].
  split; [apply sortedDailyOf_elem|].
  split.
  { rewrite sortedDailyOf_perm, length_fmap. apply length_map_to_list. }
  split; [apply sortedDailyOf_lookup|].
  split; [apply sortedDailyOf_lookup|].
  split.
  - intros E. apply map_size_empty_iff.
    rewrite <- length_map_to_list, <- (length_fmap (fun e : iso * Q => {| date := e.1; value := e.2 |})).
    rewrite <- sortedDailyOf_perm, E. reflexivity.
  - intros ->. unfold sortedDailyOf. rewrite map_to_list_empty. reflexivity.
Qed.

Lemma sortedDaily_invariants_witness :
  dailyLookupOf (sortedDailyOf {[ Iso 2024 3 6 := 20%Q; Iso 2024 3 5 := 30%Q ]})
    = {[ Iso 2024 3 6 := 20%Q; Iso 2024 3 5 := 30%Q ]} /\
  length (sortedDailyOf {[ Iso 2024 3 6 := 20%Q; Iso 2024 3 5 := 30%Q ]}) = 2%nat.
Proof.
  destruct (sortedDaily_invariants {[ Iso 2024 3 6 := 20%Q; Iso 2024 3 5 := 30%Q ]})
    as (_ & _ & _ & L & D & _).
  - intros k [v Hk].
    apply lookup_insert_Some in Hk as [[<- _]|[_ Hk]]; [unfold fourDigitDate; literal_date|].
    apply lookup_singleton_Some in Hk as [<- _]. unfold fourDigitDate; literal_date.
  - split; [exact D|]. rewrite L. vm_compute. reflexivity.
Defined.

(** * Dates typed as day, month and year *)

Lemma daysFromCivil_years (y m d n : Z) :
  1 <= m <= 12 -> 0 <= n ->
  daysFromCivil y m d + 365 * n <= daysFromCivil (y + n) m d.
Proof.
  intros Hm Hn. revert n Hn. apply natlike_ind.
  - cbv beta. replace (y + 0) with y by lia. lia.
  - intros n Hn IH. replace (y + Z.succ n) with (y + n + 1) by lia.
    pose proof (daysFromCivil_year_bounds (y + n) m d Hm). lia.
Qed.

Lemma valOf_digits (ds : list Z) : Forall digit ds -> 0 <= valOf ds.
Proof.
  induction ds as [|d ds IH] using rev_ind; intros H; [reflexivity|].
  apply Forall_app in H as [H1 H2]. apply Forall_cons in H2 as [H2 _].
  rewrite valOf_snoc. specialize (IH H1). unfold digit in H2. lia.
Qed.

Lemma isDigit_val (c : ascii) : isDigit c = true -> digit (digitVal c).
Proof.
  unfold isDigit, digitVal, digit. cbv zeta.
  rewrite andb_true_iff, Nat.leb_le, Nat.leb_le. lia.
Qed.

Lemma numberOfDigits_digits (s : string) : allDigits s = true -> 0 <= numberOfDigits s.
Proof.
  intros H. apply valOf_digits. induction s as [|c s IH]; [constructor|].
  cbn [allDigits] in H. apply andb_true_iff in H as [Hc Hs].
  cbn [digitsOfString]. constructor; [now apply isDigit_val|now apply IH].
Qed.

Lemma DateUTC_small_year (yyyy mm dd : Z) :
  0 <= yyyy <= 99 -> 1 <= mm <= 12 ->
  DateUTC yyyy (mm - 1) dd = daysFromCivil (yyyy + 1900) mm dd.
Proof.
  intros Y M. unfold DateUTC.
  destruct (Z.leb_spec 0 yyyy); [|lia]. destruct (Z.leb_spec yyyy 99); [|lia].
  cbn [andb]. rewrite MakeDay_civil by exact M. f_equal. lia.
Qed.

Lemma DateUTC_large_year (yyyy mm dd : Z) :
  100 <= yyyy -> 1 <= mm <= 12 ->
  DateUTC yyyy (mm - 1) dd = daysFromCivil yyyy mm dd.
Proof.
  intros Y M. unfold DateUTC.
  destruct (Z.leb_spec yyyy 99); [lia|]. rewrite andb_false_r.
  now apply MakeDay_civil.
Qed.

Lemma getters_date (n y m d : Z) :
  getUTCFullYear n = y -> getUTCMonth n = m - 1 -> getUTCDate n = d ->
  validYMD y m d /\ daysFromCivil y m d = n.
Proof.
  unfold getUTCFullYear, getUTCMonth, getUTCDate. intros Ey Em Ed.
  pose proof (civil_valid n) as V. pose proof (days_civil n) as E.
  assert (Em' : (civilFromDays n).1.2 = m) by lia.
  rewrite Ey, Em', Ed in V, E. now split.
Qed.

Lemma DateUTC_accept (yyyy mm dd : Z) :
  0 <= yyyy ->
  (negb (getUTCFullYear (DateUTC yyyy (mm - 1) dd) =? yyyy) ||
   negb (getUTCMonth (DateUTC yyyy (mm - 1) dd) =? mm - 1) ||
   negb (getUTCDate (DateUTC yyyy (mm - 1) dd) =? dd)) = false <->
  validYMD yyyy mm dd /\ 100 <= yyyy.
Proof.
  intros Y0. rewrite !orb_false_iff, !negb_false_iff, !Z.eqb_eq. split.
  - intros [[Ey Em] Ed].
    destruct (getters_date _ _ _ _ Ey Em Ed) as [V E].
    split; [exact V|].
    destruct (Z_lt_le_dec yyyy 100) as [L|G]; [exfalso|exact G].
    rewrite DateUTC_small_year in E by (try apply V; lia).
    pose proof (daysFromCivil_years yyyy mm dd 1900 (proj1 V)) as B. lia.
  - intros [V G]. rewrite DateUTC_large_year by (try apply V; lia).
    destruct (getters_civil _ _ _ V) as (A & B & C). now rewrite A, B, C.
Qed.

(** X11. A text of the shape DD-MM-YYYY, white space around it apart, is
    accepted by [parseInputDate] exactly when its three numbers are a real
    calendar date and the year is at least 100; the key is then that year,
    month and day.  Every other text of the shape is refused: a day the
    month does not have, a month outside 1 to 12, a year below 100. *)
Theorem parseInputDate_day_month_year (s : string) (k : iso) :
  testDMYShape (trim s) = true ->
  let t := trim s in
  let dd := numberOfDigits (String.substring 0 2 t) in
  let mm := numberOfDigits (String.substring 3 2 t) in
  let yyyy := numberOfDigits (String.substring 6 4 t) in
  (parseInputDate s = Some k <-> k = Iso yyyy mm dd /\ validISO k /\ 100 <= yr k) /\
  (parseInputDate s = None <-> ~ (validYMD yyyy mm dd /\ 100 <= yyyy)).
Proof.
  intros H t dd mm yyyy.
  assert (Y0 : 0 <= yyyy).
  { apply numberOfDigits_digits. unfold testDMYShape in H.
    fold t in H. repeat (apply andb_true_iff in H as [H ?]). assumption. }
  pose proof (DateUTC_accept yyyy mm dd Y0) as A. cbv zeta in A.
  unfold parseInputDate. cbv zeta. rewrite H. fold t. fold dd mm yyyy.
  destruct (negb (getUTCFullYear (DateUTC yyyy (mm - 1) dd) =? yyyy) ||
            negb (getUTCMonth (DateUTC yyyy (mm - 1) dd) =? mm - 1) ||
            negb (getUTCDate (DateUTC yyyy (mm - 1) dd) =? dd)) eqn:E.
  - assert (N : ~ (validYMD yyyy mm dd /\ 100 <= yyyy)).
    { intros V. apply (proj2 A) in V. discriminate V. }
    split; split.
    + intros K. discriminate K.
    + intros (-> & V & G). exfalso. apply N. split; [exact V|exact G].
    + intros _. exact N.
    + intros _. reflexivity.
  - destruct (proj1 A eq_refl) as [V G]. split; split.
    + intros K. injection K as <-. split; [reflexivity|]. split; [exact V|exact G].
    + intros (-> & _). reflexivity.
    + intros K. discriminate K.
    + intros N. exfalso. apply N. split; [exact V|exact G].
Qed.

Lemma parseInputDate_day_month_year_witness :
  parseInputDate " 29-02-2024 " = Some (Iso 2024 2 29) /\
  parseInputDate "29-02-2023" = None /\
  parseInputDate "01-01-0050" = None.
Proof.
  split; [|split].
  - destruct (parseInputDate_day_month_year " 29-02-2024 " (Iso 2024 2 29) eq_refl)
      as [[_ H] _].
    apply H. split; [reflexivity|]. split; [literal_date|cbn [yr]; lia].
  - destruct (parseInputDate_day_month_year "29-02-2023" (Iso 2023 2 29) eq_refl)
      as [_ [_ H]].
    apply H. intros [[_ [_ V]] _]. revert V. vm_compute. intros V. apply V. reflexivity.
  - destruct (parseInputDate_day_month_year "01-01-0050" (Iso 50 1 1) eq_refl)
      as [_ [_ H]].
    apply H. intros [_ G]. revert G. vm_compute. intros G. apply G. reflexivity.
Defined.

(** * Headers, the sample and single entries *)

Lemma shape_length (t : string) :
  String.length t = 10%nat ->
  exists c0 c1 c2 c3 c4 c5 c6 c7 c8 c9,
    t = String c0 (String c1 (String c2 (String c3 (String c4 (String c5 (String c6
          (String c7 (String c8 (String c9 ""))))))))).
Proof.
  intros H.
  do 10 (destruct t as [|? t]; [discriminate H|]).
  destruct t; [|discriminate H]. repeat eexists.
Qed.

Lemma eqb_dash (c : ascii) : String.eqb (String c "") "-" = Ascii.eqb c "-".
Proof. cbn. now destruct (Ascii.eqb c "-"). Qed.

Lemma shape_chars (t : string) :
  testDMYShape t = true \/ testISOShape t = true -> allChars dateChar t = true.
Proof.
  intros H.
  assert (L : String.length t = 10%nat).
  { destruct H as [H|H]; unfold testDMYShape, testISOShape in H;
      repeat (apply andb_true_iff in H as [H _]); now apply Nat.eqb_eq in H. }
  destruct (shape_length t L) as (c0 & c1 & c2 & c3 & c4 & c5 & c6 & c7 & c8 & c9 & ->).
  unfold testDMYShape, testISOShape in H.
  cbn [String.length String.substring allDigits] in H.
  rewrite !eqb_dash in H. rewrite !andb_true_r in H.
  cbn [allChars]. unfold dateChar.
  destruct H as [H|H]; cbn [Nat.eqb andb] in H;
    rewrite !andb_true_iff in H;
    repeat match goal with E : _ /\ _ |- _ => destruct E end;
    repeat match goal with E : _ = true |- _ => rewrite E; clear E end;
    rewrite ?orb_true_r; reflexivity.
Qed.

Lemma trimEnd_chars (P : ascii -> bool) (s : string) :
  (forall c, isWhite c = true -> P c = true) ->
  allChars P (trimEnd s) = true -> allChars P s = true.
Proof.
  intros W. induction s as [|c s IH]; [reflexivity|].
  cbn [trimEnd]. destruct (trimEnd s) as [|c' r] eqn:E.
  - intros H. cbn [allChars]. rewrite (IH eq_refl), andb_true_r.
    destruct (isWhite c) eqn:Wc; [now apply W|].
    cbn [allChars] in H. now apply andb_true_iff in H as [H _].
  - cbn [allChars]. intros H. apply andb_true_iff in H as [H1 H2].
    rewrite H1. cbn [andb]. apply IH. exact H2.
Qed.

Lemma trimStart_chars (P : ascii -> bool) (s : string) :
  (forall c, isWhite c = true -> P c = true) ->
  allChars P (trimStart s) = true -> allChars P s = true.
Proof.
  intros W. induction s as [|c s IH]; [reflexivity|].
  cbn [trimStart]. destruct (isWhite c) eqn:Wc.
  - intros H. cbn [allChars]. rewrite (W c Wc), (IH H). reflexivity.
  - intros H. exact H.
Qed.

Lemma trim_chars (P : ascii -> bool) (s : string) :
  (forall c, isWhite c = true -> P c = true) ->
  allChars P (trim s) = true -> allChars P s = true.
Proof.
  intros W H. apply trimStart_chars; [exact W|]. now apply trimEnd_chars.
Qed.

Lemma parseInputDate_shape (s : string) (k : iso) :
  parseInputDate s = Some k ->
  testDMYShape (trim s) = true \/ testISOShape (trim s) = true.
Proof.
  unfold parseInputDate. cbv zeta.
  destruct (testDMYShape (trim s)); [now left|].
  destruct (testISOShape (trim s)); [now right|discriminate].
Qed.

Lemma dateChar_lower (c : ascii) :
  dateChar c = true -> lowerChar c <> "d"%char.
Proof.
  destruct c as [[] [] [] [] [] [] [] []]; vm_compute; intros H;
    try discriminate H; intros E; discriminate E.
Qed.

Lemma no_date_word (s rest : string) :
  allChars dateChar s = true -> includes (String "d" rest) (toLowerCase s) = false.
Proof.
  induction s as [|c s IH]; intros H; [reflexivity|].
  cbn [allChars] in H. apply andb_true_iff in H as [Hc Hs].
  cbn [toLowerCase includes String.prefix].
  destruct (ascii_dec "d" (lowerChar c)) as [E|_].
  - exfalso. now apply (dateChar_lower c Hc).
  - cbn [orb]. now apply IH.
Qed.

Lemma date_cell_no_word (s : string) (k : iso) :
  parseInputDate s = Some k -> includes "date" (toLowerCase s) = false.
Proof.
  intros H. apply no_date_word. apply trim_chars.
  - intros c Wc. unfold dateChar. now rewrite Wc, orb_true_r.
  - apply shape_chars. now apply (parseInputDate_shape s k).
Qed.

Lemma header_no_record (row : list string) :
  includes "date" (toLowerCase (cell row 0)) = true -> rowRecord row = None.
Proof.
  intros H. unfold rowRecord.
  destruct (parseInputDate (cell row 0)) as [k|] eqn:E; [|reflexivity].
  rewrite (date_cell_no_word _ _ E) in H. discriminate H.
Qed.

Lemma dropHeader_records (key : string) (rows : list (list string)) :
  omap rowRecord (dropHeader key rows) = omap rowRecord rows.
Proof.
  destruct rows as [|r rest]; [reflexivity|]. cbn [dropHeader].
  destruct (isHeader key r) eqn:E; [|reflexivity].
  unfold isHeader in E. cbv zeta in E. apply andb_true_iff in E as [E _].
  cbn [omap list_omap]. now rewrite (header_no_record r E).
Qed.

Lemma part000_dropHeader_records (rows : list (list string)) :
  omap rowRecord (Part000.dropHeader rows) = omap rowRecord rows.
Proof.
  destruct rows as [|r rest]; [reflexivity|]. cbn [Part000.dropHeader].
  destruct (Part000.isHeader r) eqn:E; [|reflexivity].
  unfold Part000.isHeader in E. cbv zeta in E. apply andb_true_iff in E as [E _].
  cbn [omap list_omap]. now rewrite (header_no_record r E).
Qed.

Lemma part000_rows_parsed (rows : list (list string)) (i : Z) (r : CsvResult) :
  parsed (foldl Part000.csvRowStep (i, r) rows).2 = parsed r ++ omap rowRecord rows.
Proof.
  revert i r. induction rows as [|row rows IH]; intros i r.
  - cbn. now rewrite app_nil_r.
  - cbn [foldl omap list_omap].
    unfold Part000.csvRowStep at 2, rowRecord. cbv zeta. cbn [fst snd].
    destruct (parseInputDate (cell row 0)) as [dt|]; [|now rewrite IH].
    destruct (Number (removeCommas (cell row 1))) as [|neg|q]; [now rewrite IH..|].
    destruct (Qle_bool 0 q); rewrite IH; cbn [parsed]; [|reflexivity].
    now rewrite <- app_assoc.
Qed.

(** X12. The records [csvParse] returns are the records of the rows that
    give one, in order, whatever the column key and whether or not the first
    row is dropped as a header; the two source files, which know the header
    by different words, return the same records.  A row either file drops as
    a header gives no record: its date cell holds the word date, which no
    accepted date holds, so read as data it is an invalid date. *)
Theorem header_costs_no_record (text valueColumnKey : string) :
  parsed (csvParse text valueColumnKey) = omap rowRecord (csvRows text) /\
  parsed (Part000.csvParse text) = omap rowRecord (csvRows text) /\
  (forall row, isHeader valueColumnKey row = true \/ Part000.isHeader row = true ->
               rowRecord row = None /\
               rowError 0 row = Some (dateError 0 (cell row 0))).
Proof.
  split; [|split].
  - unfold csvParse. rewrite (proj1 (csvParseRows_spec _)). apply dropHeader_records.
  - unfold Part000.csvParse. rewrite part000_rows_parsed. cbn [parsed app].
    apply part000_dropHeader_records.
  - intros row H.
    assert (E : includes "date" (toLowerCase (cell row 0)) = true).
    { destruct H as [H|H]; [unfold isHeader in H|unfold Part000.isHeader in H];
        cbv zeta in H; now apply andb_true_iff in H as [H _]. }
    split; [now apply header_no_record|].
    unfold rowError.
    destruct (parseInputDate (cell row 0)) as [k|] eqn:P; [|reflexivity].
    rewrite (date_cell_no_word _ _ P) in E. discriminate E.
Qed.

Lemma csvParse_records (text valueColumnKey : string) :
  parsed (csvParse text valueColumnKey) = omap rowRecord (csvRows text).
Proof.
  unfold csvParse. rewrite (proj1 (csvParseRows_spec _)). apply dropHeader_records.
Qed.

Lemma sample_rows :
  omap rowRecord
    (rowsOfLines ["18-12-2025,4140"; "19-12-2025,4215"; "20-12-2025,4198"])
  = sampleRecords.
Proof. vm_compute. reflexivity. Qed.

Lemma sample_rows_errors :
  csvParseRows (rowsOfLines ["18-12-2025,4140"; "19-12-2025,4215"; "20-12-2025,4198"])
  = {| parsed := sampleRecords; errors := [] |}.
Proof. vm_compute. reflexivity. Qed.

Lemma date_word : parseInputDate "date" = None.
Proof. vm_compute. reflexivity. Qed.

Lemma sample_lines (key : string) :
  allChars notBreak key = true ->
  csvRows (sampleCSV key) =
  rowsOfLines ["date," +:+ key] ++
  rowsOfLines ["18-12-2025,4140"; "19-12-2025,4215"; "20-12-2025,4198"].
Proof.
  intros K. unfold csvRows, sampleCSV.
  rewrite splitLines_join.
  - apply (rowsOfLines_app ["date," +:+ key]).
  - constructor.
    + change ("date," +:+ key) with ("date," +:+ key).
      rewrite allChars_app, K. reflexivity.
    + repeat constructor.
Qed.

(** X13. For a column key without a line break the sample parses to its
    three records, 4140, 4215 and 4198 on 18, 19 and 20 December 2025, and
    [loadSample] sets these three dates in the store and leaves every other
    date as it was; for a key without white space or comma there is no
    message. *)
Theorem sample_loads (valueColumnKey : string) (prev : gmap iso Q) :
  allChars notBreak valueColumnKey = true ->
  parsed (csvParse (sampleCSV valueColumnKey) valueColumnKey) = sampleRecords /\
  loadSample valueColumnKey prev =
    <[Iso 2025 12 20 := 4198%Q]>
      (<[Iso 2025 12 19 := 4215%Q]> (<[Iso 2025 12 18 := 4140%Q]> prev)) /\
  (allChars keyChar valueColumnKey = true ->
   csvParse (sampleCSV valueColumnKey) valueColumnKey =
   {| parsed := sampleRecords; errors := [] |}).
Proof.
  intros K.
  assert (P : parsed (csvParse (sampleCSV valueColumnKey) valueColumnKey) = sampleRecords).
  { rewrite csvParse_records, (sample_lines _ K), omap_app, sample_rows.
    rewrite rowsOfLines_cons.
    destruct (header_row valueColumnKey) as (_ & c & rest & ->).
    cbn [length Nat.leb app rowsOfLines fmap list_fmap List.filter omap list_omap].
    unfold rowRecord, cell. cbn [lookup list_lookup default].
    unfold id. rewrite date_word. reflexivity. }
  split; [exact P|]. split.
  - unfold loadSample. rewrite P. reflexivity.
  - intros KC. unfold csvParse. rewrite (sample_lines _ K), header_dropped by exact KC.
    apply sample_rows_errors.
Qed.

Lemma sample_loads_witness :
  loadSample "units" {[ Iso 2025 12 18 := 1%Q ]} !! Iso 2025 12 18 = Some 4140%Q /\
  csvParse (sampleCSV "units") "units" = {| parsed := sampleRecords; errors := [] |}.
Proof.
  destruct (sample_loads "units" {[ Iso 2025 12 18 := 1%Q ]} eq_refl) as (_ & L & E).
  split; [|exact (E eq_refl)].
  rewrite L. rewrite lookup_insert_ne by discriminate.
  rewrite lookup_insert_ne by discriminate. apply lookup_insert_eq.
Defined.

Lemma blank_cells (a : string) :
  allChars numChar a = true ->
  csvRows (a +:+ ",") = [[a; ""]].
Proof.
  intros A.
  destruct (data_row a "" A eq_refl) as (T & NE & C).
  unfold csvRows. rewrite splitLines_plain.
  - unfold rowsOfLines. cbn [fmap list_fmap]. rewrite T.
    cbn [List.filter]. rewrite NE. cbn [fmap list_fmap List.filter]. rewrite C.
    reflexivity.
  - change (a +:+ ",") with (a +:+ String "," "").
    rewrite allChars_app. cbn [allChars]. rewrite andb_true_r.
    rewrite (allChars_impl numChar notBreak a); [reflexivity| |exact A].
    intros c Hc. now apply numChar_plain.
Qed.

(** X14. A missing value is read as 0: the line of a date followed by a
    comma and nothing imports as a record of value 0 with no message, and
    saving a date with an empty value text stores 0 on that date. *)
Theorem blank_value_is_zero (k : iso) (valueColumnKey seriesLabel : string)
    (dataMap : gmap iso Q) :
  fourDigitDate k ->
  csvParse (formatDDMMYYYY k +:+ ",") valueColumnKey =
    {| parsed := [ {| date := k; value := 0 |} ]; errors := [] |} /\
  upsertOne (formatDDMMYYYY k) "" seriesLabel dataMap = (<[k := 0%Q]> dataMap, []).
Proof.
  intros FD.
  pose proof (parseInputDate_format k FD) as P.
  split.
  - unfold csvParse. rewrite (blank_cells _ (allChars_date k FD)).
    assert (H : dropHeader valueColumnKey [[formatDDMMYYYY k; ""]] =
                [[formatDDMMYYYY k; ""]]).
    { cbn [dropHeader]. unfold isHeader. cbv zeta. unfold cell at 1.
      cbn [lookup list_lookup default]. unfold id.
      now rewrite (date_cell_no_word _ _ P). }
    rewrite H, csvParseRows_eq. cbn [omap list_omap imap].
    unfold rowRecord, rowError, cell. cbn [lookup list_lookup default]. unfold id.
    rewrite P. reflexivity.
  - unfold upsertOne. rewrite P. reflexivity.
Qed.

Lemma blank_value_is_zero_witness :
  csvParse "18-12-2025," "units" =
  {| parsed := [ {| date := Iso 2025 12 18; value := 0 |} ]; errors := [] |}.
Proof.
  refine (proj1 (blank_value_is_zero (Iso 2025 12 18) "units" "" ∅ _)).
  unfold fourDigitDate. literal_date.
Defined.

(** X15. Saving a record typed the way the dashboard writes it, the date
    as [formatDDMMYYYY] gives it and the value as its number text, stores
    that value on that date and leaves every other date as it was, with no
    message; the sorted records are then that record and those of the other
    dates.  Removing the date afterwards gives the store without the date,
    which is the store before when the date was new. *)
Theorem upsertOne_entry (k : iso) (v : Q) (seriesLabel : string) (dataMap : gmap iso Q) :
  fourDigitDate k -> (0 <= v)%Q -> decimalFraction v ->
  exists q,
    (q == v)%Q /\
    upsertOne (formatDDMMYYYY k) (NumberToString v) seriesLabel dataMap
      = (<[k := q]> dataMap, []) /\
    (<[k := q]> dataMap) !! k = Some q /\
    (forall j, j <> k -> (<[k := q]> dataMap) !! j = dataMap !! j) /\
    sortedDailyOf (<[k := q]> dataMap) ≡ₚ
      {| date := k; value := q |} :: sortedDailyOf (removeDate k dataMap) /\
    removeDate k (<[k := q]> dataMap) = removeDate k dataMap /\
    (dataMap !! k = None -> removeDate k (<[k := q]> dataMap) = dataMap).
Proof.
  intros FD V DF.
  destruct (NumberToString_number v V (decimalFraction_printable v DF)) as (C & q & N & E).
  exists q. split; [exact E|]. split.
  { unfold upsertOne. rewrite (parseInputDate_format k FD).
    rewrite removeCommas_plain
      by (eapply allChars_impl; [|exact C]; intros c Hc; now apply numChar_plain).
    rewrite N.
    assert (Q0 : Qle_bool 0 q = true) by (apply Qle_bool_iff; now rewrite E).
    now rewrite Q0. }
  split; [apply lookup_insert_eq|].
  split; [intros j J; now apply lookup_insert_ne|].
  split.
  { rewrite !sortedDailyOf_perm. unfold removeDate.
    rewrite <- (insert_delete_eq dataMap).
    rewrite map_to_list_insert by apply lookup_delete_eq.
    reflexivity. }
  unfold removeDate. split.
  - apply delete_insert_eq.
  - intros H. rewrite delete_insert_eq. now apply delete_id.
Qed.

Lemma upsertOne_entry_witness :
  exists q,
    (q == 8431 # 2)%Q /\
    upsertOne (formatDDMMYYYY (Iso 2025 12 19)) (NumberToString (8431 # 2)) "Generation" ∅
      = (<[Iso 2025 12 19 := q]> ∅, []) /\
    (<[Iso 2025 12 19 := q]> (∅ : gmap iso Q)) !! Iso 2025 12 19 = Some q /\
    (forall j, j <> Iso 2025 12 19 ->
               (<[Iso 2025 12 19 := q]> (∅ : gmap iso Q)) !! j = (∅ : gmap iso Q) !! j) /\
    sortedDailyOf (<[Iso 2025 12 19 := q]> ∅) ≡ₚ
      {| date := Iso 2025 12 19; value := q |} :: sortedDailyOf (removeDate (Iso 2025 12 19) ∅) /\
    removeDate (Iso 2025 12 19) (<[Iso 2025 12 19 := q]> ∅) = removeDate (Iso 2025 12 19) ∅ /\
    ((∅ : gmap iso Q) !! Iso 2025 12 19 = None ->
     removeDate (Iso 2025 12 19) (<[Iso 2025 12 19 := q]> ∅) = ∅).
Proof.
  apply (upsertOne_entry (Iso 2025 12 19) (8431 # 2) "Generation" ∅).
  - unfold fourDigitDate. literal_date.
  - discriminate.
  - exists 42155, (-1). reflexivity.
Defined.

(** * The latest value of the summary *)

Lemma growthPct_None (curr v : Q) :
  growthPct curr (Some v) = None <-> (v == 0)%Q.
Proof.
  split.
  - intros H. destruct (Qeq_dec v 0) as [E|NE]; [exact E|].
    rewrite (growthPct_nonzero curr v NE) in H. discriminate H.
  - apply growthPct_zero.
Qed.

(** X19. For an empty store the summary is all null.  Otherwise its latest
    record is the record of the greatest date, and the latest year over year
    figure compares its value with the value stored one year before, on the
    same month and day or on 28 February for 29 February: it is
    [(value - v) / v * 100] for a stored [v] that is not zero, and null
    exactly when no value is stored there or the stored value is zero. *)
Theorem kpi_latest (fuel : nat) (dataMap : gmap iso Q) :
  (forall k, is_Some (dataMap !! k) -> keyDate k) ->
  (400 <= fuel)%nat ->
  (dataMap = ∅ -> computeKPIs fuel (sortedDailyOf dataMap) = Some noKPIs) /\
  (dataMap <> ∅ ->
   exists (kpis : KPIs) (p : DailyPoint),
     computeKPIs fuel (sortedDailyOf dataMap) = Some kpis /\
     latest kpis = Some p /\
     dataMap !! date p = Some (value p) /\
     (forall k, is_Some (dataMap !! k) -> DateOfISO k <= DateOfISO (date p)) /\
     oneYearBefore (date p) = isoAddYears (date p) (-1) /\
     let prev := dataMap !! oneYearBefore (date p) in
     (forall v, prev = Some v -> ~ (v == 0)%Q ->
                latestYoY kpis = Some ((value p - v) / v * 100)%Q) /\
     (latestYoY kpis = None <-> prev = None \/ exists v, prev = Some v /\ (v == 0)%Q)).
Proof.
  intros Hk Hf. split.
  { intros ->. unfold sortedDailyOf. rewrite map_to_list_empty. reflexivity. }
  intros NE.
  destruct (sortedDailyOf_nonempty dataMap NE) as [p Hl].
  destruct (sortedDailyOf_last dataMap p Hl) as [Hp Hmax].
  pose proof (Hk _ (mk_is_Some _ _ Hp)) as KD. pose proof KD as [Hy V].
  exists (kpiSpec dataMap p), p.
  rewrite (computeKPIs_enough fuel _ p Hl KD Hf), sortedDailyOf_lookup.
  split; [reflexivity|]. split; [reflexivity|]. split; [exact Hp|]. split.
  { intros k Hs. specialize (Hmax k Hs). unfold iso_le in Hmax.
    apply Is_true_true in Hmax.
    rewrite (iso_leb_days k (date p) (proj2 (Hk k Hs)) V) in Hmax. now apply Z.leb_le. }
  split; [symmetry; apply isoAddYears_before; [exact V|lia]|].
  cbv zeta. cbn [kpiSpec latestYoY].
  destruct (dataMap !! oneYearBefore (date p)) as [v|]; split.
  - intros w E N. injection E as <-. now apply growthPct_nonzero.
  - rewrite growthPct_None. split.
    + intros E. right. now exists v.
    + intros [E|(w & E & Z)]; [discriminate E|]. now injection E as ->.
  - intros w E. discriminate E.
  - split; [now left|reflexivity].
Qed.

Lemma kpi_latest_witness :
  exists (kpis : KPIs),
    computeKPIs 400 (sortedDailyOf {[ Iso 2023 2 28 := 50%Q; Iso 2024 2 29 := 100%Q ]})
      = Some kpis /\
    latest kpis = Some (sampleDay 2024 2 29 100) /\
    latestYoY kpis = Some ((100 - 50) / 50 * 100)%Q.
Proof.
  destruct (kpi_latest 400 {[ Iso 2023 2 28 := 50%Q; Iso 2024 2 29 := 100%Q ]})
    as [_ H].
  - intros k [v Hk].
    apply lookup_insert_Some in Hk as [[<- _]|[_ Hk]]; [literal_date|].
    apply lookup_singleton_Some in Hk as [<- _]. literal_date.
  - lia.
  - destruct H as (kpis & p & C & L & _ & _ & _ & Y & _).
    + intros E. apply (f_equal (fun m => m !! Iso 2023 2 28)) in E.
      rewrite lookup_insert_eq, lookup_empty in E. discriminate E.
    + exists kpis. split; [exact C|].
      assert (P : p = sampleDay 2024 2 29 100).
      { revert C L. vm_compute. intros C L. injection C as <-. now injection L as <-. }
      subst p. split; [exact L|].
      apply (Y 50%Q); [vm_compute; reflexivity|discriminate].
Defined.

(** * The daily series of the second source file *)






